(** * The agent status aggregator (scripts/aggregate-status.py)

    A shallow embedding of the script and the properties of its three stages
    (loading, sorting, rendering) and of its top-level error handler.

    - [Py]: the Python values the script manipulates: strings as sequences
      of code points, parsed JSON values, exceptions, and the built-in
      operations used on them ([==], [<], slicing, [str.replace],
      [str.split], [list.sort], [str(timedelta)]).
    - [Aggregator]: the file system, console and clock the script acts
      on, and the script itself, function by function, as computations that
      change this world and return or raise.
    - [Spec] and [Examples]: what the statements are written with, and the
      concrete directories, records and clocks they are tried on.
    - [Utf8] and [Sample]: the text that UTF-8 encodes, and an instance of
      the interpreter's own functions, on which the examples run.
    - The properties, stage by stage, the claims C1 to C10, and further
      properties of the script, X1 to X20. *)

From Stdlib Require Import String Ascii.
From Stdlib Require Import List ZArith NArith QArith Bool Lia.
From Stdlib Require Import Permutation Sorted.
Import ListNotations.

Set Implicit Arguments.
Set Warnings "-register-all".
Local Open Scope list_scope.
Local Open Scope nat_scope.

(** ** Python values *)
Module Py.

(** A Python [str] is a sequence of Unicode code points: slicing counts
    code points and [<] compares them one by one. *)
Definition char := N.
Definition str := list char.

(** ASCII literals of the source. *)
Definition u (s : string) : str := map N_of_ascii (list_ascii_of_string s).

Fixpoint str_eqb (a b : str) : bool :=
  match a, b with
  | [], [] => true
  | x :: a', y :: b' => N.eqb x y && str_eqb a' b'
  | _, _ => false
  end.

(** [a < b] on strings. *)
Fixpoint str_ltb (a b : str) : bool :=
  match a, b with
  | _, [] => false
  | [], _ :: _ => true
  | x :: a', y :: b' =>
      if N.ltb x y then true
      else if N.ltb y x then false
      else str_ltb a' b'
  end.

Fixpoint prefixb (p s : str) : bool :=
  match p, s with
  | [], _ => true
  | x :: p', y :: s' => N.eqb x y && prefixb p' s'
  | _ :: _, [] => false
  end.

Fixpoint suffixb_aux (p s : str) (n : nat) : bool :=
  match n with
  | 0 => str_eqb p s
  | S k => match s with [] => false | _ :: s' => suffixb_aux p s' k end
  end.

(** [s.endswith(p)]. *)
Definition endswith (s p : str) : bool :=
  Nat.leb (length p) (length s) && suffixb_aux p s (length s - length p).

Fixpoint replace_scan (old new : str) (skip : nat) (s : str) : str :=
  match s with
  | [] => []
  | c :: s' =>
      match skip with
      | S k => replace_scan old new k s'
      | 0 =>
          if prefixb old s
          then new ++ replace_scan old new (length old - 1) s'
          else c :: replace_scan old new 0 s'
      end
  end.

(** [s.replace(old, new)]: every occurrence, left to right, without
    overlap. *)
Definition replace (old new s : str) : str :=
  match old with
  | [] => new ++ flat_map (fun c => c :: new) s
  | _ :: _ => replace_scan old new 0 s
  end.

(** [s.split('.')[0]]. *)
Fixpoint before_dot (s : str) : str :=
  match s with
  | [] => []
  | c :: s' => if N.eqb c 46 then [] else c :: before_dot s'
  end.

(** *** Text that UTF-8 encodes

    A [str] can hold a surrogate (U+D800 to U+DFFF) on its own: [json.load]
    returns one for an escape such as ["\ud800"] that is not part of a pair.
    UTF-8 has no encoding for it. *)

Definition is_surrogate (c : char) : bool := N.leb 55296 c && N.leb c 57343.

(** [s.encode('utf-8')] returns. *)
Definition encodable (s : str) : bool :=
  forallb (fun c => negb (is_surrogate c)) s.

(** The length of the run of surrogates [s] starts with. *)
Fixpoint surrogate_run (s : str) : nat :=
  match s with
  | c :: s' => if is_surrogate c then S (surrogate_run s') else 0
  | [] => 0
  end.

(** *** Decimal formatting ([%d], [%02d], [%06d], [{n}]) *)

Fixpoint dec_uint (d : Decimal.uint) : str :=
  match d with
  | Decimal.Nil => []
  | Decimal.D0 d => 48%N :: dec_uint d
  | Decimal.D1 d => 49%N :: dec_uint d
  | Decimal.D2 d => 50%N :: dec_uint d
  | Decimal.D3 d => 51%N :: dec_uint d
  | Decimal.D4 d => 52%N :: dec_uint d
  | Decimal.D5 d => 53%N :: dec_uint d
  | Decimal.D6 d => 54%N :: dec_uint d
  | Decimal.D7 d => 55%N :: dec_uint d
  | Decimal.D8 d => 56%N :: dec_uint d
  | Decimal.D9 d => 57%N :: dec_uint d
  end.

Definition str_of_nat (n : nat) : str := dec_uint (Nat.to_uint n).

Definition str_of_Z (z : Z) : str :=
  match z with
  | Z0 => [48%N]
  | Zpos p => dec_uint (Pos.to_uint p)
  | Zneg p => 45%N :: dec_uint (Pos.to_uint p)
  end.

(** [%0<w>d] for a non-negative argument. *)
Definition zero_pad (w : nat) (z : Z) : str :=
  let d := str_of_Z z in repeat 48%N (w - length d) ++ d.

(** *** Parsed JSON *)

(** What [json.load] returns.  A number with a fraction or an exponent is
    a Python [float]; a finite one is held as the rational it denotes (the
    literals NaN and Infinity, which are not JSON, are left out). *)
Inductive json : Type :=
| JNull
| JBool (b : bool)
| JInt (z : Z)
| JFloat (q : Q)
| JStr (s : str)
| JArr (l : list json)
| JObj (kvs : list (str * json)).

(** A Python [dict] with string keys, in insertion order. *)
Definition dict := list (str * json).

Inductive pytype := TNone | TBool | TInt | TFloat | TStr | TList | TDict.

Definition type_of (v : json) : pytype :=
  match v with
  | JNull => TNone
  | JBool _ => TBool
  | JInt _ => TInt
  | JFloat _ => TFloat
  | JStr _ => TStr
  | JArr _ => TList
  | JObj _ => TDict
  end.

(** Truth value in [if v:]. *)
Definition truthy (v : json) : bool :=
  match v with
  | JNull => false
  | JBool b => b
  | JInt z => negb (Z.eqb z 0)
  | JFloat q => negb (Qeq_bool q 0)
  | JStr s => match s with [] => false | _ => true end
  | JArr l => match l with [] => false | _ => true end
  | JObj kvs => match kvs with [] => false | _ => true end
  end.

(** [d.get(k)]: [None] when the key is absent. *)
Fixpoint lookup (k : str) (d : dict) : option json :=
  match d with
  | [] => None
  | (k', v) :: d' => if str_eqb k k' then Some v else lookup k d'
  end.

(** [d.get(k, dflt)]. *)
Definition get (d : dict) (k : str) (dflt : json) : json :=
  match lookup k d with Some v => v | None => dflt end.

(** The number a [bool], [int] or [float] stands for in a comparison. *)
Definition numeric (v : json) : option Q :=
  match v with
  | JBool b => Some (inject_Z (if b then 1 else 0))
  | JInt z => Some (inject_Z z)
  | JFloat q => Some q
  | _ => None
  end.

(** [a == b]. *)
Fixpoint py_eq (a b : json) {struct a} : bool :=
  match numeric a, numeric b with
  | Some x, Some y => Qeq_bool x y
  | _, _ =>
      match a, b with
      | JNull, JNull => true
      | JStr s, JStr t => str_eqb s t
      | JArr l, JArr m =>
          (fix all2 (l m : list json) {struct l} : bool :=
             match l, m with
             | [], [] => true
             | x :: l', y :: m' => py_eq x y && all2 l' m'
             | _, _ => false
             end) l m
      | JObj d, JObj e =>
          Nat.eqb (length d) (length e) &&
          (fix each (d : list (str * json)) {struct d} : bool :=
             match d with
             | [] => true
             | (k, v) :: d' =>
                 match lookup k e with
                 | Some w => py_eq v w
                 | None => false
                 end && each d'
             end) d
      | _, _ => false
      end
  end.

(** *** Exceptions *)

(** The exceptions that reach the script.  The first four are raised by
    [open] and [json.load] on a status file; [UnicodeEncodeError] is raised
    by a write to the board and carries the first character that cannot be
    encoded and the positions where the run of such characters starts and
    ends; the [TypeError]s are kept apart by their cause. *)
Inductive exn : Type :=
| JSONDecodeError (detail : str)
| OSError (detail : str)
| UnicodeDecodeError (detail : str)
| UnicodeEncodeError (c : char) (start stop : nat)
| RecursionError
| AttributeError (t : pytype) (attr : str)
| Unhashable (t : pytype)
| NotOrderable (a b : pytype)
| NotSubscriptable (t : pytype).

(** What [s.encode('utf-8')] raises, [s] being what follows position [i] of
    the text to encode: the error names the first run of surrogates. *)
Fixpoint encode_error (i : nat) (s : str) : option exn :=
  match s with
  | [] => None
  | c :: s' =>
      if is_surrogate c
      then Some (UnicodeEncodeError c i (S i + surrogate_run s'))
      else encode_error (S i) s'
  end.

(** A computation that returns or raises. *)
Inductive result (A : Type) : Type :=
| Ok (a : A)
| Raise (e : exn).
Arguments Ok {A} a.
Arguments Raise {A} e.

Definition rbind {A B} (c : result A) (k : A -> result B) : result B :=
  match c with
  | Ok a => k a
  | Raise e => Raise e
  end.

Notation "'let?' x ':=' c 'in' k" := (rbind c (fun x => k))
  (at level 10, x name, c at level 100, k at level 200).

Fixpoint mapM {A B} (f : A -> result B) (l : list A) : result (list B) :=
  match l with
  | [] => Ok []
  | a :: l' =>
      let? b := f a in
      let? bs := mapM f l' in
      Ok (b :: bs)
  end.

(** [a < b]. *)
Fixpoint py_lt (a b : json) {struct a} : result bool :=
  match numeric a, numeric b with
  | Some x, Some y => Ok (negb (Qle_bool y x))
  | _, _ =>
      match a, b with
      | JStr s, JStr t => Ok (str_ltb s t)
      | JArr l, JArr m =>
          (fix lex (l m : list json) {struct l} : result bool :=
             match l, m with
             | [], [] => Ok false
             | [], _ :: _ => Ok true
             | _ :: _, [] => Ok false
             | x :: l', y :: m' =>
                 if py_eq x y then lex l' m' else py_lt x y
             end) l m
      | _, _ => Raise (NotOrderable (type_of a) (type_of b))
      end
  end.

(** [table.get(k, dflt)] for a table with string keys: the key is hashed
    first, which a list or a dict refuses. *)
Definition table_get {V} (table : list (str * V)) (k : json) (dflt : V)
  : result V :=
  match k with
  | JStr s =>
      Ok (match find (fun kv => str_eqb s (fst kv)) table with
          | Some kv => snd kv
          | None => dflt
          end)
  | JArr _ | JObj _ => Raise (Unhashable (type_of k))
  | _ => Ok dflt
  end.

(** [v[:n]]. *)
Definition slice (n : nat) (v : json) : result json :=
  match v with
  | JStr s => Ok (JStr (firstn n s))
  | JArr l => Ok (JArr (firstn n l))
  | _ => Raise (NotSubscriptable (type_of v))
  end.

(** [v in [s1, s2, ...]] for a list of string literals. *)
Definition is_in (v : json) (choices : list str) : bool :=
  existsb (fun s => py_eq v (JStr s)) choices.

(** *** Sorting *)

Section Sort.
Variable A : Type.
Variable lt : A -> A -> result bool.

(** [x] enters an ascending list after every element that is less than
    it, hence in front of its equals. *)
Fixpoint insert (x : A) (l : list A) : result (list A) :=
  match l with
  | [] => Ok [x]
  | y :: l' =>
      let? b := lt y x in
      if b then (let? r := insert x l' in Ok (y :: r))
      else Ok (x :: l)
  end.

(** [sorted(l)] and [l.sort()]: the stable ascending order under [<].
    The comparisons made are those of an insertion from the right.
    CPython makes others: it returns the same list when no comparison
    raises, and where the sort fails the two types its [TypeError] names
    can be those of another pair. *)
Fixpoint py_sort (l : list A) : result (list A) :=
  match l with
  | [] => Ok []
  | x :: l' => let? r := py_sort l' in insert x r
  end.
End Sort.

(** *** Time *)

(** A [datetime]: an instant in microseconds since the epoch when it
    carries a UTC offset, a bare wall-clock reading otherwise. *)
Inductive datetime : Type :=
| Aware (utc_us : Z)
| Naive (wall_us : Z).

Definition us_per_second : Z := 1000000.
Definition us_per_day : Z := 86400 * us_per_second.

(** [h:mm:ss] of a number of seconds within a day. *)
Definition hms (seconds : Z) : str :=
  let mm := (seconds / 60)%Z in
  let ss := (seconds mod 60)%Z in
  let hh := (mm / 60)%Z in
  let mm := (mm mod 60)%Z in
  str_of_Z hh ++ u ":" ++ zero_pad 2 mm ++ u ":" ++ zero_pad 2 ss.

Definition with_days (days : Z) (s : str) : str :=
  if Z.eqb days 0 then s
  else str_of_Z days ++ u " day"
       ++ (if Z.eqb (Z.abs days) 1 then [] else u "s") ++ u ", " ++ s.

(** [str(d)] for a [timedelta] of [us] microseconds, which Python holds
    as days, seconds in [0, 86400) and microseconds in [0, 10^6). *)
Definition td_str (us : Z) : str :=
  let days := (us / us_per_day)%Z in
  let rest := (us mod us_per_day)%Z in
  let seconds := (rest / us_per_second)%Z in
  let micros := (rest mod us_per_second)%Z in
  let s := with_days days (hms seconds) in
  if Z.eqb micros 0 then s else s ++ u "." ++ zero_pad 6 micros.

(** *** The interpreter's own functions

    Library code the script calls and whose text is fixed by the Python
    version: [repr] of a value that is not a string, [str(e)] of an
    exception, [datetime.isoformat] of a UTC instant and
    [datetime.fromisoformat] ([None] for its [ValueError]).  Whatever the
    version, a timestamp and the message of an exception the script meets
    are text that UTF-8 encodes: a timestamp is made of digits and
    punctuation, and such a message shows the path or the character it
    quotes escaped. *)
Record Runtime : Type := {
  py_repr : json -> str;
  exn_text : exn -> str;
  isoformat : Z -> str;
  fromisoformat : str -> option datetime;
  exn_text_encodable : forall e, encodable (exn_text e) = true;
  isoformat_encodable : forall t, encodable (isoformat t) = true
}.

(** [str(v)], which is what an f-string field [{v}] writes. *)
Definition py_str (rt : Runtime) (v : json) : str :=
  match v with
  | JStr s => s
  | JNull => u "None"
  | JBool true => u "True"
  | JBool false => u "False"
  | JInt z => str_of_Z z
  | _ => py_repr rt v
  end.

End Py.

(** ** The script *)
Module Aggregator.
Import Py.

Definition nl : str := [10%N].

(** *** What the script acts on *)

(** A status file, by what [open] followed by [json.load] does on it. *)
Inductive file : Type :=
| Loads (v : json)
| Fails (e : exn).

(** The status directory (absent, or its entries in listing order), the
    board file as the chunks written to it, whether the board can be
    opened for writing, the console, the clock with the number of times
    it has been read, and the place the file system gives, in the listing
    of the status directory, to a file that is created there. *)
Record World : Type := {
  status_dir : option (list (str * file));
  board : option (list str);
  board_writable : bool;
  console : list str;
  clock : nat -> Z;
  ticks : nat;
  slot : nat
}.

Definition set_status_dir (d : option (list (str * file))) (w : World) :=
  {| status_dir := d; board := board w; board_writable := board_writable w;
     console := console w; clock := clock w; ticks := ticks w;
     slot := slot w |}.
Definition set_board (b : option (list str)) (w : World) :=
  {| status_dir := status_dir w; board := b;
     board_writable := board_writable w;
     console := console w; clock := clock w; ticks := ticks w;
     slot := slot w |}.
Definition set_console (c : list str) (w : World) :=
  {| status_dir := status_dir w; board := board w;
     board_writable := board_writable w;
     console := c; clock := clock w; ticks := ticks w;
     slot := slot w |}.
Definition set_ticks (n : nat) (w : World) :=
  {| status_dir := status_dir w; board := board w;
     board_writable := board_writable w;
     console := console w; clock := clock w; ticks := n; slot := slot w |}.

(** Effects stay when an exception propagates. *)
Definition M (A : Type) : Type := World -> World * result A.

Definition ret {A} (a : A) : M A := fun w => (w, Ok a).
Definition bind {A B} (c : M A) (k : A -> M B) : M B :=
  fun w =>
    match c w with
    | (w', Ok a) => k a w'
    | (w', Raise e) => (w', Raise e)
    end.
Definition lift {A} (r : result A) : M A := fun w => (w, r).

Declare Scope m_scope.
Delimit Scope m_scope with M.
Notation "x <- c ;; k" := (bind c (fun x => k))
  (at level 61, c at next level, right associativity) : m_scope.
Notation "c ;; k" := (bind c (fun _ => k))
  (at level 61, right associativity) : m_scope.
Local Open Scope m_scope.

(** [try: c except <classes> as e: handler(e)], for the classes that
    [handles] accepts. *)
Definition catch {A} (c : M A) (handles : exn -> bool) (handler : exn -> M A)
  : M A :=
  fun w =>
    match c w with
    | (w', Ok a) => (w', Ok a)
    | (w', Raise e) => if handles e then handler e w' else (w', Raise e)
    end.

Fixpoint forM_ {A} (l : list A) (body : A -> M unit) : M unit :=
  match l with
  | [] => ret tt
  | a :: l' => body a ;; forM_ l' body
  end.

(** [print(line)].  How the console encodes a line is settled outside the
    script; it is taken to accept every line. *)
Definition print (line : str) : M unit :=
  fun w => (set_console (console w ++ [line]) w, Ok tt).

(** [datetime.now(timezone.utc)], in microseconds since the epoch. *)
Definition now : M Z :=
  fun w => (set_ticks (S (ticks w)) w, Ok (clock w (ticks w))).

Definition status_dir_name : str := u "agent-status".
Definition board_name : str := u "AGENT-STATUS.md".

(** [str(status_dir / name)]. *)
Definition path_of (name : str) : str := status_dir_name ++ u "/" ++ name.

Definition dir_exists : M bool :=
  fun w => (w, Ok (match status_dir w with Some _ => true | None => false end)).

(** [status_dir.mkdir(parents=True, exist_ok=True)]. *)
Definition mkdir : M unit :=
  fun w =>
    match status_dir w with
    | Some _ => (w, Ok tt)
    | None => (set_status_dir (Some []) w, Ok tt)
    end.

Definition is_json_name (name : str) : bool := endswith name (u ".json").

(** [list(status_dir.glob('*.json'))], as file names. *)
Definition glob_json : M (list str) :=
  fun w =>
    (w, Ok (match status_dir w with
            | Some entries => filter is_json_name (map fst entries)
            | None => []
            end)).

Fixpoint find_file (name : str) (entries : list (str * file)) : option file :=
  match entries with
  | [] => None
  | (n, g) :: rest => if str_eqb name n then Some g else find_file name rest
  end.

(** The entry called [name] gets the content [f]. *)
Fixpoint rewrite_file (name : str) (f : file) (entries : list (str * file))
  : list (str * file) :=
  match entries with
  | [] => []
  | (n, g) :: rest =>
      if str_eqb name n then (n, f) :: rest
      else (n, g) :: rewrite_file name f rest
  end.

(** [x] at place [n] of a listing, at its end when the listing is
    shorter. *)
Definition insert_at {A} (n : nat) (x : A) (l : list A) : list A :=
  firstn n l ++ x :: skipn n l.

(** A file that is written keeps its place in the listing when it was
    there; a new one is listed where the file system puts it. *)
Definition put_file (place : nat) (name : str) (f : file)
           (entries : list (str * file)) : list (str * file) :=
  match find_file name entries with
  | Some _ => rewrite_file name f entries
  | None => insert_at place (name, f) entries
  end.

(** [with open(status_dir / name, 'w') as f: json.dump(v, f, indent=2)]:
    the file then loads back as [v]. *)
Definition json_dump (name : str) (v : json) : M unit :=
  fun w =>
    match status_dir w with
    | Some entries =>
        (set_status_dir (Some (put_file (slot w) name (Loads v) entries)) w,
         Ok tt)
    | None => (w, Raise (OSError (path_of name)))
    end.

(** [with open(status_dir / name, 'r') as f: return json.load(f)]. *)
Definition json_load (name : str) : M json :=
  fun w =>
    match status_dir w with
    | Some entries =>
        match find_file name entries with
        | Some (Loads v) => (w, Ok v)
        | Some (Fails e) => (w, Raise e)
        | None => (w, Raise (OSError (path_of name)))
        end
    | None => (w, Raise (OSError (path_of name)))
    end.

(** [open('AGENT-STATUS.md', 'w', encoding='utf-8')]: truncates, or raises
    when the path cannot be written. *)
Definition open_board : M unit :=
  fun w =>
    if board_writable w then (set_board (Some []) w, Ok tt)
    else (w, Raise (OSError board_name)).

(** [f.write(chunk)] on the board: the chunk is encoded as UTF-8 before
    any of it is written, so a chunk with a surrogate raises and leaves the
    board as it is. *)
Definition write (chunk : str) : M unit :=
  fun w =>
    match encode_error 0 chunk with
    | Some e => (w, Raise e)
    | None =>
        (set_board (Some (match board w with
                          | Some chunks => chunks ++ [chunk]
                          | None => [chunk]
                          end)) w, Ok tt)
    end.

(** *** The functions of the script *)

Section Script.
Variable rt : Runtime.

(** [datetime.now(timezone.utc).isoformat().replace('+00:00', 'Z')] once
    the clock has been read. *)
Definition utc_stamp (t : Z) : str :=
  replace (u "+00:00") (u "Z") (isoformat rt t).

(** [except (json.JSONDecodeError, IOError)]. *)
Definition caught_by_loader (e : exn) : bool :=
  match e with
  | JSONDecodeError _ | OSError _ => true
  | _ => false
  end.

Definition warning (name : str) (e : exn) : str :=
  u "Warning: Could not read " ++ path_of name ++ u ": " ++ exn_text rt e.

(** Lines 12-19: a failure of the two classes is reported and [None] is
    returned. *)
Definition safe_json_load (name : str) : M json :=
  catch (json_load name) caught_by_loader
        (fun e => print (warning name e) ;; ret JNull).

(** The dict of lines 23-29, built when the clock shows [t]. *)
Definition system_status_at (t : Z) : dict :=
  [ (u "agentId", JStr (u "system"));
    (u "type", JStr (u "system"));
    (u "status", JStr (u "idle"));
    (u "lastUpdate", JStr (utc_stamp t));
    (u "message",
     JStr (u "System initialized. Waiting for first coordinator run.")) ].

Definition create_system_status : M json :=
  t <- now ;;
  ret (JObj (system_status_at t)).

Definition system_name : str := u "system.json".

(** Lines 35-45: the status directory is made when it is missing. *)
Definition ensure_status_dir : M unit :=
  present <- dir_exists ;;
  if present then ret tt
  else
    print (u "Creating agent-status directory...") ;;
    mkdir ;;
    system_status <- create_system_status ;;
    json_dump system_name system_status ;;
    print (u "Created " ++ path_of system_name).

(** Lines 60-63: [agents] receives the truthy values, in listing order. *)
Fixpoint load_files (status_files : list str) : M (list json) :=
  match status_files with
  | [] => ret []
  | filepath :: rest =>
      agent_data <- safe_json_load filepath ;;
      agents <- load_files rest ;;
      ret (if truthy agent_data then agent_data :: agents else agents)
  end.

(** Lines 47-63. *)
Definition load_agents : M (list json) :=
  status_files <- glob_json ;;
  match status_files with
  | [] =>
      print (u "No agent status files found, creating empty status board") ;;
      system_status <- create_system_status ;;
      json_dump system_name system_status ;;
      ret [system_status]
  | _ :: _ => load_files status_files
  end.

(** Lines 66-72. *)
Definition priority : list (str * nat) :=
  [ (u "in_progress", 0); (u "blocked", 1); (u "waiting", 2);
    (u "idle", 3); (u "completed", 4) ].

(** [a.get]: only a dict has it. *)
Definition as_dict (a : json) : result dict :=
  match a with
  | JObj kvs => Ok kvs
  | _ => Raise (AttributeError (type_of a) (u "get"))
  end.

(** The key of lines 73-76. *)
Definition sort_key (a : json) : result (nat * json) :=
  let? d := as_dict a in
  let? rank := table_get priority (get d (u "status") (JStr (u "idle"))) 5 in
  Ok (rank, get d (u "agentId") (JStr (u "unknown"))).

(** [<] on the key tuples: the first components that differ decide. *)
Definition key_lt (k1 k2 : nat * json) : result bool :=
  if Nat.eqb (fst k1) (fst k2)
  then (if py_eq (snd k1) (snd k2) then Ok false
        else py_lt (snd k1) (snd k2))
  else Ok (Nat.ltb (fst k1) (fst k2)).

(** [agents.sort(key=...)]: every key is computed, then the keys are
    compared.  The key calls [a.get] on each element, so past the sort each
    one is a dict. *)
Definition sort_agents (agents : list json) : result (list dict) :=
  let? keyed :=
    mapM (fun a => let? k := sort_key a in let? d := as_dict a in Ok (k, d))
         agents in
  let? sorted := py_sort (fun x y => key_lt (fst x) (fst y)) keyed in
  Ok (map snd sorted).

(** **** Rendering *)

Definition placeholder : str := u "-".

(** Lines 93-99.  The clock is read once [fromisoformat] has returned; the
    bare [except] turns every failure into the placeholder. *)
Definition duration_cell (agent : dict) : M str :=
  if truthy (get agent (u "started") JNull) then
    match get agent (u "started") JNull with
    | JStr s =>
        match fromisoformat rt (replace (u "Z") (u "+00:00") s) with
        | Some started =>
            t <- now ;;
            ret (match started with
                 | Aware t0 => before_dot (td_str (t - t0))
                 | Naive _ => placeholder
                 end)
        | None => ret placeholder
        end
    | _ => ret placeholder
    end
  else ret placeholder.

(** Lines 102-106. *)
Definition status_emoji_table : list (str * str) :=
  [ (u "in_progress", [128260%N]); (u "blocked", [128683%N]);
    (u "waiting", [9203%N]) ].

Definition fmt (v : json) : str := py_str rt v.

(** Lines 91-113. *)
Definition active_row (agent : dict) : M unit :=
  duration <- duration_cell agent ;;
  status_emoji <-
    lift (table_get status_emoji_table
            (get agent (u "status") (JStr (u "idle"))) [10067%N]) ;;
  task <- lift (slice 30 (get agent (u "task") (JStr placeholder))) ;;
  branch <- lift (slice 20 (get agent (u "branch") (JStr placeholder))) ;;
  started <- lift (slice 16 (get agent (u "started") (JStr placeholder))) ;;
  write (u "| " ++ fmt (get agent (u "agentId") (JStr (u "unknown")))
         ++ u " | " ++ status_emoji ++ u " "
         ++ fmt (get agent (u "status") (JStr (u "unknown")))
         ++ u " | " ++ fmt task
         ++ u " | `" ++ fmt branch
         ++ u "` | " ++ fmt started
         ++ u " | " ++ duration ++ u " |" ++ nl).

(** Lines 122-126. *)
Definition blocked_row (agent : dict) : M unit :=
  reason <- lift (slice 40 (get agent (u "reason") (JStr placeholder))) ;;
  write (u "| " ++ fmt (get agent (u "agentId") (JStr (u "unknown")))
         ++ u " | " ++ fmt (get agent (u "blockedBy") (JStr placeholder))
         ++ u " | " ++ fmt reason
         ++ u " | " ++ fmt (get agent (u "blockedDuration") (JStr placeholder))
         ++ u " |" ++ nl).

(** Lines 135-138. *)
Definition idle_row (agent : dict) : M unit :=
  last <- lift (slice 16 (get agent (u "lastUpdate") (JStr placeholder))) ;;
  write (u "| " ++ fmt (get agent (u "agentId") (JStr (u "unknown")))
         ++ u " | " ++ fmt last
         ++ u " | " ++ fmt (get agent (u "readyFor") (JStr (u "Any task")))
         ++ u " |" ++ nl).

(** Lines 148-152. *)
Definition completed_row (agent : dict) : M unit :=
  task <- lift (slice 30 (get agent (u "task") (JStr placeholder))) ;;
  done <- lift (slice 16 (get agent (u "completed") (JStr placeholder))) ;;
  write (u "| " ++ fmt (get agent (u "agentId") (JStr (u "unknown")))
         ++ u " | " ++ fmt task
         ++ u " | " ++ fmt done
         ++ u " | " ++ fmt (get agent (u "duration") (JStr placeholder))
         ++ u " |" ++ nl).

Definition status_of (a : dict) : json := get a (u "status") JNull.

(** The list comprehensions of lines 85, 116, 129 and 141. *)
Definition active_of (agents : list dict) : list dict :=
  filter (fun a => negb (is_in (status_of a) [u "idle"; u "completed"])) agents.
Definition blocked_of (agents : list dict) : list dict :=
  filter (fun a => py_eq (status_of a) (JStr (u "blocked"))) agents.
Definition idle_of (agents : list dict) : list dict :=
  filter (fun a => py_eq (status_of a) (JStr (u "idle"))) agents.
Definition completed_of (agents : list dict) : list dict :=
  filter (fun a => py_eq (status_of a) (JStr (u "completed"))) agents.

(** **** Lane utilization (lines 161-184) *)

(** The inner dicts of [lanes]. *)
Record lane_stats : Type := {
  n_active : nat;
  n_idle : nat;
  n_blocked : nat
}.

Definition no_stats : lane_stats :=
  {| n_active := 0; n_idle := 0; n_blocked := 0 |}.
Definition inc_active (s : lane_stats) : lane_stats :=
  {| n_active := S (n_active s); n_idle := n_idle s; n_blocked := n_blocked s |}.
Definition inc_idle (s : lane_stats) : lane_stats :=
  {| n_active := n_active s; n_idle := S (n_idle s); n_blocked := n_blocked s |}.
Definition inc_blocked (s : lane_stats) : lane_stats :=
  {| n_active := n_active s; n_idle := n_idle s; n_blocked := S (n_blocked s) |}.
Definition stats_eqb (s t : lane_stats) : bool :=
  Nat.eqb (n_active s) (n_active t) && Nat.eqb (n_idle s) (n_idle t)
  && Nat.eqb (n_blocked s) (n_blocked t).

(** The dict [lanes], in insertion order; a key is found by [==]. *)
Definition lane_table : Type := list (json * lane_stats).

(** A dict key is hashed before it is looked up. *)
Definition hashable (v : json) : result unit :=
  match v with
  | JArr _ | JObj _ => Raise (Unhashable (type_of v))
  | _ => Ok tt
  end.

Definition has_lane (lane : json) (lanes : lane_table) : bool :=
  existsb (fun kv => py_eq lane (fst kv)) lanes.

(** [lanes[lane][field] += 1]. *)
Fixpoint bump (lane : json) (f : lane_stats -> lane_stats)
         (lanes : lane_table) : lane_table :=
  match lanes with
  | [] => []
  | (k, st) :: rest =>
      if py_eq lane k then (k, f st) :: rest
      else (k, st) :: bump lane f rest
  end.

(** The bucket a status falls in (lines 168-174). *)
Definition bucket (status : json) : lane_stats -> lane_stats :=
  if is_in status [u "in_progress"; u "waiting"] then inc_active
  else if py_eq status (JStr (u "blocked")) then inc_blocked
  else inc_idle.

(** One turn of the loop of lines 163-174. *)
Definition tally (lanes : lane_table) (agent : dict) : result lane_table :=
  let lane := get agent (u "lane") (JStr (u "unknown")) in
  let? _ := hashable lane in
  let lanes :=
    if has_lane lane lanes then lanes else lanes ++ [(lane, no_stats)] in
  let status := get agent (u "status") (JStr (u "idle")) in
  Ok (bump lane (bucket status) lanes).

Fixpoint tally_all (lanes : lane_table) (agents : list dict)
  : result lane_table :=
  match agents with
  | [] => Ok lanes
  | agent :: rest =>
      let? lanes' := tally lanes agent in
      tally_all lanes' rest
  end.

(** [<] on the items [(lane, stats)]: the lanes decide unless they are
    equal, and two dicts that differ have no order. *)
Definition item_lt (x y : json * lane_stats) : result bool :=
  if py_eq (fst x) (fst y)
  then (if stats_eqb (snd x) (snd y) then Ok false
        else Raise (NotOrderable TDict TDict))
  else py_lt (fst x) (fst y).

Definition lane_total (st : lane_stats) : nat :=
  n_active st + n_blocked st + n_idle st.

Definition lane_row (item : json * lane_stats) : M unit :=
  write (u "| " ++ fmt (fst item)
         ++ u " | " ++ str_of_nat (n_active (snd item))
         ++ u " | " ++ str_of_nat (n_blocked (snd item))
         ++ u " | " ++ str_of_nat (n_idle (snd item))
         ++ u " | " ++ str_of_nat (lane_total (snd item)) ++ u " |" ++ nl).

(** **** The board (lines 79-184) *)

Definition title : str := u "# " ++ [129302%N] ++ u " Agent Status Board" ++ nl.

Definition updated_line (t : Z) : str :=
  u "**Last Updated:** " ++ utc_stamp t ++ nl.

Definition total_line (agents : list dict) : str :=
  u "**Total Agents:** " ++ str_of_nat (length agents) ++ nl ++ nl.

Definition active_heading : list str :=
  [ u "## " ++ [128640%N] ++ u " Active Work" ++ nl ++ nl;
    u "| Agent | Status | Task | Branch | Started | Duration |" ++ nl;
    u "|-------|--------|------|--------|---------|----------|" ++ nl ].

Definition blocked_heading : list str :=
  [ nl ++ u "## " ++ [128683%N] ++ u " Blocked Agents" ++ nl ++ nl;
    u "| Agent | Blocked By | Reason | Duration |" ++ nl;
    u "|-------|------------|--------|----------|" ++ nl ].

Definition idle_heading : list str :=
  [ nl ++ u "## " ++ [128164%N] ++ u " Idle Agents" ++ nl ++ nl;
    u "| Agent | Last Active | Ready For |" ++ nl;
    u "|-------|-------------|----------|" ++ nl ].

Definition completed_heading : list str :=
  [ nl ++ u "## " ++ [9989%N] ++ u " Recent Completions" ++ nl ++ nl;
    u "| Agent | Task | Completed | Duration |" ++ nl;
    u "|-------|------|-----------|----------|" ++ nl ].

Definition lane_heading : list str :=
  [ nl ++ u "### Lane Utilization" ++ nl ++ nl;
    u "| Lane | Active | Blocked | Idle | Total |" ++ nl;
    u "|------|--------|---------|------|-------|" ++ nl ].

(** The five writes of lines 155-159. *)
Definition statistics_chunks (active blocked idle completed : list dict)
  : list str :=
  [ nl ++ u "## " ++ [128202%N] ++ u " Statistics" ++ nl ++ nl;
    u "- **Active:** " ++ str_of_nat (length active) ++ nl;
    u "- **Blocked:** " ++ str_of_nat (length blocked) ++ nl;
    u "- **Idle:** " ++ str_of_nat (length idle) ++ nl;
    u "- **Completed (recent):** " ++ str_of_nat (length completed) ++ nl ].

Definition nonempty {A} (l : list A) : bool :=
  match l with [] => false | _ :: _ => true end.

Definition when (b : bool) (c : M unit) : M unit := if b then c else ret tt.

Definition active_section (active : list dict) : M unit :=
  when (nonempty active)
    (forM_ active_heading write ;; forM_ active active_row).

Definition blocked_section (blocked : list dict) : M unit :=
  when (nonempty blocked)
    (forM_ blocked_heading write ;; forM_ blocked blocked_row).

Definition idle_section (idle : list dict) : M unit :=
  when (nonempty idle)
    (forM_ idle_heading write ;; forM_ idle idle_row).

(** Only the first five completions are shown (line 148). *)
Definition completed_section (completed : list dict) : M unit :=
  when (nonempty completed)
    (forM_ completed_heading write ;;
     forM_ (firstn 5 completed) completed_row).

Definition statistics_section (active blocked idle completed : list dict)
  : M unit :=
  forM_ (statistics_chunks active blocked idle completed) write.

Definition lane_section (agents : list dict) : M unit :=
  lanes <- lift (tally_all [] agents) ;;
  when (nonempty lanes)
    (forM_ lane_heading write ;;
     rows <- lift (py_sort item_lt lanes) ;;
     forM_ rows lane_row).

Definition render (agents : list dict) : M unit :=
  open_board ;;
  write title ;;
  t <- now ;;
  write (updated_line t) ;;
  write (total_line agents) ;;
  active_section (active_of agents) ;;
  blocked_section (blocked_of agents) ;;
  idle_section (idle_of agents) ;;
  completed_section (completed_of agents) ;;
  statistics_section (active_of agents) (blocked_of agents)
                     (idle_of agents) (completed_of agents) ;;
  lane_section agents.

(** Lines 186-189. *)
Definition summary (agents : list dict) : M unit :=
  print (u "[SUCCESS] Status board updated: AGENT-STATUS.md") ;;
  print (u "   - " ++ str_of_nat (length (active_of agents)) ++ u " active agents") ;;
  print (u "   - " ++ str_of_nat (length (blocked_of agents)) ++ u " blocked agents") ;;
  print (u "   - " ++ str_of_nat (length (idle_of agents)) ++ u " idle agents").

Definition aggregate_status : M unit :=
  ensure_status_dir ;;
  loaded <- load_agents ;;
  agents <- lift (sort_agents loaded) ;;
  render agents ;;
  summary agents.

(** **** The entry point (lines 191-201) *)

(** How the process ends: through [exit(code)] or by reaching the end of
    the script (status 0), or through an exception nobody caught, for which
    the interpreter prints a traceback and leaves with status 1. *)
Inductive ending : Type :=
| Exited (code : Z)
| Uncaught (e : exn).

Definition exit_status (x : ending) : Z :=
  match x with
  | Exited code => code
  | Uncaught _ => 1%Z
  end.

Definition error_line (e : exn) : str :=
  u "**Error:** Could not aggregate status - " ++ exn_text rt e ++ nl.

Definition attempt_line (t : Z) : str :=
  u "**Last Attempt:** " ++ utc_stamp t ++ nl.

(** The body of the [except Exception as e] clause. *)
Definition report_error (e : exn) : M unit :=
  print (u "Error aggregating status: " ++ exn_text rt e) ;;
  open_board ;;
  write title ;;
  write (error_line e) ;;
  t <- now ;;
  write (attempt_line t).

Definition main (w : World) : World * ending :=
  match aggregate_status w with
  | (w1, Ok _) => (w1, Exited 0)
  | (w1, Raise e) =>
      match report_error e w1 with
      | (w2, Ok _) => (w2, Exited 1)
      | (w2, Raise e') => (w2, Uncaught e')
      end
  end.

End Script.

End Aggregator.

(** ** Vocabulary of the statements *)
Module Spec.
Import Py Aggregator.

Definition is_str (v : json) : bool :=
  match v with JStr _ => true | _ => false end.

(** The characters of a string value. *)
Definition text (v : json) : str :=
  match v with JStr s => s | _ => [] end.

(** *** Sorting *)

(** The rank the specification gives: the five known statuses in order,
    and 5 for a status that is unrecognized or missing. *)
Definition spec_rank (status : option json) : nat :=
  match status with
  | Some (JStr s) =>
      if str_eqb s (u "in_progress") then 0
      else if str_eqb s (u "blocked") then 1
      else if str_eqb s (u "waiting") then 2
      else if str_eqb s (u "idle") then 3
      else if str_eqb s (u "completed") then 4
      else 5
  | _ => 5
  end.

(** The rank the script gives: a record without a status is ranked as
    idle. *)
Definition rank_of (status : option json) : nat :=
  match status with
  | None => 3
  | Some _ => spec_rank status
  end.

Definition agent_id (d : dict) : json := get d (u "agentId") (JStr (u "unknown")).

Definition key_of (d : dict) : nat * str :=
  (rank_of (lookup (u "status") d), text (agent_id d)).

Definition spec_key_of (d : dict) : nat * str :=
  (spec_rank (lookup (u "status") d), text (agent_id d)).

(** Ascending order on the pairs (rank, id). *)
Definition key_leb (k1 k2 : nat * str) : bool :=
  Nat.ltb (fst k1) (fst k2)
  || (Nat.eqb (fst k1) (fst k2) && negb (str_ltb (snd k2) (snd k1))).

Definition key_eqb (k1 k2 : nat * str) : bool :=
  Nat.eqb (fst k1) (fst k2) && str_eqb (snd k1) (snd k2).

Definition ascending (key : dict -> nat * str) (l : list dict) : Prop :=
  StronglySorted (fun a b => key_leb (key a) (key b) = true) l.

(** A record the sort accepts without a type error: a status that can be
    hashed and an identifier that is a string, when they are there. *)
Definition sortable (d : dict) : bool :=
  match lookup (u "status") d with
  | Some (JArr _) | Some (JObj _) => false
  | _ => true
  end
  && is_str (agent_id d).

(** *** The order the sort leaves

    What [py_sort] returns when no comparison raises: the insertion of
    each element, from the right, in front of the first element that is
    not below it. *)

Section Order.
Variable A : Type.
Variable ltb : A -> A -> bool.

Fixpoint place (x : A) (l : list A) : list A :=
  match l with
  | [] => [x]
  | y :: l' => if ltb y x then y :: place x l' else x :: l
  end.

Fixpoint isort (l : list A) : list A :=
  match l with
  | [] => []
  | x :: l' => place x (isort l')
  end.

Definition not_above (x y : A) : Prop := ltb y x = false.

End Order.

(** The list the sort works on: each record under its key. *)
Definition keyed (d : dict) : (nat * json) * dict :=
  ((fst (key_of d), JStr (snd (key_of d))), d).

(** [<] on two keys, when it is defined. *)
Definition kltb (x y : (nat * json) * dict) : bool :=
  match key_lt (fst x) (fst y) with
  | Ok b => b
  | Raise _ => false
  end.

Definition str_keyed (x : (nat * json) * dict) : Prop :=
  is_str (snd (fst x)) = true.

(** What the sorter returns on records it accepts. *)
Definition sorted_agents (ds : list dict) : list dict :=
  map snd (isort kltb (map keyed ds)).

(** A string without a dot. *)
Definition no_dot (s : str) : Prop := Forall (fun c => c <> 46%N) s.

(** *** Clocks *)

(** The same world under another clock. *)
Definition re_clock (c : nat -> Z) (w : World) : World :=
  {| status_dir := status_dir w; board := board w;
     board_writable := board_writable w; console := console w;
     clock := c; ticks := ticks w; slot := slot w |}.

(** [c] shows what the clock of [w] shows, from the next reading of [w]
    up to reading [upto]. *)
Definition agree (w : World) (c : nat -> Z) (upto : nat) : Prop :=
  forall i, ticks w <= i < upto -> clock w i = c i.

(** A computation that leaves the clock and the permissions alone, only
    moves forward in the readings, and depends on the clock through the
    readings it takes. *)
Definition steady {A} (m : M A) : Prop :=
  forall w,
    board_writable (fst (m w)) = board_writable w
    /\ clock (fst (m w)) = clock w
    /\ ticks w <= ticks (fst (m w))
    /\ forall c, agree w c (ticks (fst (m w))) ->
                 m (re_clock c w) = (re_clock c (fst (m w)), snd (m w)).

(** The world while the board is being written: [n] clock readings made,
    [cs] written so far. *)
Definition st (w : World) (n : nat) (cs : list str) : World :=
  set_ticks n (set_board (Some cs) w).

(** *** Records of the data model *)

(** Every field that is present holds text: a string that UTF-8
    encodes. *)
Definition text_fields (d : dict) : bool :=
  forallb (fun kv => match snd kv with
                     | JStr s => encodable s
                     | _ => false
                     end) d.

(** A field as text, with its default. *)
Definition field (d : dict) (k dflt : str) : str := text (get d k (JStr dflt)).

(** *** Lanes *)

Definition lane_of (d : dict) : str := field d (u "lane") (u "unknown").

(** A record whose lane, when it has one, is a string. *)
Definition lane_named (d : dict) : bool :=
  is_str (get d (u "lane") (JStr (u "unknown"))).

(** The status the lane table counts: idle when the record has none. *)
Definition lane_status (d : dict) : json := get d (u "status") (JStr (u "idle")).

Definition counts_active (status : json) : bool :=
  py_eq status (JStr (u "in_progress")) || py_eq status (JStr (u "waiting")).
Definition counts_blocked (status : json) : bool :=
  py_eq status (JStr (u "blocked")).
Definition counts_idle (status : json) : bool :=
  negb (counts_active status) && negb (counts_blocked status).

(** The records of a lane whose status is of one kind. *)
Definition count_in (lane : str) (kind : json -> bool) (agents : list dict)
  : nat :=
  length (filter (fun d => str_eqb (lane_of d) lane && kind (lane_status d))
                 agents).

Definition lane_counts (lane : str) (agents : list dict) : lane_stats :=
  {| n_active := count_in lane counts_active agents;
     n_idle := count_in lane counts_idle agents;
     n_blocked := count_in lane counts_blocked agents |}.

Definition lane_size (lane : str) (agents : list dict) : nat :=
  length (filter (fun d => str_eqb (lane_of d) lane) agents).

(** The lane of a row of the lane table. *)
Definition lane_name (x : json * lane_stats) : str := text (fst x).

Definition mem (name : str) (names : list str) : bool :=
  existsb (str_eqb name) names.

(** The lanes in the order the loop of lines 163-174 meets them. *)
Fixpoint first_seen_from (seen : list str) (agents : list dict) : list str :=
  match agents with
  | [] => seen
  | d :: rest =>
      first_seen_from
        (if mem (lane_of d) seen then seen else seen ++ [lane_of d]) rest
  end.

Definition first_seen (agents : list dict) : list str :=
  first_seen_from [] agents.

(** A table whose keys are all strings. *)
Definition named (t : list (str * lane_stats)) : lane_table :=
  map (fun kv => (JStr (fst kv), snd kv)) t.

(** The table once the records [ps] have been counted. *)
Definition table_of (ps : list dict) : list (str * lane_stats) :=
  map (fun n => (n, lane_counts n ps)) (first_seen ps).

(** [<] on two items whose lanes are strings. *)
Definition item_ltb (x y : json * lane_stats) : bool :=
  str_ltb (text (fst x)) (text (fst y)).

(** The rows of the lane table, for records whose lanes are strings. *)
Definition sorted_lanes (agents : list dict) : list (json * lane_stats) :=
  isort item_ltb (named (table_of agents)).

(** *** The text of the board *)

Section Texts.
Variable rt : Runtime.

(** A span of microseconds without its sub-second remainder. *)
Definition whole_seconds (us : Z) : Z := (us - us mod us_per_second)%Z.

(** What [started] parses to, when it is a non-empty string that parses. *)
Definition started_at (d : dict) : option datetime :=
  match lookup (u "started") d with
  | Some (JStr (c :: s)) =>
      fromisoformat rt (replace (u "Z") (u "+00:00") (c :: s))
  | _ => None
  end.

(** Whether rendering the row of [d] reads the clock. *)
Definition reads_clock (d : dict) : bool :=
  match started_at d with Some _ => true | None => false end.

(** The duration cell of a row rendered when the clock shows [t]. *)
Definition duration_text (t : Z) (d : dict) : str :=
  match started_at d with
  | Some (Aware t0) => td_str (whole_seconds (t - t0))
  | _ => placeholder
  end.

Definition marker (d : dict) : str :=
  match table_get status_emoji_table
                  (get d (u "status") (JStr (u "idle"))) [10067%N] with
  | Ok m => m
  | Raise _ => []
  end.

Definition active_text (t : Z) (d : dict) : str :=
  u "| " ++ field d (u "agentId") (u "unknown")
  ++ u " | " ++ marker d ++ u " " ++ field d (u "status") (u "unknown")
  ++ u " | " ++ firstn 30 (field d (u "task") placeholder)
  ++ u " | `" ++ firstn 20 (field d (u "branch") placeholder)
  ++ u "` | " ++ firstn 16 (field d (u "started") placeholder)
  ++ u " | " ++ duration_text t d ++ u " |" ++ nl.

Definition blocked_text (d : dict) : str :=
  u "| " ++ field d (u "agentId") (u "unknown")
  ++ u " | " ++ field d (u "blockedBy") placeholder
  ++ u " | " ++ firstn 40 (field d (u "reason") placeholder)
  ++ u " | " ++ field d (u "blockedDuration") placeholder
  ++ u " |" ++ nl.

Definition idle_text (d : dict) : str :=
  u "| " ++ field d (u "agentId") (u "unknown")
  ++ u " | " ++ firstn 16 (field d (u "lastUpdate") placeholder)
  ++ u " | " ++ field d (u "readyFor") (u "Any task")
  ++ u " |" ++ nl.

Definition completed_text (d : dict) : str :=
  u "| " ++ field d (u "agentId") (u "unknown")
  ++ u " | " ++ firstn 30 (field d (u "task") placeholder)
  ++ u " | " ++ firstn 16 (field d (u "completed") placeholder)
  ++ u " | " ++ field d (u "duration") placeholder
  ++ u " |" ++ nl.

Definition lane_text (item : json * lane_stats) : str :=
  u "| " ++ fmt rt (fst item)
  ++ u " | " ++ str_of_nat (n_active (snd item))
  ++ u " | " ++ str_of_nat (n_blocked (snd item))
  ++ u " | " ++ str_of_nat (n_idle (snd item))
  ++ u " | " ++ str_of_nat (lane_total (snd item)) ++ u " |" ++ nl.

(** The rows of the Active Work table: each row that reads the clock takes
    the next reading. *)
Fixpoint active_texts (clock : nat -> Z) (tick : nat) (l : list dict)
  : list str :=
  match l with
  | [] => []
  | d :: l' =>
      active_text (clock tick) d
      :: active_texts clock (if reads_clock d then S tick else tick) l'
  end.

Definition clock_reads (l : list dict) : nat := length (filter reads_clock l).

(** A table is left out when it has no rows. *)
Definition table (heading rows : list str) : list str :=
  match rows with
  | [] => []
  | _ :: _ => heading ++ rows
  end.

(** The rows of the lane table. *)
Definition lane_rows (agents : list dict) : list (json * lane_stats) :=
  match (let? lanes := tally_all [] agents in py_sort item_lt lanes) with
  | Ok rows => rows
  | Raise _ => []
  end.

Definition completions_table (agents : list dict) : list str :=
  table completed_heading
        (map completed_text (firstn 5 (completed_of agents))).

Definition statistics_of (agents : list dict) : list str :=
  statistics_chunks (active_of agents) (blocked_of agents)
                    (idle_of agents) (completed_of agents).

(** The board of a run that reads the clock for the first time at [tick]. *)
Definition board_chunks (clock : nat -> Z) (tick : nat) (agents : list dict)
  : list str :=
  [title; updated_line rt (clock tick); total_line agents]
  ++ table active_heading (active_texts clock (S tick) (active_of agents))
  ++ table blocked_heading (map blocked_text (blocked_of agents))
  ++ table idle_heading (map idle_text (idle_of agents))
  ++ completions_table agents
  ++ statistics_of agents
  ++ table lane_heading (map lane_text (lane_rows agents)).

(** **** Loading *)

(** What [open] and [json.load] do on the file called [name]. *)
Definition read_of (entries : list (str * file)) (name : str) : result json :=
  match find_file name entries with
  | Some (Loads v) => Ok v
  | Some (Fails e) => Raise e
  | None => Raise (OSError (path_of name))
  end.

(** What loading the files [names] comes to: the warnings printed, and the
    values kept or the exception that escapes. *)
Fixpoint load_outcome (entries : list (str * file)) (names : list str)
  : list str * result (list json) :=
  match names with
  | [] => ([], Ok [])
  | name :: rest =>
      match read_of entries name with
      | Ok v =>
          (fst (load_outcome entries rest),
           let? agents := snd (load_outcome entries rest) in
           Ok (if truthy v then v :: agents else agents))
      | Raise e =>
          if caught_by_loader e
          then (warning rt name e :: fst (load_outcome entries rest),
                snd (load_outcome entries rest))
          else ([], Raise e)
      end
  end.

(** The record files of a directory, in listing order. *)
Definition record_files (entries : list (str * file)) : list str :=
  filter is_json_name (map fst entries).

(** A file the loader and the renderer cope with: it fails with one of the
    two classes the loader catches, or holds a falsy value, or holds a
    record of the data model, every field of which is text. *)
Definition tolerated (r : result json) : bool :=
  match r with
  | Ok v =>
      negb (truthy v)
      || match v with JObj d => text_fields d | _ => false end
  | Raise e => caught_by_loader e
  end.

(** The records such files contribute. *)
Definition records_of (entries : list (str * file)) (names : list str)
  : list dict :=
  flat_map (fun name =>
              match read_of entries name with
              | Ok (JObj d) => if truthy (JObj d) then [d] else []
              | _ => []
              end) names.

(** The lines of the summary (lines 186-189). *)
Definition summary_lines (agents : list dict) : list str :=
  [ u "[SUCCESS] Status board updated: AGENT-STATUS.md";
    u "   - " ++ str_of_nat (length (active_of agents)) ++ u " active agents";
    u "   - " ++ str_of_nat (length (blocked_of agents)) ++ u " blocked agents";
    u "   - " ++ str_of_nat (length (idle_of agents)) ++ u " idle agents" ].

(** The board of a run that found no record and wrote the placeholder
    [system], the clock showing [t] at the header: the count, the idle
    table with its one row, the statistics and the lane table. *)
Definition placeholder_board (t : Z) (system : dict) : list str :=
  [title; updated_line rt t; total_line [system]]
  ++ idle_heading ++ [idle_text system]
  ++ statistics_chunks [] [] [system] []
  ++ lane_heading
  ++ [lane_text (JStr (u "unknown"),
                 {| n_active := 0; n_idle := 1; n_blocked := 0 |})].

(** The world once a missing directory has been made. *)
Definition bootstrapped (w : World) : World :=
  {| status_dir :=
       Some [(system_name,
              Loads (JObj (system_status_at rt (clock w (ticks w)))))];
     board := board w;
     board_writable := board_writable w;
     console := console w ++ [u "Creating agent-status directory...";
                              u "Created " ++ path_of system_name];
     clock := clock w;
     ticks := S (ticks w);
     slot := slot w |}.

(** The world once a directory without record files has received the
    placeholder. *)
Definition seeded (entries : list (str * file)) (w : World) : World :=
  {| status_dir :=
       Some (insert_at (slot w)
               (system_name,
                Loads (JObj (system_status_at rt (clock w (ticks w)))))
               entries);
     board := board w;
     board_writable := board_writable w;
     console :=
       console w
       ++ [u "No agent status files found, creating empty status board"];
     clock := clock w;
     ticks := S (ticks w);
     slot := slot w |}.

(** The document written in place of the board when the run fails. *)
Definition error_document (e : exn) (t : Z) : list str :=
  [title; error_line rt e; attempt_line rt t].

End Texts.

(** *** The run as a whole *)

Section Phases.
Variable rt : Runtime.

(** Lines 35-76: the directory is looked at, the files are loaded and the
    records sorted. *)
Definition prepare : M (list dict) :=
  bind (ensure_status_dir rt)
       (fun _ => bind (load_agents rt)
                      (fun loaded => lift (sort_agents loaded))).

(** Lines 79-189: the board is written and the summary printed. *)
Definition publish (agents : list dict) : M unit :=
  bind (render rt agents) (fun _ => summary agents).

End Phases.

(** A computation that neither reads nor writes the board. *)
Definition board_free {A} (m : M A) : Prop :=
  forall b w, m (set_board b w) = (set_board b (fst (m w)), snd (m w)).

(** A computation that only appends to the board: the directory and the
    console stay as they are. *)
Definition writer {A} (m : M A) : Prop :=
  forall w,
    status_dir (fst (m w)) = status_dir w
    /\ console (fst (m w)) = console w
    /\ forall cs, board w = Some cs ->
                  exists more, board (fst (m w)) = Some (cs ++ more).

(** The entries of a directory that [glob('*.json')] lists. *)
Definition records_only (entries : list (str * file)) : list (str * file) :=
  filter (fun kv => is_json_name (fst kv)) entries.

(** The same world without the other entries of the directory. *)
Definition only_records (w : World) : World :=
  set_status_dir (option_map records_only (status_dir w)) w.

(** A computation that does not depend on those other entries and leaves
    them alone. *)
Definition record_blind {A} (m : M A) : Prop :=
  forall w, m (only_records w) = (only_records (fst (m w)), snd (m w)).

(** *** Values a row accepts *)

(** A value that [v[:n]] accepts: a string or a list. *)
Definition sliceable (v : json) : bool :=
  match v with
  | JStr _ | JArr _ => true
  | _ => false
  end.

(** [v[:n]], and [v] itself where the slice is not defined. *)
Definition cut (n : nat) (v : json) : json :=
  match slice n v with
  | Ok x => x
  | Raise _ => v
  end.

(** The values the row of a record shows, cut as the row cuts them. *)
Definition active_cells (d : dict) : list json :=
  [ get d (u "agentId") (JStr (u "unknown"));
    get d (u "status") (JStr (u "unknown"));
    cut 30 (get d (u "task") (JStr placeholder));
    cut 20 (get d (u "branch") (JStr placeholder));
    cut 16 (get d (u "started") (JStr placeholder)) ].

Definition blocked_cells (d : dict) : list json :=
  [ get d (u "agentId") (JStr (u "unknown"));
    get d (u "blockedBy") (JStr placeholder);
    cut 40 (get d (u "reason") (JStr placeholder));
    get d (u "blockedDuration") (JStr placeholder) ].

Definition idle_cells (d : dict) : list json :=
  [ get d (u "agentId") (JStr (u "unknown"));
    cut 16 (get d (u "lastUpdate") (JStr placeholder));
    get d (u "readyFor") (JStr (u "Any task")) ].

Definition completed_cells (d : dict) : list json :=
  [ get d (u "agentId") (JStr (u "unknown"));
    cut 30 (get d (u "task") (JStr placeholder));
    cut 16 (get d (u "completed") (JStr placeholder));
    get d (u "duration") (JStr placeholder) ].

(** The exceptions that are a [TypeError]. *)
Definition is_type_error (e : exn) : bool :=
  match e with
  | Unhashable _ | NotOrderable _ _ | NotSubscriptable _ => true
  | _ => false
  end.

End Spec.

(** ** Worked examples *)
Module Examples.
Import Py Aggregator Spec.

(** A record of the data model. *)
Definition record (fields : list (string * string)) : dict :=
  map (fun kv => (u (fst kv), JStr (u (snd kv)))) fields.

(** A clock that shows 2023-11-14T22:13:20Z and then advances by a second
    and a half at every reading, and one that stands still. *)
Definition ticking (n : nat) : Z := (1700000000000000 + Z.of_nat n * 1500000)%Z.
Definition frozen (n : nat) : Z := 1700000000000000%Z.

(** A world before the first run of the day, in which a new file is
    listed first. *)
Definition world (dir : option (list (str * file))) (writable : bool)
           (clock : nat -> Z) : World :=
  {| status_dir := dir; board := None; board_writable := writable;
     console := []; clock := clock; ticks := 0; slot := 0 |}.

Definition completed_a : dict :=
  record [("agentId", "a"); ("status", "completed")]%string.
Definition no_status_b : dict := record [("agentId", "b")]%string.
Definition blocked_z : dict :=
  record [("agentId", "z"); ("status", "blocked")]%string.
Definition blocked_z_again : dict :=
  record [("agentId", "z"); ("status", "blocked"); ("task", "second")]%string.

(** A valid record next to a file that is not UTF-8 text (a UTF-16 file
    starts with the byte 0xff): [json.load] raises [UnicodeDecodeError] on
    it. *)
Definition working_c : dict :=
  record [("agentId", "c"); ("status", "in_progress"); ("lane", "x")]%string.

Definition undecodable : exn :=
  UnicodeDecodeError
    (u "'utf-8' codec can't decode byte 0xff in position 0: invalid start byte").

Definition dir_with_undecodable : list (str * file) :=
  [ (u "c.json", Loads (JObj working_c)); (u "utf16.json", Fails undecodable) ].

(** The same directory with a file that is not JSON instead. *)
Definition malformed : exn :=
  JSONDecodeError (u "Expecting value: line 1 column 1 (char 0)").

Definition dir_with_malformed : list (str * file) :=
  [ (u "c.json", Loads (JObj working_c)); (u "torn.json", Fails malformed) ].

(** Two records in lane x, one waiting and one blocked. *)
Definition waiting_in_x : dict :=
  record [("agentId", "w"); ("status", "waiting"); ("lane", "x")]%string.
Definition blocked_in_x : dict :=
  record [("agentId", "b"); ("status", "blocked"); ("lane", "x")]%string.

(** Seven completed records and one at work, in sorted order. *)
Definition seven_completed : list dict :=
  map (fun id => record [("agentId", id); ("status", "completed");
                         ("task", "done")]%string)
      ["a"; "b"; "c"; "d"; "e"; "f"; "g"]%string.

(** A record at work since 22:13:20 UTC, with a task of fifty characters,
    and the same record with the offset of its start left out. *)
Definition long_task : dict :=
  record [("agentId", "t"); ("status", "in_progress");
          ("task", "01234567890123456789012345678901234567890123456789");
          ("started", "2023-11-14T22:13:20Z")]%string.
Definition naive_start : dict :=
  record [("agentId", "n"); ("status", "in_progress");
          ("started", "2023-11-14T22:13:20")]%string.

(** A clock that shows 22:14:50 UTC, ninety seconds later. *)
Definition ninety_later (n : nat) : Z := (1700000000000000 + 90000000)%Z.

(** A directory with that record, and a clock that agrees with the frozen
    one at the first reading and is five seconds ahead from the second. *)
Definition dir_at_work : list (str * file) :=
  [ (u "t.json", Loads (JObj long_task)) ].

Definition jumping (n : nat) : Z :=
  match n with
  | O => frozen 0
  | S _ => (frozen 0 + 5000000)%Z
  end.

(** A directory where one file holds the empty object and one holds a
    string. *)
Definition dir_with_empty_object : list (str * file) :=
  [ (u "c.json", Loads (JObj working_c)); (u "empty.json", Loads (JObj [])) ].

Definition dir_with_string : list (str * file) :=
  [ (u "c.json", Loads (JObj working_c));
    (u "note.json", Loads (JStr (u "hello"))) ].

(** A directory where a file holds an array of strings, and one that
    holds no record file at all. *)
Definition dir_with_array : list (str * file) :=
  [ (u "list.json", Loads (JArr [JStr (u "a"); JStr (u "b")])) ].

Definition dir_without_records : list (str * file) :=
  [ (u "README.md", Fails (JSONDecodeError (u "Expecting value"))) ].

(** A record whose lane is a number, and one whose task is a number. *)
Definition lane_three : dict :=
  [ (u "agentId", JStr (u "n")); (u "lane", JInt 3) ].

Definition task_42 : dict :=
  [ (u "agentId", JStr (u "q")); (u "status", JStr (u "in_progress"));
    (u "task", JInt 42) ].

(** A record whose start lies ten seconds ahead of the frozen clock. *)
Definition early_bird : dict :=
  record [("agentId", "e"); ("status", "in_progress");
          ("started", "2023-11-14T22:13:30Z")]%string.

(** A record whose identifier is a surrogate on its own, as [json.load]
    returns it for ["\ud800"]; the directory that holds it; and a record
    whose lane is one. *)
Definition lone_surrogate : dict :=
  [ (u "agentId", JStr [55296%N]); (u "status", JStr (u "idle")) ].

Definition dir_with_surrogate : list (str * file) :=
  [ (u "s.json", Loads (JObj lone_surrogate)) ].

Definition surrogate_lane : dict :=
  [ (u "agentId", JStr (u "a")); (u "lane", JStr [55296%N]) ].

(** A record whose status is none of the five. *)
Definition paused_p : dict :=
  record [("agentId", "p"); ("status", "paused")]%string.

End Examples.

(** ** Text that UTF-8 encodes

    What the script writes besides the fields of the records: literals,
    numbers, durations and timestamps. *)
Module Utf8.
Import Py.

Lemma encodable_app (a b : str) :
  encodable a = true -> encodable b = true -> encodable (a ++ b) = true.
Proof.
  intros A B. unfold encodable. rewrite forallb_app.
  apply andb_true_intro. split; assumption.
Qed.

Lemma encodable_app_eq (a b : str) :
  encodable (a ++ b) = encodable a && encodable b.
Proof. apply forallb_app. Qed.

Lemma encodable_app_inv (a b : str) :
  encodable (a ++ b) = true -> encodable a = true /\ encodable b = true.
Proof. unfold encodable. rewrite forallb_app. apply andb_true_iff. Qed.

Lemma below_surrogates (c : char) : (c < 55296)%N -> is_surrogate c = false.
Proof.
  intros H. unfold is_surrogate. apply andb_false_intro1.
  apply N.leb_gt. exact H.
Qed.

Lemma encodable_cons (c : char) (s : str) :
  (c < 55296)%N -> encodable s = true -> encodable (c :: s) = true.
Proof.
  intros C S. unfold encodable. cbn [forallb].
  rewrite (below_surrogates C). exact S.
Qed.

(** A literal of the source written in ASCII. *)
Lemma encodable_u (s : string) : encodable (u s) = true.
Proof.
  unfold u. induction s as [|a s IH]; [reflexivity|].
  cbn [list_ascii_of_string map]. apply encodable_cons; [|exact IH].
  pose proof (N_ascii_bounded a). lia.
Qed.

Lemma encodable_firstn (n : nat) (s : str) :
  encodable s = true -> encodable (firstn n s) = true.
Proof.
  revert s. induction n as [|n IH]; intros [|c s] H; try reflexivity.
  unfold encodable in *. cbn [firstn forallb] in *.
  apply andb_true_iff in H as [C S]. rewrite C. apply IH. exact S.
Qed.

Lemma encodable_repeat (c : char) (n : nat) :
  (c < 55296)%N -> encodable (repeat c n) = true.
Proof.
  intros C. induction n as [|n IH]; [reflexivity|].
  apply encodable_cons; assumption.
Qed.

Lemma encodable_dec_uint (d : Decimal.uint) : encodable (dec_uint d) = true.
Proof. induction d; [reflexivity | exact IHd ..]. Qed.

Lemma encodable_str_of_nat (n : nat) : encodable (str_of_nat n) = true.
Proof. apply encodable_dec_uint. Qed.

Lemma encodable_str_of_Z (z : Z) : encodable (str_of_Z z) = true.
Proof. destruct z; [reflexivity | apply encodable_dec_uint ..]. Qed.

Lemma encodable_zero_pad (w : nat) (z : Z) : encodable (zero_pad w z) = true.
Proof.
  unfold zero_pad. apply encodable_app.
  - apply encodable_repeat. reflexivity.
  - apply encodable_str_of_Z.
Qed.

Lemma encodable_replace_scan (old new s : str) (skip : nat) :
  encodable new = true -> encodable s = true ->
  encodable (replace_scan old new skip s) = true.
Proof.
  intros N. revert skip. induction s as [|c s IH]; intros skip S;
    [reflexivity|].
  unfold encodable in S. cbn [forallb] in S.
  apply andb_true_iff in S as [C S].
  cbn [replace_scan]. destruct skip as [|k]; [|apply IH; exact S].
  destruct (prefixb old (c :: s)).
  - apply encodable_app; [exact N | apply IH; exact S].
  - unfold encodable. cbn [forallb]. rewrite C. apply IH. exact S.
Qed.

Lemma encodable_replace (old new s : str) :
  encodable new = true -> encodable s = true ->
  encodable (replace old new s) = true.
Proof.
  intros N S. destruct old as [|o old].
  - cbn [replace]. apply encodable_app; [exact N|].
    induction s as [|c s IH]; [reflexivity|].
    unfold encodable in S. cbn [forallb] in S.
    apply andb_true_iff in S as [C S].
    cbn [flat_map]. unfold encodable at 1. cbn [app forallb]. rewrite C.
    apply encodable_app; [exact N | apply IH; exact S].
  - apply encodable_replace_scan; assumption.
Qed.

Lemma encodable_before_dot (s : str) :
  encodable s = true -> encodable (before_dot s) = true.
Proof.
  induction s as [|c s IH]; intros S; [reflexivity|].
  unfold encodable in S. cbn [forallb] in S.
  apply andb_true_iff in S as [C S].
  cbn [before_dot]. destruct (N.eqb c 46); [reflexivity|].
  unfold encodable. cbn [forallb]. rewrite C. apply IH. exact S.
Qed.

Create HintDb utf8.
#[export] Hint Resolve encodable_app encodable_u encodable_firstn
  encodable_str_of_nat encodable_str_of_Z encodable_zero_pad
  encodable_replace encodable_before_dot : utf8.

Lemma encodable_hms (seconds : Z) : encodable (hms seconds) = true.
Proof. unfold hms. cbv zeta. auto 10 with utf8. Qed.

Lemma encodable_with_days (days : Z) (s : str) :
  encodable s = true -> encodable (with_days days s) = true.
Proof.
  intros S. unfold with_days. destruct (Z.eqb days 0); [exact S|].
  destruct (Z.eqb (Z.abs days) 1); auto 10 with utf8.
Qed.

Lemma encodable_td_str (us : Z) : encodable (td_str us) = true.
Proof.
  unfold td_str. cbv zeta.
  pose proof (@encodable_with_days (us / us_per_day) _
                (encodable_hms (us mod us_per_day / us_per_second))) as D.
  destruct (Z.eqb _ 0); auto 10 with utf8.
Qed.

#[export] Hint Resolve encodable_hms encodable_with_days encodable_td_str
  : utf8.

(** The writes that raise are those of a text with a surrogate. *)
Lemma encode_error_encodable (s : str) (i : nat) :
  encodable s = true -> encode_error i s = None.
Proof.
  revert i. induction s as [|c s IH]; intros i S; [reflexivity|].
  unfold encodable in S. cbn [forallb] in S.
  apply andb_true_iff in S as [C S]. apply negb_true_iff in C.
  cbn [encode_error]. rewrite C. apply IH. exact S.
Qed.

Lemma encode_error_surrogate (s : str) (i : nat) :
  encodable s = false ->
  exists c start stop, encode_error i s = Some (UnicodeEncodeError c start stop).
Proof.
  revert i. induction s as [|c s IH]; intros i S; [discriminate|].
  cbn [encode_error]. destruct (is_surrogate c) eqn:C.
  - eexists _, _, _. reflexivity.
  - apply IH. unfold encodable in S. cbn [forallb] in S.
    rewrite C in S. exact S.
Qed.

End Utf8.

(** ** A runtime for the worked examples

  The theorems below hold for every [Runtime]; the examples run on this
  one.  It prints and reads the timestamp layout
  [YYYY-MM-DDTHH:MM:SS[.ffffff][+HH:MM]], which every Python version
  shares, and refuses any other text: what else [fromisoformat] reads
  depends on the version, and the examples keep to this layout.  Its
  messages are those of Python 3.11. *)
Module Sample.
Import Py Utf8.
Local Open Scope Z_scope.

(** Days since 1970-01-01 of a proleptic Gregorian date. *)
Definition days_from_civil (y m d : Z) : Z :=
  let y := if m <=? 2 then y - 1 else y in
  let era := y / 400 in
  let yoe := y - era * 400 in
  let doy := (153 * (if 2 <? m then m - 3 else m + 9) + 2) / 5 + d - 1 in
  let doe := yoe * 365 + yoe / 4 - yoe / 100 + doy in
  era * 146097 + doe - 719468.

Definition civil_from_days (z : Z) : Z * Z * Z :=
  let z := z + 719468 in
  let era := z / 146097 in
  let doe := z - era * 146097 in
  let yoe := (doe - doe / 1460 + doe / 36524 - doe / 146096) / 365 in
  let doy := doe - (365 * yoe + yoe / 4 - yoe / 100) in
  let mp := (5 * doy + 2) / 153 in
  let d := doy - (153 * mp + 2) / 5 + 1 in
  let m := if mp <? 10 then mp + 3 else mp - 9 in
  let y := yoe + era * 400 in
  ((if m <=? 2 then y + 1 else y), m, d).

Definition sample_isoformat (us : Z) : str :=
  let '(y, m, d) := civil_from_days (us / us_per_day) in
  let rest := us mod us_per_day in
  let secs := rest / us_per_second in
  let micros := rest mod us_per_second in
  zero_pad 4 y ++ u "-" ++ zero_pad 2 m ++ u "-" ++ zero_pad 2 d ++ u "T"
  ++ zero_pad 2 (secs / 3600) ++ u ":" ++ zero_pad 2 (secs / 60 mod 60)
  ++ u ":" ++ zero_pad 2 (secs mod 60)
  ++ (if micros =? 0 then [] else u "." ++ zero_pad 6 micros)
  ++ u "+00:00".

Definition digit (c : char) : option Z :=
  if (N.leb 48 c && N.leb c 57)%bool then Some (Z.of_N c - 48) else None.

(** The number written by the first [n] characters, and what follows. *)
Fixpoint number (n : nat) (acc : Z) (s : str) : option (Z * str) :=
  match n with
  | O => Some (acc, s)
  | S k =>
      match s with
      | c :: s' =>
          match digit c with
          | Some v => number k (acc * 10 + v) s'
          | None => None
          end
      | [] => None
      end
  end.

Definition expect (c : N) (s : str) : option str :=
  match s with
  | x :: s' => if N.eqb x c then Some s' else None
  | [] => None
  end.

Definition obind {A B} (o : option A) (k : A -> option B) : option B :=
  match o with Some a => k a | None => None end.

Definition days_in_month (y m : Z) : Z :=
  if m =? 2 then
    (if ((y mod 4 =? 0) && (negb (y mod 100 =? 0) || (y mod 400 =? 0)))%bool
     then 29 else 28)
  else if ((m =? 4) || (m =? 6) || (m =? 9) || (m =? 11))%bool then 30
  else 31.

(** The offset in microseconds, when the text ends in [+HH:MM] or
    [-HH:MM]; nothing left means a naive reading. *)
Definition offset (s : str) : option (option Z) :=
  match s with
  | [] => Some None
  | sign :: s' =>
      if (N.eqb sign 43 || N.eqb sign 45)%bool then
        obind (number 2 0 s') (fun '(hh, s1) =>
        obind (expect 58 s1) (fun s2 =>
        obind (number 2 0 s2) (fun '(mm, s3) =>
        match s3 with
        | [] =>
            if ((hh <? 24) && (mm <? 60))%bool then
              Some (Some ((if N.eqb sign 43 then 1 else -1)
                          * (hh * 3600 + mm * 60) * us_per_second))
            else None
        | _ :: _ => None
        end)))
      else None
  end.

Definition fraction (s : str) : option (Z * str) :=
  match s with
  | 46%N :: s' => number 6 0 s'
  | _ => Some (0, s)
  end.

Definition sample_fromisoformat (s : str) : option datetime :=
  obind (number 4 0 s) (fun '(y, s) =>
  obind (expect 45 s) (fun s =>
  obind (number 2 0 s) (fun '(m, s) =>
  obind (expect 45 s) (fun s =>
  obind (number 2 0 s) (fun '(d, s) =>
  obind (expect 84 s) (fun s =>
  obind (number 2 0 s) (fun '(hh, s) =>
  obind (expect 58 s) (fun s =>
  obind (number 2 0 s) (fun '(mi, s) =>
  obind (expect 58 s) (fun s =>
  obind (number 2 0 s) (fun '(ss, s) =>
  obind (fraction s) (fun '(us, s) =>
  obind (offset s) (fun off =>
  if ((1 <=? y) && (1 <=? m) && (m <=? 12) && (1 <=? d)
      && (d <=? days_in_month y m) && (hh <? 24) && (mi <? 60) && (ss <? 60))%bool
  then
    let wall := days_from_civil y m d * us_per_day
                + (hh * 3600 + mi * 60 + ss) * us_per_second + us in
    Some (match off with
          | Some o => Aware (wall - o)
          | None => Naive wall
          end)
  else None))))))))))))).

Definition type_name (t : pytype) : str :=
  match t with
  | TNone => u "NoneType"
  | TBool => u "bool"
  | TInt => u "int"
  | TFloat => u "float"
  | TStr => u "str"
  | TList => u "list"
  | TDict => u "dict"
  end.

Definition quoted (s : str) : str := [39%N] ++ s ++ [39%N].

Definition hex_digit (n : N) : char :=
  if N.ltb n 10 then (48 + n)%N else (87 + n)%N.

Definition hex4 (c : char) : str :=
  [ hex_digit (c / 4096 mod 16)%N; hex_digit (c / 256 mod 16)%N;
    hex_digit (c / 16 mod 16)%N; hex_digit (c mod 16)%N ].

(** A text as a message shows it: a surrogate is written [\udXXX]. *)
Definition escaped (s : str) : str :=
  flat_map (fun c => if is_surrogate c then [92%N; 117%N] ++ hex4 c else [c]) s.

(** [str(e)].  The parser's and the decoder's messages are carried by the
    exception; an [OSError] carries the path, and the reason the system
    gives is taken to be a refused access. *)
Definition sample_exn_text (e : exn) : str :=
  match e with
  | JSONDecodeError detail => escaped detail
  | OSError path =>
      u "[Errno 13] Permission denied: " ++ quoted (escaped path)
  | UnicodeDecodeError detail => escaped detail
  | UnicodeEncodeError c start stop =>
      u "'utf-8' codec can't encode character"
      ++ (if Nat.eqb stop (S start)
          then u " " ++ quoted (escaped [c]) ++ u " in position "
               ++ str_of_nat start
          else u "s in position " ++ str_of_nat start ++ u "-"
               ++ str_of_nat (stop - 1))
      ++ u ": surrogates not allowed"
  | RecursionError => u "maximum recursion depth exceeded"
  | AttributeError t attr =>
      quoted (type_name t) ++ u " object has no attribute "
      ++ quoted (escaped attr)
  | Unhashable t => u "unhashable type: " ++ quoted (type_name t)
  | NotOrderable a b =>
      quoted (u "<") ++ u " not supported between instances of "
      ++ quoted (type_name a) ++ u " and " ++ quoted (type_name b)
  | NotSubscriptable TDict => u "unhashable type: " ++ quoted (u "slice")
  | NotSubscriptable t =>
      quoted (type_name t) ++ u " object is not subscriptable"
  end.

(** Values that are not strings are shown by their type only. *)
Definition sample_repr (v : json) : str := u "<" ++ type_name (type_of v) ++ u ">".

(** The messages and the timestamps of this runtime are text that UTF-8
    encodes. *)
Lemma encodable_escaped (s : str) : encodable (escaped s) = true.
Proof.
  assert (forall n, (n < 16)%N -> (hex_digit n < 55296)%N) as H.
  { intros n B. unfold hex_digit. destruct (N.ltb n 10); lia. }
  assert (forall n, (hex_digit (n mod 16) < 55296)%N) as M
      by (intros n; apply H; apply N.mod_upper_bound; discriminate).
  induction s as [|c s IH]; [reflexivity|].
  cbn [escaped flat_map]. fold (escaped s).
  apply Utf8.encodable_app; [|exact IH].
  destruct (is_surrogate c) eqn:C.
  - unfold hex4. cbn [app].
    repeat (apply Utf8.encodable_cons; [first [apply M | reflexivity]|]).
    reflexivity.
  - unfold encodable. cbn [forallb]. rewrite C. reflexivity.
Qed.

Lemma encodable_quoted (s : str) :
  encodable s = true -> encodable (quoted s) = true.
Proof.
  intros S. unfold quoted. apply Utf8.encodable_app; [reflexivity|].
  apply Utf8.encodable_app; [exact S | reflexivity].
Qed.

Lemma encodable_type_name (t : pytype) : encodable (type_name t) = true.
Proof. destruct t; reflexivity. Qed.

Lemma sample_exn_text_encodable (e : exn) :
  encodable (sample_exn_text e) = true.
Proof.
  pose proof encodable_escaped. pose proof encodable_quoted.
  pose proof encodable_type_name.
  destruct e as [d|d|d|c start stop| |t a|t|a b|t];
    try destruct t; cbn [sample_exn_text]; auto 12 with utf8.
  destruct (Nat.eqb stop (S start)); auto 12 with utf8.
Qed.

Lemma sample_isoformat_encodable (us : Z) :
  encodable (sample_isoformat us) = true.
Proof.
  unfold sample_isoformat.
  destruct (civil_from_days (us / us_per_day)) as [[y m] d].
  destruct (_ =? 0); auto 20 with utf8.
Qed.

Definition runtime : Runtime :=
  {| py_repr := sample_repr;
     exn_text := sample_exn_text;
     isoformat := sample_isoformat;
     fromisoformat := sample_fromisoformat;
     exn_text_encodable := sample_exn_text_encodable;
     isoformat_encodable := sample_isoformat_encodable |}.

End Sample.

(** * Properties *)

(** ** Strings *)
Module StrFacts.
Import Py.

Lemma str_eqb_eq (a b : str) : str_eqb a b = true <-> a = b.
Proof.
  revert b; induction a as [|x a IH]; intros [|y b]; simpl; split;
    try congruence; try reflexivity.
  - intros H. apply andb_true_iff in H as [H1 H2].
    apply N.eqb_eq in H1. apply IH in H2. congruence.
  - intros H. injection H as -> ->.
    rewrite N.eqb_refl. simpl. apply IH. reflexivity.
Qed.

Lemma str_eqb_refl (a : str) : str_eqb a a = true.
Proof. apply str_eqb_eq. reflexivity. Qed.

Lemma str_eqb_neq (a b : str) : str_eqb a b = false <-> a <> b.
Proof.
  split.
  - intros H E. apply str_eqb_eq in E. congruence.
  - intros H. destruct (str_eqb a b) eqn:E; [|reflexivity].
    apply str_eqb_eq in E. contradiction.
Qed.

Lemma str_ltb_irrefl (a : str) : str_ltb a a = false.
Proof.
  induction a as [|x a IH]; simpl; [reflexivity|].
  rewrite N.ltb_irrefl. exact IH.
Qed.

Lemma str_ltb_trans (a b c : str) :
  str_ltb a b = true -> str_ltb b c = true -> str_ltb a c = true.
Proof.
  revert b c; induction a as [|x a IH]; intros [|y b] [|z c]; simpl;
    try congruence.
  destruct (N.ltb_spec x y), (N.ltb_spec y x), (N.ltb_spec y z),
    (N.ltb_spec z y), (N.ltb_spec x z), (N.ltb_spec z x);
    try congruence; try lia.
  apply IH.
Qed.

(** Two strings none of which is below the other are the same string. *)
Lemma str_ltb_total (a b : str) :
  str_ltb a b = false -> str_ltb b a = false -> a = b.
Proof.
  revert b; induction a as [|x a IH]; intros [|y b]; simpl;
    try congruence.
  destruct (N.ltb_spec x y), (N.ltb_spec y x); try congruence; try lia.
  intros H1 H2. assert (x = y) by lia. subst. f_equal. apply IH; assumption.
Qed.

Lemma str_ltb_asym (a b : str) : str_ltb a b = true -> str_ltb b a = false.
Proof.
  intros H. destruct (str_ltb b a) eqn:E; [|reflexivity].
  pose proof (str_ltb_trans _ _ _ H E) as F.
  rewrite str_ltb_irrefl in F. discriminate.
Qed.

End StrFacts.

(** ** Durations *)
Module TimeFacts.
Import Py Spec.

Lemma before_dot_no_dot (s : str) : no_dot s -> before_dot s = s.
Proof.
  induction 1 as [|c s H _ IH]; [reflexivity|].
  simpl. apply N.eqb_neq in H. rewrite H, IH. reflexivity.
Qed.

Lemma before_dot_cut (a b : str) :
  no_dot a -> before_dot (a ++ 46%N :: b) = a.
Proof.
  induction 1 as [|c s H _ IH]; [reflexivity|].
  simpl. apply N.eqb_neq in H. rewrite H, IH. reflexivity.
Qed.

Lemma dec_uint_no_dot (d : Decimal.uint) : no_dot (dec_uint d).
Proof.
  induction d; simpl; constructor; try assumption; discriminate.
Qed.

Lemma str_of_Z_no_dot (z : Z) : no_dot (str_of_Z z).
Proof.
  destruct z; simpl.
  - constructor; [discriminate | constructor].
  - apply dec_uint_no_dot.
  - constructor; [discriminate | apply dec_uint_no_dot].
Qed.

Lemma zero_pad_no_dot (w : nat) (z : Z) : no_dot (zero_pad w z).
Proof.
  unfold zero_pad. apply Forall_app. split; [|apply str_of_Z_no_dot].
  induction (w - length (str_of_Z z)); simpl; constructor;
    [discriminate | assumption].
Qed.

Lemma literal_no_dot (s : str) :
  forallb (fun c => negb (N.eqb c 46)) s = true -> no_dot s.
Proof.
  intros H. apply Forall_forall. intros c Hc.
  rewrite forallb_forall in H. specialize (H c Hc).
  apply negb_true_iff in H. apply N.eqb_neq. exact H.
Qed.

Ltac no_dot_parts :=
  first [ apply str_of_Z_no_dot
        | apply zero_pad_no_dot
        | assumption
        | apply literal_no_dot; reflexivity
        | apply Forall_app; split; no_dot_parts ].

Lemma hms_no_dot (seconds : Z) : no_dot (hms seconds).
Proof. unfold hms. no_dot_parts. Qed.

Lemma with_days_no_dot (days : Z) (s : str) :
  no_dot s -> no_dot (with_days days s).
Proof.
  intros H. unfold with_days. destruct (Z.eqb days 0); [exact H|].
  destruct (Z.eqb (Z.abs days) 1); no_dot_parts.
Qed.

(** Cutting [str(d)] at its dot gives [str] of [d] without its sub-second
    remainder. *)
Lemma td_str_whole_seconds (us : Z) :
  before_dot (td_str us) = td_str (whole_seconds us).
Proof.
  unfold td_str, whole_seconds, us_per_day, us_per_second.
  change (86400 * 1000000)%Z with 86400000000%Z.
  replace ((us - us mod 1000000) / 86400000000)%Z
    with (us / 86400000000)%Z by (Z.div_mod_to_equations; lia).
  replace (((us - us mod 1000000) mod 86400000000) / 1000000)%Z
    with ((us mod 86400000000) / 1000000)%Z
    by (Z.div_mod_to_equations; lia).
  replace (((us - us mod 1000000) mod 86400000000) mod 1000000)%Z
    with 0%Z by (Z.div_mod_to_equations; lia).
  rewrite Z.eqb_refl.
  set (s := with_days _ _).
  assert (no_dot s) as Hs by (apply with_days_no_dot, hms_no_dot).
  destruct (Z.eqb _ 0).
  - apply before_dot_no_dot. exact Hs.
  - change (u ".") with [46%N]. simpl app. apply before_dot_cut. exact Hs.
Qed.

Lemma hms_colon (seconds : Z) : In 58%N (hms seconds).
Proof.
  unfold hms. apply in_app_iff. right. left. reflexivity.
Qed.

(** [str(d)] is never the placeholder. *)
Lemma td_str_not_placeholder (us : Z) : td_str us <> Aggregator.placeholder.
Proof.
  assert (forall days s, In 58%N s -> In 58%N (with_days days s)) as D.
  { intros days s H. unfold with_days. destruct (Z.eqb days 0); [exact H|].
    do 4 (apply in_or_app; right). exact H. }
  assert (In 58%N (td_str us)) as H.
  { unfold td_str. cbv zeta. destruct (Z.eqb _ 0).
    - apply D, hms_colon.
    - apply in_or_app. left. apply D, hms_colon. }
  intros E. rewrite E in H. destruct H as [H|[]]. discriminate H.
Qed.

End TimeFacts.

(** ** The sort *)
Module SortFacts.
Import Py Spec.

(** The list [py_sort] returns when no comparison raises. *)
Section Pure.
Variable A : Type.
Variable ltb : A -> A -> bool.

Lemma place_perm (x : A) (l : list A) : Permutation (x :: l) (place ltb x l).
Proof.
  induction l as [|y l IH]; simpl; [apply Permutation_refl|].
  destruct (ltb y x); [|apply Permutation_refl].
  eapply Permutation_trans; [apply perm_swap|].
  apply perm_skip. exact IH.
Qed.

Lemma isort_perm (l : list A) : Permutation l (isort ltb l).
Proof.
  induction l as [|x l IH]; simpl; [constructor|].
  eapply Permutation_trans; [|apply place_perm].
  apply perm_skip. exact IH.
Qed.

Lemma isort_In (l : list A) (x : A) : In x (isort ltb l) <-> In x l.
Proof.
  split; apply Permutation_in;
    [apply Permutation_sym|]; apply isort_perm.
Qed.

(** A selection that never holds of two elements one of which is below
    the other comes out of the sort as it went in: the sort is stable. *)
Section Stable.
Variable p : A -> bool.
Hypothesis p_class :
  forall x y, p x = true -> p y = true -> ltb y x = false.

Lemma place_filter (x : A) (l : list A) :
  filter p (place ltb x l) = filter p (x :: l).
Proof.
  induction l as [|y l IH]; [reflexivity|].
  simpl place. destruct (ltb y x) eqn:E; [|reflexivity].
  simpl in *. rewrite IH.
  destruct (p x) eqn:Px, (p y) eqn:Py; try reflexivity.
  rewrite (p_class Px Py) in E. discriminate.
Qed.

Lemma isort_filter (l : list A) : filter p (isort ltb l) = filter p l.
Proof.
  induction l as [|x l IH]; [reflexivity|].
  simpl isort. rewrite place_filter. simpl. rewrite IH. reflexivity.
Qed.
End Stable.

(** On a domain where [ltb] is asymmetric and "not above" is transitive,
    the result is ascending. *)
Section Ascending.
Variable dom : A -> Prop.

Hypothesis asym :
  forall x y, dom x -> dom y -> ltb x y = true -> ltb y x = false.
Hypothesis trans :
  forall x y z, dom x -> dom y -> dom z ->
                not_above ltb x y -> not_above ltb y z -> not_above ltb x z.

Lemma place_sorted (x : A) (l : list A) :
  dom x -> Forall dom l ->
  StronglySorted (not_above ltb) l ->
  StronglySorted (not_above ltb) (place ltb x l).
Proof.
  intros Dx Dl S. induction S as [|y l S IH F].
  - simpl. constructor; constructor.
  - apply Forall_cons_iff in Dl as [Dy Dl].
    simpl. destruct (ltb y x) eqn:E.
    + constructor; [apply IH; assumption|].
      apply (Permutation_Forall (place_perm x l)).
      constructor; [apply asym; assumption | assumption].
    + constructor; [constructor; assumption|].
      constructor; [exact E|].
      rewrite Forall_forall in *. intros z Hz.
      apply (trans (x:=x) (y:=y) (z:=z)); auto.
Qed.

Lemma isort_sorted (l : list A) :
  Forall dom l -> StronglySorted (not_above ltb) (isort ltb l).
Proof.
  induction l as [|x l IH]; intros D; simpl; [constructor|].
  apply Forall_cons_iff in D as [Dx Dl].
  apply place_sorted; auto.
  apply (Permutation_Forall (isort_perm l)). exact Dl.
Qed.
End Ascending.

(** [py_sort] agrees with [isort] when [ltb] decides every comparison
    between elements of the list. *)
Section Agree.
Variable lt : A -> A -> result bool.

Lemma insert_place (x : A) (l : list A) :
  (forall y, In y l -> lt y x = Ok (ltb y x)) ->
  insert lt x l = Ok (place ltb x l).
Proof.
  induction l as [|y l IH]; intros H; [reflexivity|].
  simpl. rewrite (H y (or_introl eq_refl)). simpl.
  destruct (ltb y x); [|reflexivity].
  rewrite IH; [reflexivity|]. intros z Hz. apply H. right. exact Hz.
Qed.

Lemma py_sort_isort (l : list A) :
  (forall x y, In x l -> In y l -> lt x y = Ok (ltb x y)) ->
  py_sort lt l = Ok (isort ltb l).
Proof.
  induction l as [|x l IH]; intros H; [reflexivity|].
  simpl. rewrite IH.
  - simpl. apply insert_place. intros y Hy.
    apply H; [right; apply isort_In; exact Hy | left; reflexivity].
  - intros a b Ha Hb. apply H; right; assumption.
Qed.
End Agree.
End Pure.

End SortFacts.

(** ** The sorter *)
Module SorterFacts.
Import Py Aggregator Spec StrFacts SortFacts.

Lemma priority_rank (d : dict) :
  sortable d = true ->
  table_get priority (get d (u "status") (JStr (u "idle"))) 5
  = Ok (rank_of (lookup (u "status") d)).
Proof.
  unfold sortable, get. intros H. apply andb_true_iff in H as [H _].
  destruct (lookup (u "status") d) as [[| | | |s| |]|]; try discriminate;
    try reflexivity.
  unfold table_get, priority, rank_of, spec_rank. simpl find.
  repeat match goal with
         | |- context [str_eqb s ?l] => destruct (str_eqb s l); try reflexivity
         end.
Qed.

Lemma sort_key_sortable (d : dict) :
  sortable d = true ->
  sort_key (JObj d) = Ok (fst (key_of d), JStr (snd (key_of d))).
Proof.
  intros H. unfold sort_key. simpl. rewrite (priority_rank d H). simpl.
  unfold sortable in H. apply andb_true_iff in H as [_ H].
  unfold key_of. simpl. fold (agent_id d).
  destruct (agent_id d); try discriminate. reflexivity.
Qed.

Lemma keys_computed (ds : list dict) :
  Forall (fun d => sortable d = true) ds ->
  mapM (fun a => let? k := sort_key a in let? d := as_dict a in Ok (k, d))
       (map JObj ds)
  = Ok (map keyed ds).
Proof.
  induction 1 as [|d ds H _ IH]; [reflexivity|].
  simpl map. simpl mapM. rewrite (sort_key_sortable d H). simpl.
  rewrite IH. reflexivity.
Qed.

Lemma key_lt_str (r1 r2 : nat) (s1 s2 : str) :
  key_lt (r1, JStr s1) (r2, JStr s2)
  = Ok (Nat.ltb r1 r2 || (Nat.eqb r1 r2 && str_ltb s1 s2)).
Proof.
  unfold key_lt. simpl.
  destruct (Nat.eqb_spec r1 r2) as [->|N].
  - rewrite Nat.ltb_irrefl. simpl.
    destruct (str_eqb s1 s2) eqn:E; [|reflexivity].
    apply str_eqb_eq in E. subst. rewrite str_ltb_irrefl. reflexivity.
  - rewrite orb_false_r. reflexivity.
Qed.

Lemma kltb_decides (x y : (nat * json) * dict) :
  str_keyed x -> str_keyed y -> key_lt (fst x) (fst y) = Ok (kltb x y).
Proof.
  destruct x as [[r1 i1] d1], y as [[r2 i2] d2]. unfold str_keyed, kltb.
  simpl. destruct i1; try discriminate. destruct i2; try discriminate.
  intros _ _. rewrite key_lt_str. reflexivity.
Qed.

Lemma kltb_str (r1 r2 : nat) (s1 s2 : str) (d1 d2 : dict) :
  kltb ((r1, JStr s1), d1) ((r2, JStr s2), d2)
  = Nat.ltb r1 r2 || (Nat.eqb r1 r2 && str_ltb s1 s2).
Proof. unfold kltb. simpl fst. rewrite key_lt_str. reflexivity. Qed.

Lemma kltb_asym (x y : (nat * json) * dict) :
  str_keyed x -> str_keyed y -> kltb x y = true -> kltb y x = false.
Proof.
  destruct x as [[r1 i1] d1], y as [[r2 i2] d2]. unfold str_keyed. simpl.
  destruct i1; try discriminate. destruct i2; try discriminate.
  intros _ _. rewrite !kltb_str.
  destruct (Nat.ltb_spec r1 r2), (Nat.ltb_spec r2 r1),
    (Nat.eqb_spec r1 r2), (Nat.eqb_spec r2 r1); simpl;
    try lia; try congruence.
  apply str_ltb_asym.
Qed.

Lemma kltb_not_above_trans (x y z : (nat * json) * dict) :
  str_keyed x -> str_keyed y -> str_keyed z ->
  not_above kltb x y -> not_above kltb y z -> not_above kltb x z.
Proof.
  destruct x as [[r1 i1] d1], y as [[r2 i2] d2], z as [[r3 i3] d3].
  unfold str_keyed, not_above. simpl.
  destruct i1 as [| | | |s1| |]; try discriminate.
  destruct i2 as [| | | |s2| |]; try discriminate.
  destruct i3 as [| | | |s3| |]; try discriminate.
  intros _ _ _. rewrite !kltb_str.
  destruct (Nat.ltb_spec r2 r1), (Nat.ltb_spec r3 r2), (Nat.ltb_spec r3 r1),
    (Nat.eqb_spec r2 r1), (Nat.eqb_spec r3 r2), (Nat.eqb_spec r3 r1); simpl;
    try lia; try congruence.
  intros Hxy Hyz. destruct (str_ltb s3 s1) eqn:E; [|reflexivity].
  destruct (str_ltb s1 s2) eqn:F.
  - rewrite (str_ltb_trans _ _ _ E F) in Hyz. discriminate.
  - rewrite (str_ltb_total _ _ F Hxy) in E. congruence.
Qed.

Lemma keyed_str (d : dict) : str_keyed (keyed d).
Proof. reflexivity. Qed.

Lemma sort_agents_sortable (ds : list dict) :
  Forall (fun d => sortable d = true) ds ->
  sort_agents (map JObj ds) = Ok (sorted_agents ds).
Proof.
  intros H. unfold sort_agents. rewrite (keys_computed H). simpl.
  rewrite (py_sort_isort kltb).
  - reflexivity.
  - intros x y Hx Hy. apply in_map_iff in Hx as [a [<- _]].
    apply in_map_iff in Hy as [b [<- _]].
    apply kltb_decides; apply keyed_str.
Qed.

Lemma sorted_agents_perm (ds : list dict) : Permutation ds (sorted_agents ds).
Proof.
  unfold sorted_agents.
  eapply Permutation_trans;
    [|apply Permutation_map; apply isort_perm].
  rewrite map_map. simpl. rewrite map_id. apply Permutation_refl.
Qed.

Lemma sorted_elements (ds : list dict) (x : (nat * json) * dict) :
  In x (isort kltb (map keyed ds)) -> x = keyed (snd x).
Proof.
  intros H. apply isort_In in H. apply in_map_iff in H as [d [<- _]].
  reflexivity.
Qed.

Lemma StronglySorted_map {A B} (f : A -> B) (R : B -> B -> Prop) (l : list A) :
  StronglySorted (fun a b => R (f a) (f b)) l -> StronglySorted R (map f l).
Proof.
  induction 1 as [|a l S IH F]; simpl; constructor; auto.
  rewrite Forall_forall in *. intros b Hb.
  apply in_map_iff in Hb as [c [<- Hc]]. auto.
Qed.

Lemma StronglySorted_weaken {A} (R Q : A -> A -> Prop) (l : list A) :
  (forall a b, In a l -> In b l -> R a b -> Q a b) ->
  StronglySorted R l -> StronglySorted Q l.
Proof.
  intros H S. induction S as [|a l S IH F]; constructor.
  - apply IH. intros x y Hx Hy. apply H; right; assumption.
  - rewrite Forall_forall in *. intros b Hb.
    apply H; [left; reflexivity | right; exact Hb | apply F; exact Hb].
Qed.

Lemma sorted_agents_ascending (ds : list dict) :
  ascending key_of (sorted_agents ds).
Proof.
  unfold ascending, sorted_agents. apply StronglySorted_map.
  eapply StronglySorted_weaken;
    [|apply (isort_sorted (ltb:=kltb) (dom:=str_keyed) kltb_asym
               kltb_not_above_trans)].
  - intros a b Ha Hb.
    pose proof (sorted_elements ds a Ha) as Ea.
    pose proof (sorted_elements ds b Hb) as Eb.
    destruct a as [ka da], b as [kb db]. cbn [snd] in *.
    unfold not_above. rewrite Ea, Eb. unfold keyed. rewrite kltb_str.
    unfold key_leb.
    destruct (key_of da) as [r1 s1], (key_of db) as [r2 s2]. cbn [fst snd].
    destruct (Nat.ltb_spec r2 r1), (Nat.ltb_spec r1 r2),
      (Nat.eqb_spec r2 r1), (Nat.eqb_spec r1 r2); simpl;
      try lia; try congruence.
    intros ->. reflexivity.
  - apply Forall_forall. intros x Hx. apply in_map_iff in Hx as [d [<- _]].
    apply keyed_str.
Qed.

Lemma filter_map_snd {A B} (p : B -> bool) (q : A * B -> bool) (l : list (A * B)) :
  (forall x, In x l -> q x = p (snd x)) ->
  filter p (map snd l) = map snd (filter q l).
Proof.
  induction l as [|x l IH]; intros H; [reflexivity|].
  simpl. rewrite <- (H x (or_introl eq_refl)).
  rewrite IH by (intros y Hy; apply H; right; exact Hy).
  destruct (q x); reflexivity.
Qed.

(** Records under one key keep the order they were loaded in. *)
Lemma sorted_agents_stable (ds : list dict) (k : nat * str) :
  filter (fun d => key_eqb (key_of d) k) (sorted_agents ds)
  = filter (fun d => key_eqb (key_of d) k) ds.
Proof.
  set (q := fun x : (nat * json) * dict =>
              Nat.eqb (fst (fst x)) (fst k)
              && str_eqb (text (snd (fst x))) (snd k)
              && is_str (snd (fst x))).
  unfold sorted_agents.
  rewrite (filter_map_snd _ q).
  - rewrite (isort_filter kltb q).
    + rewrite <- (filter_map_snd (fun d => key_eqb (key_of d) k) q).
      * rewrite map_map. simpl. rewrite map_id. reflexivity.
      * intros x Hx. apply in_map_iff in Hx as [d [<- _]].
        unfold q, keyed, key_eqb. simpl. rewrite andb_true_r. reflexivity.
    + intros [[r1 i1] d1] [[r2 i2] d2]. unfold q. simpl.
      destruct i1; simpl; rewrite ?andb_false_r; try discriminate.
      destruct i2; simpl; rewrite ?andb_false_r; try discriminate.
      rewrite !andb_true_r. intros H1 H2.
      apply andb_true_iff in H1 as [H1 H1'].
      apply andb_true_iff in H2 as [H2 H2'].
      apply Nat.eqb_eq in H1, H2. apply str_eqb_eq in H1', H2'. subst.
      rewrite kltb_str, Nat.ltb_irrefl, str_ltb_irrefl, andb_false_r.
      reflexivity.
  - intros x Hx. rewrite (sorted_elements ds x Hx).
    unfold q, keyed, key_eqb. simpl. rewrite andb_true_r. reflexivity.
Qed.

End SorterFacts.

(** ** Rendering *)
Module RenderFacts.
Import Py Aggregator Spec StrFacts TimeFacts Utf8.
Local Open Scope m_scope.

Lemma st_eta (w : World) (cs : list str) :
  board w = Some cs -> st w (ticks w) cs = w.
Proof. destruct w. simpl. intros ->. reflexivity. Qed.

Lemma bind_ok {A B} (c : M A) (k : A -> M B) (w w' : World) (a : A) :
  c w = (w', Ok a) -> bind c k w = k a w'.
Proof. intros H. unfold bind. rewrite H. reflexivity. Qed.

Lemma bind_raise {A B} (c : M A) (k : A -> M B) (w w' : World) (e : exn) :
  c w = (w', Raise e) -> bind c k w = (w', Raise e).
Proof. intros H. unfold bind. rewrite H. reflexivity. Qed.

Lemma write_st (c : str) (w : World) (n : nat) (cs : list str) :
  encodable c = true -> write c (st w n cs) = (st w n (cs ++ [c]), Ok tt).
Proof.
  intros E. unfold write. rewrite (@encode_error_encodable c 0 E). reflexivity.
Qed.

(** A chunk with a surrogate is not written. *)
Lemma write_raises (c : str) (w : World) :
  encodable c = false ->
  exists x start stop, write c w = (w, Raise (UnicodeEncodeError x start stop)).
Proof.
  intros E. unfold write.
  destruct (@encode_error_surrogate c 0 E) as (x & start & stop & ->).
  exists x, start, stop. reflexivity.
Qed.

Lemma write_cases (c : str) (w : World) :
  (exists e, write c w = (w, Raise e))
  \/ write c w
     = (set_board (Some (match board w with
                         | Some chunks => chunks ++ [c]
                         | None => [c]
                         end)) w, Ok tt).
Proof.
  unfold write. destruct (encode_error 0 c) as [e|];
    [left; exists e; reflexivity | right; reflexivity].
Qed.

Lemma now_st (w : World) (n : nat) (cs : list str) :
  now (st w n cs) = (st w (S n) cs, Ok (clock w n)).
Proof. reflexivity. Qed.

Lemma forM_write (chunks : list str) (w : World) (n : nat) (cs : list str) :
  forallb encodable chunks = true ->
  forM_ chunks write (st w n cs) = (st w n (cs ++ chunks), Ok tt).
Proof.
  revert cs. induction chunks as [|c chunks IH]; intros cs E.
  - simpl. rewrite app_nil_r. reflexivity.
  - cbn [forallb] in E. apply andb_true_iff in E as [C E]. cbn [forM_].
    rewrite (bind_ok _ _ _ (@write_st c w n cs C)).
    rewrite (IH _ E), <- app_assoc. reflexivity.
Qed.

(** A loop whose body writes one chunk per element. *)
Lemma forM_rows {A} (body : A -> M unit) (row : A -> str) (l : list A)
      (w : World) (n : nat) (cs : list str) :
  (forall a cs', In a l -> body a (st w n cs') = (st w n (cs' ++ [row a]), Ok tt)) ->
  forM_ l body (st w n cs) = (st w n (cs ++ map row l), Ok tt).
Proof.
  revert cs. induction l as [|a l IH]; intros cs H; simpl.
  - rewrite app_nil_r. reflexivity.
  - rewrite (bind_ok _ _ _ (H a cs (or_introl eq_refl))).
    rewrite IH by (intros; apply H; right; assumption).
    rewrite <- app_assoc. reflexivity.
Qed.

Lemma lookup_text (d : dict) (k : str) (v : json) :
  text_fields d = true -> lookup k d = Some v ->
  exists s, v = JStr s /\ encodable s = true.
Proof.
  induction d as [|[k' v'] d IH]; simpl; [discriminate|].
  intros H. apply andb_true_iff in H as [Hv Hd].
  destruct (str_eqb k k'); [|apply IH; exact Hd].
  intros [= <-]. destruct v'; try discriminate. exists s. split;
    [reflexivity | exact Hv].
Qed.

Lemma lookup_str (d : dict) (k : str) (v : json) :
  text_fields d = true -> lookup k d = Some v -> is_str v = true.
Proof.
  intros H E. destruct (@lookup_text d k v H E) as (s & -> & _). reflexivity.
Qed.

Lemma get_field (d : dict) (k dflt : str) :
  text_fields d = true -> get d k (JStr dflt) = JStr (field d k dflt).
Proof.
  intros H. unfold field, get.
  destruct (lookup k d) as [v|] eqn:E; [|reflexivity].
  apply (lookup_str _ _ H) in E. destruct v; try discriminate. reflexivity.
Qed.

Lemma field_encodable (d : dict) (k dflt : str) :
  text_fields d = true -> encodable dflt = true ->
  encodable (field d k dflt) = true.
Proof.
  intros H D. unfold field, get.
  destruct (lookup k d) as [v|] eqn:E; [|exact D].
  destruct (@lookup_text d k v H E) as (s & -> & S). exact S.
Qed.

Lemma marker_encodable (d : dict) : encodable (marker d) = true.
Proof.
  unfold marker, table_get.
  destruct (get d (u "status") (JStr (u "idle"))); try reflexivity.
  unfold status_emoji_table. cbn [find fst snd].
  repeat match goal with
         | |- context [str_eqb s ?l] => destruct (str_eqb s l)
         end; reflexivity.
Qed.

#[export] Hint Resolve marker_encodable : utf8.
#[export] Hint Extern 1 (encodable (field _ _ _) = true) =>
  apply field_encodable; [assumption | first [reflexivity | apply encodable_u]]
  : utf8.

Section Rows.
Variable rt : Runtime.

Lemma utc_stamp_encodable (t : Z) : encodable (utc_stamp rt t) = true.
Proof.
  unfold utc_stamp. apply encodable_replace; [reflexivity|].
  apply isoformat_encodable.
Qed.

Lemma duration_text_encodable (t : Z) (d : dict) :
  encodable (duration_text rt t d) = true.
Proof.
  unfold duration_text. destruct (started_at rt d) as [[t0|t0]|];
    auto with utf8.
Qed.

Lemma active_text_encodable (t : Z) (d : dict) :
  text_fields d = true -> encodable (active_text rt t d) = true.
Proof.
  intros H. pose proof (duration_text_encodable t d).
  unfold active_text. auto 30 with utf8.
Qed.

Lemma blocked_text_encodable (d : dict) :
  text_fields d = true -> encodable (blocked_text d) = true.
Proof. intros H. unfold blocked_text. auto 30 with utf8. Qed.

Lemma idle_text_encodable (d : dict) :
  text_fields d = true -> encodable (idle_text d) = true.
Proof. intros H. unfold idle_text. auto 30 with utf8. Qed.

Lemma completed_text_encodable (d : dict) :
  text_fields d = true -> encodable (completed_text d) = true.
Proof. intros H. unfold completed_text. auto 30 with utf8. Qed.

Lemma lane_text_encodable (item : json * lane_stats) :
  encodable (fmt rt (fst item)) = true ->
  encodable (lane_text rt item) = true.
Proof. intros H. unfold lane_text. auto 30 with utf8. Qed.

Lemma updated_line_encodable (t : Z) : encodable (updated_line rt t) = true.
Proof.
  pose proof (utc_stamp_encodable t). unfold updated_line. auto with utf8.
Qed.

Lemma attempt_line_encodable (t : Z) : encodable (attempt_line rt t) = true.
Proof.
  pose proof (utc_stamp_encodable t). unfold attempt_line. auto with utf8.
Qed.

Lemma error_line_encodable (e : exn) : encodable (error_line rt e) = true.
Proof.
  pose proof (exn_text_encodable rt e). unfold error_line. auto with utf8.
Qed.

Lemma total_line_encodable (agents : list dict) :
  encodable (total_line agents) = true.
Proof. unfold total_line. auto 10 with utf8. Qed.

Lemma statistics_encodable (active blocked idle completed : list dict) :
  forallb encodable (statistics_chunks active blocked idle completed) = true.
Proof.
  unfold statistics_chunks. cbn [forallb].
  repeat (apply andb_true_intro; split); auto 10 with utf8.
Qed.

Lemma duration_cell_st (d : dict) (w : World) (n : nat) (cs : list str) :
  duration_cell rt d (st w n cs)
  = (st w (if reads_clock rt d then S n else n) cs,
     Ok (duration_text rt (clock w n) d)).
Proof.
  unfold duration_cell, reads_clock, duration_text, started_at, get.
  destruct (lookup (u "started") d) as [v|]; [|reflexivity].
  destruct v as [| b | z | q | s | l | kvs]; simpl truthy;
    try (match goal with |- context [if ?c then _ else _] => destruct c end;
         reflexivity).
  destruct s as [|c s]; [reflexivity|].
  destruct (fromisoformat rt _) as [[t0|t0]|]; try reflexivity.
  unfold bind, now, ret. simpl. rewrite td_str_whole_seconds. reflexivity.
Qed.

Lemma marker_ok (d : dict) :
  text_fields d = true ->
  table_get status_emoji_table (get d (u "status") (JStr (u "idle"))) [10067%N]
  = Ok (marker d).
Proof.
  intros H. unfold marker. rewrite (get_field d _ _ H). reflexivity.
Qed.

Lemma active_row_st (d : dict) (w : World) (n : nat) (cs : list str) :
  text_fields d = true ->
  active_row rt d (st w n cs)
  = (st w (if reads_clock rt d then S n else n)
        (cs ++ [active_text rt (clock w n) d]), Ok tt).
Proof.
  intros H. unfold active_row.
  rewrite (bind_ok _ _ _ (duration_cell_st d w n cs)).
  rewrite (marker_ok d H).
  rewrite !(get_field d _ _ H).
  exact (@write_st _ w _ cs (@active_text_encodable (clock w n) d H)).
Qed.

Lemma blocked_row_st (d : dict) (w : World) (n : nat) (cs : list str) :
  text_fields d = true ->
  blocked_row rt d (st w n cs) = (st w n (cs ++ [blocked_text d]), Ok tt).
Proof.
  intros H. unfold blocked_row.
  rewrite !(get_field d _ _ H).
  exact (@write_st _ w n cs (@blocked_text_encodable d H)).
Qed.

Lemma idle_row_st (d : dict) (w : World) (n : nat) (cs : list str) :
  text_fields d = true ->
  idle_row rt d (st w n cs) = (st w n (cs ++ [idle_text d]), Ok tt).
Proof.
  intros H. unfold idle_row.
  rewrite !(get_field d _ _ H).
  exact (@write_st _ w n cs (@idle_text_encodable d H)).
Qed.

Lemma completed_row_st (d : dict) (w : World) (n : nat) (cs : list str) :
  text_fields d = true ->
  completed_row rt d (st w n cs) = (st w n (cs ++ [completed_text d]), Ok tt).
Proof.
  intros H. unfold completed_row.
  rewrite !(get_field d _ _ H).
  exact (@write_st _ w n cs (@completed_text_encodable d H)).
Qed.

Lemma lane_row_st (item : json * lane_stats) (w : World) (n : nat)
      (cs : list str) :
  encodable (fmt rt (fst item)) = true ->
  lane_row rt item (st w n cs) = (st w n (cs ++ [lane_text rt item]), Ok tt).
Proof. intros H. exact (@write_st _ w n cs (@lane_text_encodable item H)). Qed.

Lemma active_rows_st (l : list dict) (w : World) (n : nat) (cs : list str) :
  Forall (fun d => text_fields d = true) l ->
  forM_ l (active_row rt) (st w n cs)
  = (st w (n + clock_reads rt l) (cs ++ active_texts rt (clock w) n l), Ok tt).
Proof.
  intros H. revert n cs. induction H as [|d l Hd _ IH]; intros n cs; simpl.
  - rewrite app_nil_r, Nat.add_0_r. reflexivity.
  - rewrite (bind_ok _ _ _ (active_row_st d w n cs Hd)).
    rewrite IH, <- app_assoc. unfold clock_reads. simpl.
    destruct (reads_clock rt d); simpl;
      rewrite ?Nat.add_succ_r; reflexivity.
Qed.

(** Each row is written with the reading that follows those of the rows
    above it. *)
Lemma active_texts_nth (clock : nat -> Z) (l : list dict) (tick i : nat)
      (d : dict) :
  nth_error l i = Some d ->
  nth_error (active_texts rt clock tick l) i
  = Some (active_text rt (clock (tick + clock_reads rt (firstn i l))) d).
Proof.
  revert tick i. induction l as [|a l IH]; intros tick [|i] H;
    try discriminate.
  - injection H as ->. cbn [active_texts nth_error firstn].
    unfold clock_reads. cbn [filter length]. rewrite Nat.add_0_r.
    reflexivity.
  - cbn [active_texts nth_error firstn] in *. rewrite (IH _ _ H).
    unfold clock_reads. cbn [filter].
    destruct (reads_clock rt a); cbn [length];
      rewrite ?Nat.add_succ_r; reflexivity.
Qed.

Lemma clock_reads_next (l : list dict) (i : nat) (d : dict) :
  nth_error l i = Some d ->
  clock_reads rt (firstn (S i) l)
  = clock_reads rt (firstn i l) + (if reads_clock rt d then 1 else 0).
Proof.
  revert i. induction l as [|a l IH]; intros [|i] H; try discriminate.
  - injection H as ->. unfold clock_reads. cbn [firstn filter].
    destruct (reads_clock rt d); reflexivity.
  - cbn [nth_error] in H. specialize (IH i H). unfold clock_reads in *.
    cbn [firstn filter] in *.
    destruct (reads_clock rt a); cbn [length]; rewrite IH; reflexivity.
Qed.

End Rows.

(** A loop of writes stops at the first chunk with a surrogate. *)
Lemma forM_write_surrogate {A} (row : A -> str) (l : list A) (bad : A)
      (w : World) :
  In bad l -> encodable (row bad) = false ->
  exists c start stop,
    snd (forM_ l (fun a => write (row a)) w)
    = Raise (UnicodeEncodeError c start stop).
Proof.
  revert w. induction l as [|a l IH]; intros w I B; [destruct I|].
  cbn [forM_]. unfold bind. destruct (encodable (row a)) eqn:E.
  - unfold write at 1. rewrite (@encode_error_encodable (row a) 0 E).
    destruct I as [->|I]; [congruence|]. apply IH; assumption.
  - destruct (@write_raises (row a) w E) as (c & start & stop & ->).
    exists c, start, stop. reflexivity.
Qed.

End RenderFacts.

(** ** The lane table *)
Module LaneFacts.
Import Py Aggregator Spec StrFacts SortFacts Utf8.

Lemma mem_In (n : str) (l : list str) : mem n l = true <-> In n l.
Proof.
  unfold mem. rewrite existsb_exists. split.
  - intros [x [H E]]. apply str_eqb_eq in E. subst. exact H.
  - intros H. exists n. split; [exact H | apply str_eqb_refl].
Qed.

Lemma first_seen_from_app (seen : list str) (ps qs : list dict) :
  first_seen_from seen (ps ++ qs)
  = first_seen_from (first_seen_from seen ps) qs.
Proof.
  revert seen. induction ps as [|d ps IH]; intros seen; simpl;
    [reflexivity | apply IH].
Qed.

Lemma first_seen_snoc (ps : list dict) (d : dict) :
  first_seen (ps ++ [d])
  = if mem (lane_of d) (first_seen ps) then first_seen ps
    else first_seen ps ++ [lane_of d].
Proof. unfold first_seen. rewrite first_seen_from_app. reflexivity. Qed.

Lemma first_seen_from_NoDup (seen : list str) (ps : list dict) :
  NoDup seen -> NoDup (first_seen_from seen ps).
Proof.
  revert seen. induction ps as [|d ps IH]; intros seen H; simpl; [exact H|].
  apply IH. destruct (mem (lane_of d) seen) eqn:E; [exact H|].
  apply NoDup_app; [exact H | repeat constructor; simpl; tauto |].
  intros x Hx [<-|[]]. apply mem_In in Hx. congruence.
Qed.

Lemma first_seen_NoDup (ps : list dict) : NoDup (first_seen ps).
Proof. apply first_seen_from_NoDup. constructor. Qed.

Lemma first_seen_from_In (seen : list str) (ps : list dict) (n : str) :
  In n (first_seen_from seen ps)
  <-> In n seen \/ exists d, In d ps /\ lane_of d = n.
Proof.
  revert seen. induction ps as [|d ps IH]; intros seen; simpl.
  - split; [tauto | intros [H|[d [[] _]]]; exact H].
  - rewrite IH. split.
    + intros [H|[e [He E]]].
      * destruct (mem (lane_of d) seen); [left; exact H|].
        apply in_app_iff in H as [H|[<-|[]]]; [left; exact H|].
        right. exists d. split; [left|]; reflexivity.
      * right. exists e. split; [right|]; assumption.
    + intros [H|[e [[<-|He] E]]].
      * left. destruct (mem (lane_of d) seen); [exact H|].
        apply in_app_iff. left. exact H.
      * left. destruct (mem (lane_of d) seen) eqn:M.
        -- apply mem_In in M. rewrite <- E. exact M.
        -- apply in_app_iff. right. left. exact E.
      * right. exists e. split; assumption.
Qed.

Lemma first_seen_In (ps : list dict) (n : str) :
  In n (first_seen ps) <-> exists d, In d ps /\ lane_of d = n.
Proof.
  unfold first_seen. rewrite first_seen_from_In. simpl. tauto.
Qed.

Lemma count_in_snoc (n : str) (kind : json -> bool) (ps : list dict) (d : dict) :
  count_in n kind (ps ++ [d])
  = count_in n kind ps
    + (if str_eqb (lane_of d) n && kind (lane_status d) then 1 else 0).
Proof.
  unfold count_in. rewrite filter_app, length_app. simpl.
  destruct (str_eqb (lane_of d) n && kind (lane_status d)); reflexivity.
Qed.

Lemma py_eq_str (v : json) (s : str) :
  py_eq v (JStr s) = match v with JStr t => str_eqb t s | _ => false end.
Proof. destruct v; reflexivity. Qed.

(** The three kinds of the loop body are those of the statement. *)
Lemma bucket_kind (status : json) :
  bucket status
  = if counts_active status then inc_active
    else if counts_blocked status then inc_blocked
    else inc_idle.
Proof.
  unfold bucket, counts_active, counts_blocked, is_in. simpl.
  rewrite orb_false_r. reflexivity.
Qed.

Lemma lane_counts_other (n : str) (ps : list dict) (d : dict) :
  str_eqb (lane_of d) n = false ->
  lane_counts n (ps ++ [d]) = lane_counts n ps.
Proof.
  intros H. unfold lane_counts. rewrite !count_in_snoc, H. simpl.
  rewrite !Nat.add_0_r. reflexivity.
Qed.

Lemma lane_counts_same (ps : list dict) (d : dict) :
  lane_counts (lane_of d) (ps ++ [d])
  = bucket (lane_status d) (lane_counts (lane_of d) ps).
Proof.
  rewrite bucket_kind. unfold lane_counts, counts_idle.
  rewrite !count_in_snoc, str_eqb_refl. simpl.
  assert (counts_blocked (lane_status d) = true ->
          counts_active (lane_status d) = false) as D.
  { unfold counts_blocked, counts_active. rewrite !py_eq_str.
    destruct (lane_status d); try discriminate.
    intros E. apply str_eqb_eq in E. subst. reflexivity. }
  destruct (counts_active (lane_status d)) eqn:A,
           (counts_blocked (lane_status d)) eqn:B; simpl;
    try (specialize (D eq_refl); discriminate);
    unfold inc_active, inc_blocked, inc_idle; simpl;
    rewrite ?Nat.add_0_r, ?Nat.add_1_r; reflexivity.
Qed.

Lemma has_lane_named (n : str) (t : list (str * lane_stats)) :
  has_lane (JStr n) (named t) = mem n (map fst t).
Proof.
  unfold has_lane, mem, named. induction t as [|[k st] t IH];
    [reflexivity|].
  cbn [existsb map fst snd]. rewrite IH. reflexivity.
Qed.

Lemma bump_absent (n : str) (f : lane_stats -> lane_stats)
      (ns : list str) (g : str -> lane_stats) :
  ~ In n ns ->
  bump (JStr n) f (named (map (fun m => (m, g m)) ns))
  = named (map (fun m => (m, g m)) ns).
Proof.
  induction ns as [|m ns IH]; intros H; simpl; [reflexivity|].
  destruct (str_eqb n m) eqn:E.
  - apply str_eqb_eq in E. subst. exfalso. apply H. left. reflexivity.
  - rewrite IH; [reflexivity|]. intros F. apply H. right. exact F.
Qed.

(** Bumping the entry of [n] in a table given by a function of the name
    gives the table of any function that differs at [n] that way. *)
Lemma bump_present (n : str) (f : lane_stats -> lane_stats)
      (ns : list str) (g h : str -> lane_stats) :
  NoDup ns ->
  h n = f (g n) -> (forall m, m <> n -> h m = g m) ->
  bump (JStr n) f (named (map (fun m => (m, g m)) ns))
  = named (map (fun m => (m, h m)) ns).
Proof.
  intros ND Hn Hm. induction ND as [|m ns Hnot ND IH]; simpl; [reflexivity|].
  destruct (str_eqb n m) eqn:E.
  - apply str_eqb_eq in E. subst m. rewrite Hn. f_equal.
    unfold named. rewrite !map_map. apply map_ext_in.
    intros a Ha. simpl. rewrite Hm; [reflexivity|].
    intros ->. contradiction.
  - apply str_eqb_neq in E. rewrite Hm by congruence. rewrite IH.
    reflexivity.
Qed.

Lemma filter_none {A} (p : A -> bool) (l : list A) :
  (forall x, In x l -> p x = false) -> filter p l = [].
Proof.
  induction l as [|x l IH]; intros H; [reflexivity|].
  simpl. rewrite (H x (or_introl eq_refl)). apply IH.
  intros y Hy. apply H. right. exact Hy.
Qed.

Lemma lane_counts_unseen (n : str) (ps : list dict) :
  ~ In n (first_seen ps) -> lane_counts n ps = no_stats.
Proof.
  intros N. unfold lane_counts, count_in.
  rewrite !filter_none; [reflexivity| | |];
    intros e He; apply andb_false_iff; left; apply str_eqb_neq;
    intros Q; apply N; apply first_seen_In; exists e; split; assumption.
Qed.

Lemma tally_step (ps : list dict) (d : dict) :
  lane_named d = true ->
  tally (named (table_of ps)) d = Ok (named (table_of (ps ++ [d]))).
Proof.
  intros L. unfold tally.
  assert (get d (u "lane") (JStr (u "unknown")) = JStr (lane_of d)) as E.
  { unfold lane_named in L. unfold lane_of, field.
    destruct (get d (u "lane") (JStr (u "unknown"))); try discriminate.
    reflexivity. }
  rewrite E. simpl. f_equal. fold (lane_status d).
  rewrite has_lane_named. unfold table_of at 1 2. rewrite map_map. simpl.
  rewrite map_id. unfold table_of. rewrite first_seen_snoc.
  assert (forall m, m <> lane_of d ->
                    lane_counts m (ps ++ [d]) = lane_counts m ps) as O.
  { intros m Hm. apply lane_counts_other. apply str_eqb_neq. congruence. }
  destruct (mem (lane_of d) (first_seen ps)) eqn:M.
  - apply bump_present;
      [apply first_seen_NoDup | apply lane_counts_same | exact O].
  - assert (~ In (lane_of d) (first_seen ps)) as N
        by (rewrite <- mem_In; congruence).
    change [(JStr (lane_of d), no_stats)]
      with (named [(lane_of d, no_stats)]).
    unfold named at 1. rewrite <- map_app. fold (named).
    rewrite <- (lane_counts_unseen _ _ N).
    change [(lane_of d, lane_counts (lane_of d) ps)]
      with (map (fun m => (m, lane_counts m ps)) [lane_of d]).
    rewrite <- map_app. apply bump_present.
    + apply NoDup_app; [apply first_seen_NoDup| repeat constructor; simpl; tauto|].
      intros x Hx [<-|[]]. contradiction.
    + apply lane_counts_same.
    + exact O.
Qed.

Lemma tally_all_from (ps agents : list dict) :
  Forall (fun d => lane_named d = true) agents ->
  tally_all (named (table_of ps)) agents
  = Ok (named (table_of (ps ++ agents))).
Proof.
  intros H. revert ps. induction H as [|d agents Hd _ IH]; intros ps; simpl.
  - rewrite app_nil_r. reflexivity.
  - rewrite (tally_step ps d Hd). simpl. rewrite IH, <- app_assoc.
    reflexivity.
Qed.

Lemma tally_all_table (agents : list dict) :
  Forall (fun d => lane_named d = true) agents ->
  tally_all [] agents = Ok (named (table_of agents)).
Proof. intros H. apply (tally_all_from [] H). Qed.

Lemma names_of_table (agents : list dict) :
  map lane_name (named (table_of agents)) = first_seen agents.
Proof.
  unfold named, table_of. rewrite !map_map. simpl. apply map_id.
Qed.

Lemma named_table_In (agents : list dict) (x : json * lane_stats) :
  In x (named (table_of agents)) <->
  In (lane_name x) (first_seen agents)
  /\ x = (JStr (lane_name x), lane_counts (lane_name x) agents).
Proof.
  unfold named, table_of. rewrite map_map. simpl. rewrite in_map_iff. split.
  - intros [n [<- H]]. split; [exact H | reflexivity].
  - intros [H E]. exists (lane_name x). split; [symmetry; exact E | exact H].
Qed.

Lemma stats_eqb_refl (s : lane_stats) : stats_eqb s s = true.
Proof. unfold stats_eqb. rewrite !Nat.eqb_refl. reflexivity. Qed.

Lemma item_lt_table (agents : list dict) (x y : json * lane_stats) :
  In x (named (table_of agents)) -> In y (named (table_of agents)) ->
  item_lt x y = Ok (item_ltb x y).
Proof.
  intros Hx Hy. apply named_table_In in Hx as [_ Ex].
  apply named_table_In in Hy as [_ Ey]. rewrite Ex, Ey.
  unfold item_lt, item_ltb. simpl.
  destruct (str_eqb (lane_name x) (lane_name y)) eqn:E; [|reflexivity].
  apply str_eqb_eq in E. rewrite E, stats_eqb_refl, str_ltb_irrefl.
  reflexivity.
Qed.

Lemma item_ltb_asym (x y : json * lane_stats) :
  True -> True -> item_ltb x y = true -> item_ltb y x = false.
Proof. intros _ _. apply str_ltb_asym. Qed.

Lemma item_ltb_trans (x y z : json * lane_stats) :
  True -> True -> True ->
  not_above item_ltb x y -> not_above item_ltb y z -> not_above item_ltb x z.
Proof.
  intros _ _ _. unfold not_above, item_ltb. intros Hxy Hyz.
  destruct (str_ltb (text (fst z)) (text (fst x))) eqn:E; [|reflexivity].
  destruct (str_ltb (text (fst x)) (text (fst y))) eqn:F.
  - rewrite (str_ltb_trans _ _ _ E F) in Hyz. discriminate.
  - rewrite (str_ltb_total _ _ F Hxy) in E. congruence.
Qed.

Lemma lanes_sorted_ok (agents : list dict) :
  Forall (fun d => lane_named d = true) agents ->
  (let? lanes := tally_all [] agents in py_sort item_lt lanes)
  = Ok (sorted_lanes agents).
Proof.
  intros H. rewrite (tally_all_table H). simpl.
  apply py_sort_isort. apply item_lt_table.
Qed.

Lemma lane_rows_sorted (agents : list dict) :
  Forall (fun d => lane_named d = true) agents ->
  lane_rows agents = sorted_lanes agents.
Proof. intros H. unfold lane_rows. rewrite (lanes_sorted_ok H). reflexivity. Qed.

Lemma sorted_lanes_In (agents : list dict) (x : json * lane_stats) :
  In x (sorted_lanes agents) <->
  In (lane_name x) (first_seen agents)
  /\ x = (JStr (lane_name x), lane_counts (lane_name x) agents).
Proof. unfold sorted_lanes. rewrite isort_In. apply named_table_In. Qed.

Lemma sorted_lanes_names (agents : list dict) :
  Permutation (first_seen agents) (map lane_name (sorted_lanes agents)).
Proof.
  rewrite <- names_of_table. apply Permutation_map. apply isort_perm.
Qed.

(** The lanes of the rows go strictly up. *)
Lemma sorted_lanes_ascending (agents : list dict) :
  StronglySorted (fun a b => str_ltb a b = true)
                 (map lane_name (sorted_lanes agents)).
Proof.
  assert (NoDup (map lane_name (sorted_lanes agents))) as ND.
  { apply (Permutation_NoDup (sorted_lanes_names agents)).
    apply first_seen_NoDup. }
  assert (StronglySorted (not_above item_ltb) (sorted_lanes agents)) as S.
  { apply (isort_sorted (ltb:=item_ltb) (dom:=fun _ => True)
             item_ltb_asym item_ltb_trans).
    apply Forall_forall. intros; exact I. }
  induction S as [|a l S IH F]; simpl; constructor.
  - apply IH. apply NoDup_cons_iff in ND. apply ND.
  - simpl in ND. apply NoDup_cons_iff in ND as [Hnot _].
    apply Forall_forall. intros n Hn.
    apply in_map_iff in Hn as [b [<- Hb]].
    rewrite Forall_forall in F. specialize (F b Hb).
    unfold not_above, item_ltb in F. fold (lane_name a) (lane_name b) in F.
    destruct (str_ltb (lane_name a) (lane_name b)) eqn:E; [reflexivity|].
    exfalso. apply Hnot. rewrite (str_ltb_total _ _ E F).
    apply in_map. exact Hb.
Qed.

Lemma count_split (lane : str) (agents : list dict) :
  lane_total (lane_counts lane agents) = lane_size lane agents.
Proof.
  unfold lane_total, lane_counts, lane_size, count_in, counts_idle. simpl.
  induction agents as [|d agents IH]; [reflexivity|].
  simpl. destruct (str_eqb (lane_of d) lane); simpl; [|exact IH].
  assert (counts_blocked (lane_status d) = true ->
          counts_active (lane_status d) = false) as D.
  { unfold counts_blocked, counts_active. rewrite !py_eq_str.
    destruct (lane_status d); try discriminate.
    intros E. apply str_eqb_eq in E. subst. reflexivity. }
  destruct (counts_active (lane_status d)) eqn:A,
           (counts_blocked (lane_status d)) eqn:B; simpl;
    try (specialize (D eq_refl); discriminate); lia.
Qed.

Section LaneSection.
Variable rt : Runtime.

Lemma lane_section_st (agents : list dict) (w : World) (n : nat)
      (cs : list str) :
  Forall (fun d => lane_named d = true) agents ->
  Forall (fun d => encodable (lane_of d) = true) agents ->
  lane_section rt agents (st w n cs)
  = (st w n
       (cs ++ table lane_heading (map (lane_text rt) (lane_rows agents))),
     Ok tt).
Proof.
  intros H U. unfold lane_section.
  rewrite (lane_rows_sorted H).
  pose proof (lanes_sorted_ok H) as E.
  rewrite (tally_all_table H) in *. simpl in E.
  unfold bind at 1, lift at 1.
  assert (nonempty (named (table_of agents))
          = nonempty (map (lane_text rt) (sorted_lanes agents))) as NE.
  { pose proof (Permutation_length
                  (isort_perm item_ltb (named (table_of agents)))) as L.
    fold (sorted_lanes agents) in L.
    destruct (named (table_of agents)), (sorted_lanes agents);
      simpl in *; try discriminate; reflexivity. }
  rewrite NE. unfold table.
  destruct (map (lane_text rt) (sorted_lanes agents)) as [|r rs] eqn:R.
  - simpl. rewrite app_nil_r. reflexivity.
  - simpl when.
    rewrite (RenderFacts.bind_ok _ _ _
               (@RenderFacts.forM_write lane_heading w n cs eq_refl)).
    unfold bind at 1, lift at 1. rewrite E.
    rewrite (RenderFacts.forM_rows (lane_row rt) (lane_text rt)).
    + rewrite R, <- app_assoc. reflexivity.
    + intros a cs' Ia. apply RenderFacts.lane_row_st.
      apply sorted_lanes_In in Ia as [I ->]. cbn [fst].
      apply first_seen_In in I as (d & Id & <-).
      rewrite Forall_forall in U. apply (U d Id).
Qed.

(** A lane with a surrogate stops the table at its row. *)
Lemma lane_section_surrogate (agents : list dict) (w : World) (n : nat)
      (cs : list str) :
  Forall (fun d => lane_named d = true) agents ->
  Exists (fun d => encodable (lane_of d) = false) agents ->
  exists c start stop,
    snd (lane_section rt agents (st w n cs))
    = Raise (UnicodeEncodeError c start stop).
Proof.
  intros H X. apply Exists_exists in X as (d & Id & B).
  unfold lane_section.
  pose proof (lanes_sorted_ok H) as E.
  rewrite (tally_all_table H) in *. simpl in E.
  unfold bind at 1, lift at 1.
  assert (In (lane_of d) (first_seen agents)) as F
      by (apply first_seen_In; exists d; split; [exact Id | reflexivity]).
  assert (In (JStr (lane_of d), lane_counts (lane_of d) agents)
             (sorted_lanes agents)) as R
      by (apply sorted_lanes_In; split; [exact F | reflexivity]).
  assert (nonempty (named (table_of agents)) = true) as NE.
  { unfold named, table_of. destruct (first_seen agents); [destruct F|].
    reflexivity. }
  rewrite NE. cbn [when].
  rewrite (RenderFacts.bind_ok _ _ _
             (@RenderFacts.forM_write lane_heading w n cs eq_refl)).
  unfold bind at 1, lift at 1. rewrite E.
  apply (@RenderFacts.forM_write_surrogate _ (lane_text rt) _ _ _ R).
  destruct (encodable (lane_text rt _)) eqn:T; [|reflexivity].
  unfold lane_text in T. apply encodable_app_inv in T as [_ T].
  apply encodable_app_inv in T as [T _]. cbn [fst fmt py_str] in T.
  congruence.
Qed.

End LaneSection.

End LaneFacts.

(** ** The board of well-typed records *)
Module BoardFacts.
Import Py Aggregator Spec StrFacts RenderFacts LaneFacts Utf8.
Local Open Scope m_scope.

Lemma Forall_filter {A} (P : A -> Prop) (p : A -> bool) (l : list A) :
  Forall P l -> Forall P (filter p l).
Proof.
  intros H. apply Forall_forall. intros x Hx. apply filter_In in Hx as [Hx _].
  rewrite Forall_forall in H. apply H. exact Hx.
Qed.

Lemma Forall_firstn {A} (P : A -> Prop) (n : nat) (l : list A) :
  Forall P l -> Forall P (firstn n l).
Proof.
  intros H. revert n. induction H as [|x l Hx _ IH]; intros [|n]; simpl;
    constructor; auto.
Qed.

Lemma text_fields_lane_named (d : dict) :
  text_fields d = true -> lane_named d = true.
Proof. intros H. unfold lane_named. rewrite (get_field d _ _ H). reflexivity. Qed.

Lemma text_fields_sortable (d : dict) : text_fields d = true -> sortable d = true.
Proof.
  intros H. unfold sortable, agent_id. rewrite (get_field d _ _ H).
  rewrite andb_true_r.
  destruct (lookup (u "status") d) as [v|] eqn:E; [|reflexivity].
  apply (lookup_str _ _ H) in E. destruct v; try discriminate. reflexivity.
Qed.

Lemma nonempty_map {A B} (f : A -> B) (l : list A) :
  nonempty (map f l) = nonempty l.
Proof. destruct l; reflexivity. Qed.

Section Board.
Variable rt : Runtime.

(** A section whose rows do not read the clock. *)
Lemma plain_section_st (heading : list str) (body : dict -> M unit)
      (row : dict -> str) (l shown : list dict)
      (w : World) (n : nat) (cs : list str) :
  forallb encodable heading = true ->
  nonempty shown = nonempty l ->
  (forall d cs', In d shown ->
                 body d (st w n cs') = (st w n (cs' ++ [row d]), Ok tt)) ->
  when (nonempty l) (forM_ heading write ;; forM_ shown body) (st w n cs)
  = (st w n (cs ++ table heading (map row shown)), Ok tt).
Proof.
  intros HE NE H. rewrite <- NE. unfold table.
  destruct shown as [|d shown]; unfold when; cbn [nonempty].
  - simpl. rewrite app_nil_r. reflexivity.
  - rewrite (bind_ok _ _ _ (@forM_write heading w n cs HE)).
    rewrite (forM_rows body row) by exact H.
    rewrite <- app_assoc. reflexivity.
Qed.

Lemma active_section_st (l : list dict) (w : World) (n : nat) (cs : list str) :
  Forall (fun d => text_fields d = true) l ->
  active_section rt l (st w n cs)
  = (st w (n + clock_reads rt l)
        (cs ++ table active_heading (active_texts rt (clock w) n l)), Ok tt).
Proof.
  intros H. unfold active_section, table.
  destruct l as [|d l]; unfold when; cbn [nonempty].
  - simpl. rewrite app_nil_r, Nat.add_0_r. reflexivity.
  - rewrite (bind_ok _ _ _ (@forM_write active_heading w n cs eq_refl)).
    rewrite (active_rows_st rt _ _ _ H).
    rewrite <- app_assoc. reflexivity.
Qed.

Lemma blocked_section_st (l : list dict) (w : World) (n : nat) (cs : list str) :
  Forall (fun d => text_fields d = true) l ->
  blocked_section rt l (st w n cs)
  = (st w n (cs ++ table blocked_heading (map blocked_text l)), Ok tt).
Proof.
  intros H. apply plain_section_st; [reflexivity | reflexivity |].
  intros d cs' Hd. apply blocked_row_st.
  rewrite Forall_forall in H. apply H. exact Hd.
Qed.

Lemma idle_section_st (l : list dict) (w : World) (n : nat) (cs : list str) :
  Forall (fun d => text_fields d = true) l ->
  idle_section rt l (st w n cs)
  = (st w n (cs ++ table idle_heading (map idle_text l)), Ok tt).
Proof.
  intros H. apply plain_section_st; [reflexivity | reflexivity |].
  intros d cs' Hd. apply idle_row_st.
  rewrite Forall_forall in H. apply H. exact Hd.
Qed.

Lemma completed_section_st (l : list dict) (w : World) (n : nat)
      (cs : list str) :
  Forall (fun d => text_fields d = true) l ->
  completed_section rt l (st w n cs)
  = (st w n (cs ++ table completed_heading
                         (map completed_text (firstn 5 l))), Ok tt).
Proof.
  intros H. apply plain_section_st; [reflexivity | destruct l; reflexivity |].
  intros d cs' Hd. apply completed_row_st.
  apply (Forall_firstn 5) in H. rewrite Forall_forall in H. apply H. exact Hd.
Qed.

Lemma open_board_st (w : World) :
  board_writable w = true -> open_board w = (st w (ticks w) [], Ok tt).
Proof. intros H. unfold open_board. rewrite H. reflexivity. Qed.

(** The board the renderer writes for records of the data model. *)
Lemma render_typed (agents : list dict) (w : World) :
  Forall (fun d => text_fields d = true) agents -> board_writable w = true ->
  render rt agents w
  = (st w (S (ticks w) + clock_reads rt (active_of agents))
        (board_chunks rt (clock w) (ticks w) agents), Ok tt).
Proof.
  intros T W. unfold render.
  assert (Forall (fun d => text_fields d = true) (active_of agents)) as TA
      by apply (Forall_filter _ T).
  assert (Forall (fun d => text_fields d = true) (blocked_of agents)) as TB
      by apply (Forall_filter _ T).
  assert (Forall (fun d => text_fields d = true) (idle_of agents)) as TI
      by apply (Forall_filter _ T).
  assert (Forall (fun d => text_fields d = true) (completed_of agents)) as TC
      by apply (Forall_filter _ T).
  rewrite (bind_ok _ _ _ (open_board_st w W)).
  rewrite (bind_ok _ _ _ (@write_st title _ _ _ eq_refl)).
  rewrite (bind_ok _ _ _ (now_st _ _ _)).
  rewrite (bind_ok _ _ _ (@write_st _ _ _ _ (updated_line_encodable rt _))).
  rewrite (bind_ok _ _ _ (@write_st _ _ _ _ (total_line_encodable agents))).
  rewrite (bind_ok _ _ _ (active_section_st _ _ _ TA)).
  rewrite (bind_ok _ _ _ (blocked_section_st _ _ _ TB)).
  rewrite (bind_ok _ _ _ (idle_section_st _ _ _ TI)).
  rewrite (bind_ok _ _ _ (completed_section_st _ _ _ TC)).
  unfold statistics_section.
  rewrite (bind_ok _ _ _ (@forM_write _ _ _ _ (statistics_encodable _ _ _ _))).
  rewrite lane_section_st.
  - unfold board_chunks, completions_table, statistics_of.
    simpl app. rewrite <- !app_assoc. reflexivity.
  - apply Forall_forall. intros d Hd. apply text_fields_lane_named.
    rewrite Forall_forall in T. apply T. exact Hd.
  - apply Forall_forall. intros d Hd. apply field_encodable; [|reflexivity].
    rewrite Forall_forall in T. apply T. exact Hd.
Qed.

End Board.

End BoardFacts.

(** ** What no step of the script changes *)
Module Steady.
Import Py Aggregator Spec.
Local Open Scope m_scope.

Ltac steady_now :=
  intros [[?|] [?|] [|] ? ? ? ?]; unfold agree; cbn; repeat split; auto.

Lemma steady_ret {A} (a : A) : steady (ret a).
Proof. steady_now. Qed.

Lemma steady_lift {A} (r : result A) : steady (lift r).
Proof. steady_now. Qed.

Lemma steady_print (line : str) : steady (print line).
Proof. steady_now. Qed.

Lemma steady_write (chunk : str) : steady (write chunk).
Proof.
  intros w. unfold write, agree. destruct (encode_error 0 chunk);
    destruct w as [d [b|] bw co cl t sl]; cbn; repeat split; auto.
Qed.

Lemma steady_dir_exists : steady dir_exists.
Proof. steady_now. Qed.

Lemma steady_mkdir : steady mkdir.
Proof. intros w. unfold mkdir, agree. destruct w as [[d|] b bw co cl t sl];
  simpl; repeat split; auto. Qed.

Lemma steady_glob_json : steady glob_json.
Proof. steady_now. Qed.

Lemma steady_json_dump (name : str) (v : json) : steady (json_dump name v).
Proof. intros w. unfold json_dump, agree. destruct w as [[d|] b bw co cl t sl];
  simpl; repeat split; auto. Qed.

Lemma steady_json_load (name : str) : steady (json_load name).
Proof.
  intros w. unfold json_load, agree. destruct w as [[d|] b bw co cl t sl]; simpl.
  - destruct (find_file name d) as [[v|e]|]; simpl; repeat split; auto.
  - repeat split; auto.
Qed.

Lemma steady_open_board : steady open_board.
Proof.
  intros w. unfold open_board, agree. destruct w as [d b [|] co cl t sl];
    simpl; repeat split; auto.
Qed.

Lemma steady_now_read : steady now.
Proof.
  intros w. unfold now, agree. simpl. repeat split; auto.
  intros c H. unfold re_clock. simpl. rewrite (H (ticks w)) by lia.
  reflexivity.
Qed.

Lemma steady_bind {A B} (m : M A) (k : A -> M B) :
  steady m -> (forall a, steady (k a)) -> steady (bind m k).
Proof.
  intros Hm Hk w. unfold bind.
  destruct (Hm w) as (W1 & C1 & T1 & R1).
  destruct (m w) as [w1 [a|e]] eqn:E; simpl in *.
  - destruct (Hk a w1) as (W2 & C2 & T2 & R2).
    repeat split; try congruence; try lia.
    intros c H. rewrite R1.
    + rewrite R2; [reflexivity|].
      intros i Hi. rewrite C1. apply H. lia.
    + intros i Hi. apply H. lia.
  - repeat split; auto. intros c H. rewrite (R1 c H). reflexivity.
Qed.

Lemma steady_catch {A} (m : M A) (handles : exn -> bool) (h : exn -> M A) :
  steady m -> (forall e, steady (h e)) -> steady (catch m handles h).
Proof.
  intros Hm Hh w. unfold catch.
  destruct (Hm w) as (W1 & C1 & T1 & R1).
  destruct (m w) as [w1 [a|e]] eqn:E; simpl in *.
  - repeat split; auto. intros c H. rewrite (R1 c H). reflexivity.
  - destruct (handles e) eqn:He.
    + destruct (Hh e w1) as (W2 & C2 & T2 & R2).
      repeat split; try congruence; try lia.
      intros c H. rewrite R1.
      * rewrite He, R2; [reflexivity|].
        intros i Hi. rewrite C1. apply H. lia.
      * intros i Hi. apply H. lia.
    + repeat split; auto. intros c H. rewrite (R1 c H), He. reflexivity.
Qed.

Lemma steady_forM {A} (l : list A) (body : A -> M unit) :
  (forall a, steady (body a)) -> steady (forM_ l body).
Proof.
  intros H. induction l as [|a l IH]; simpl.
  - apply steady_ret.
  - apply steady_bind; [apply H | intros _; exact IH].
Qed.

Lemma steady_when (b : bool) (c : M unit) : steady c -> steady (when b c).
Proof. intros H. destruct b; [exact H | apply steady_ret]. Qed.

Create HintDb steady.
#[local] Hint Resolve steady_ret steady_lift steady_print steady_write
  steady_dir_exists steady_mkdir steady_glob_json steady_json_dump
  steady_json_load steady_open_board steady_now_read steady_forM
  steady_when : steady.

Ltac steady_step :=
  repeat first
    [ solve [auto with steady]
    | apply steady_bind; [|intros ?]
    | apply steady_catch; [|intros ?]
    | apply steady_forM; intros ?
    | apply steady_when ].

Section Script.
Variable rt : Runtime.

Lemma steady_safe_json_load (name : str) : steady (safe_json_load rt name).
Proof. unfold safe_json_load. steady_step. Qed.

Lemma steady_create_system_status : steady (create_system_status rt).
Proof. unfold create_system_status. steady_step. Qed.

Lemma steady_ensure_status_dir : steady (ensure_status_dir rt).
Proof.
  unfold ensure_status_dir. apply steady_bind; [auto with steady|].
  intros [|]; [auto with steady|].
  pose proof steady_create_system_status. steady_step.
Qed.

Lemma steady_load_files (names : list str) : steady (load_files rt names).
Proof.
  induction names as [|n names IH]; simpl; [auto with steady|].
  pose proof (steady_safe_json_load n). steady_step.
Qed.

Lemma steady_load_agents : steady (load_agents rt).
Proof.
  unfold load_agents. apply steady_bind; [auto with steady|].
  intros [|n names]; [|apply steady_load_files].
  pose proof steady_create_system_status. steady_step.
Qed.

Lemma steady_duration_cell (d : dict) : steady (duration_cell rt d).
Proof.
  unfold duration_cell.
  destruct (truthy _); [|auto with steady].
  destruct (get d (u "started") JNull); auto with steady.
  destruct (fromisoformat rt _); [|auto with steady].
  steady_step.
Qed.

Lemma steady_active_row (d : dict) : steady (active_row rt d).
Proof.
  unfold active_row. pose proof (steady_duration_cell d). steady_step.
Qed.

Lemma steady_render (agents : list dict) : steady (render rt agents).
Proof.
  unfold render, active_section, blocked_section, idle_section,
    completed_section, statistics_section, lane_section.
  pose proof steady_active_row.
  unfold blocked_row, idle_row, completed_row, lane_row.
  steady_step.
Qed.

Lemma steady_aggregate_status : steady (aggregate_status rt).
Proof.
  unfold aggregate_status, summary.
  pose proof steady_ensure_status_dir. pose proof steady_load_agents.
  pose proof steady_render. steady_step.
Qed.

Lemma steady_report_error (e : exn) : steady (report_error rt e).
Proof. unfold report_error. steady_step. Qed.

End Script.

End Steady.

(** ** The loader *)
Module LoadFacts.
Import Py Aggregator Spec StrFacts RenderFacts.
Local Open Scope m_scope.

Lemma console_eta (w : World) : set_console (console w ++ []) w = w.
Proof. destruct w. unfold set_console. simpl. rewrite app_nil_r. reflexivity. Qed.

Section Loader.
Variable rt : Runtime.

Lemma json_load_read (entries : list (str * file)) (name : str) (w : World) :
  status_dir w = Some entries ->
  json_load name w = (w, read_of entries name).
Proof.
  intros H. unfold json_load, read_of. rewrite H.
  destruct (find_file name entries) as [[v|e]|]; reflexivity.
Qed.

Lemma safe_json_load_read (entries : list (str * file)) (name : str)
      (w : World) :
  status_dir w = Some entries ->
  safe_json_load rt name w
  = match read_of entries name with
    | Ok v => (w, Ok v)
    | Raise e =>
        if caught_by_loader e
        then (set_console (console w ++ [warning rt name e]) w, Ok JNull)
        else (w, Raise e)
    end.
Proof.
  intros H. unfold safe_json_load, catch.
  rewrite (json_load_read _ _ H).
  destruct (read_of entries name) as [v|e]; [reflexivity|].
  destruct (caught_by_loader e); reflexivity.
Qed.

(** The loader prints the warnings and touches nothing else. *)
Lemma load_files_outcome (entries : list (str * file)) (names : list str)
      (w : World) :
  status_dir w = Some entries ->
  load_files rt names w
  = (set_console (console w ++ fst (load_outcome rt entries names)) w,
     snd (load_outcome rt entries names)).
Proof.
  revert w. induction names as [|n names IH]; intros w H.
  - simpl. rewrite console_eta. reflexivity.
  - cbn [load_files load_outcome]. unfold bind at 1.
    rewrite (safe_json_load_read _ _ H).
    destruct (read_of entries n) as [v|e].
    + unfold bind. rewrite (IH w H). cbn [fst snd].
      destruct (snd (load_outcome rt entries names)); reflexivity.
    + destruct (caught_by_loader e); [|rewrite console_eta; reflexivity].
      unfold bind. rewrite IH by exact H. cbn [fst snd].
      unfold set_console. simpl. rewrite <- app_assoc. simpl.
      destruct (snd (load_outcome rt entries names)); reflexivity.
Qed.

(** A file that holds a falsy value leaves no trace. *)
Lemma load_outcome_falsy (entries : list (str * file)) (before after : list str)
      (name : str) (v : json) :
  read_of entries name = Ok v -> truthy v = false ->
  load_outcome rt entries (before ++ name :: after)
  = load_outcome rt entries (before ++ after).
Proof.
  intros R F. induction before as [|n before IH].
  - simpl. rewrite R, F.
    destruct (load_outcome rt entries after) as [ws [agents|e]]; reflexivity.
  - simpl. rewrite IH. reflexivity.
Qed.

(** A truthy value that is loaded is among the agents, unless loading
    fails. *)
Lemma load_outcome_keeps (entries : list (str * file)) (names : list str)
      (name : str) (v : json) (agents : list json) :
  In name names -> read_of entries name = Ok v -> truthy v = true ->
  snd (load_outcome rt entries names) = Ok agents -> In v agents.
Proof.
  intros H R T. revert agents. induction names as [|n names IH];
    [destruct H|].
  intros agents. simpl.
  destruct (read_of entries n) as [x|e] eqn:Rn.
  - cbn [snd]. destruct (snd (load_outcome rt entries names)) as [rest|e];
      [|discriminate].
    simpl. intros [= <-]. destruct H as [->|H].
    + rewrite R in Rn. injection Rn as <-. rewrite T. left. reflexivity.
    + specialize (IH H rest eq_refl).
      destruct (truthy x); [right|]; exact IH.
  - destruct (caught_by_loader e); [|discriminate].
    cbn [snd]. intros E. destruct H as [->|H]; [congruence|].
    apply IH; assumption.
Qed.

(** Files that are all tolerated load into records of the data model. *)
Lemma load_outcome_tolerated (entries : list (str * file)) (names : list str) :
  forallb (fun n => tolerated (read_of entries n)) names = true ->
  snd (load_outcome rt entries names)
  = Ok (map JObj (records_of entries names))
  /\ Forall (fun d => text_fields d = true) (records_of entries names).
Proof.
  induction names as [|n names IH]; intros H; simpl.
  - split; [reflexivity | constructor].
  - simpl in H. apply andb_true_iff in H as [Hn H].
    destruct (IH H) as [E F]. unfold tolerated in Hn.
    destruct (read_of entries n) as [v|e].
    + cbn [snd]. rewrite E. simpl.
      destruct (truthy v) eqn:T.
      * simpl in Hn. destruct v; try discriminate.
        simpl in T. rewrite T. split; [reflexivity|]. simpl.
        constructor; assumption.
      * destruct v; try (split; [reflexivity | assumption]).
        simpl in T. rewrite T. split; [reflexivity | assumption].
    + rewrite Hn. cbn [snd]. split; assumption.
Qed.

End Loader.

End LoadFacts.

(** ** A whole run *)
Module RunFacts.
Import Py Aggregator Spec StrFacts RenderFacts BoardFacts LoadFacts.
Local Open Scope m_scope.

Lemma find_file_absent (name : str) (entries : list (str * file)) :
  ~ In name (map fst entries) -> find_file name entries = None.
Proof.
  induction entries as [|[n g] entries IH]; intros H; simpl; [reflexivity|].
  destruct (str_eqb name n) eqn:E.
  - apply str_eqb_eq in E. subst. exfalso. apply H. left. reflexivity.
  - apply IH. intros F. apply H. right. exact F.
Qed.

(** A file that is new is listed at the place it is given. *)
Lemma put_file_fresh (place : nat) (name : str) (f : file)
      (entries : list (str * file)) :
  ~ In name (map fst entries) ->
  put_file place name f entries = insert_at place (name, f) entries.
Proof.
  intros H. unfold put_file. rewrite (@find_file_absent name entries H).
  reflexivity.
Qed.

Lemma insert_at_nil {A} (n : nat) (x : A) : insert_at n x [] = [x].
Proof. destruct n; reflexivity. Qed.

(** Wherever it is listed, the new entry is one more entry. *)
Lemma insert_at_perm {A} (n : nat) (x : A) (l : list A) :
  Permutation (insert_at n x l) (x :: l).
Proof.
  unfold insert_at. rewrite <- (firstn_skipn n l) at 3.
  apply Permutation_sym, Permutation_middle.
Qed.

Lemma no_record_file (entries : list (str * file)) (name : str) :
  record_files entries = [] -> is_json_name name = true ->
  ~ In name (map fst entries).
Proof.
  unfold record_files. intros H J F.
  assert (In name (filter is_json_name (map fst entries))) as G
      by (apply filter_In; split; assumption).
  rewrite H in G. destruct G.
Qed.

Section Run.
Variable rt : Runtime.

Lemma summary_lines_printed (agents : list dict) (w : World) :
  summary agents w
  = (set_console (console w ++ summary_lines agents) w, Ok tt).
Proof.
  unfold summary, bind, print, summary_lines, set_console. simpl.
  rewrite <- !app_assoc. reflexivity.
Qed.

Lemma ensure_present (entries : list (str * file)) (w : World) :
  status_dir w = Some entries -> ensure_status_dir rt w = (w, Ok tt).
Proof.
  intros H. unfold ensure_status_dir, bind, dir_exists. rewrite H.
  reflexivity.
Qed.

Lemma ensure_absent (w : World) :
  status_dir w = None -> ensure_status_dir rt w = (bootstrapped rt w, Ok tt).
Proof.
  intros H. unfold ensure_status_dir, bind, dir_exists. rewrite H.
  unfold print, mkdir, create_system_status, bind, now, ret, json_dump.
  simpl. rewrite H. simpl.
  rewrite (@put_file_fresh _ _ _ [] (fun F => F)), insert_at_nil.
  unfold bootstrapped, set_console. simpl.
  rewrite <- app_assoc. reflexivity.
Qed.

Lemma load_agents_empty (entries : list (str * file)) (w : World) :
  status_dir w = Some entries -> record_files entries = [] ->
  load_agents rt w
  = (seeded rt entries w, Ok [JObj (system_status_at rt (clock w (ticks w)))]).
Proof.
  intros H E. unfold load_agents, bind at 1, glob_json. rewrite H.
  fold (record_files entries). rewrite E.
  unfold print, create_system_status, bind, now, ret, json_dump. simpl.
  rewrite H. simpl.
  rewrite put_file_fresh by (apply no_record_file; [exact E | reflexivity]).
  reflexivity.
Qed.

Lemma load_agents_listing (entries : list (str * file)) (w : World) :
  status_dir w = Some entries -> record_files entries <> [] ->
  load_agents rt w = load_files rt (record_files entries) w.
Proof.
  intros H E. unfold load_agents, bind at 1, glob_json. rewrite H.
  fold (record_files entries).
  destruct (record_files entries); [contradiction | reflexivity].
Qed.

(** From the sort on, for records of the data model. *)
Lemma finish_typed (ds : list dict) (w : World) :
  Forall (fun d => text_fields d = true) ds -> board_writable w = true ->
  (agents <- lift (sort_agents (map JObj ds)) ;;
   render rt agents ;; summary agents) w
  = (let agents := sorted_agents ds in
     set_console (console w ++ summary_lines agents)
       (st w (S (ticks w) + clock_reads rt (active_of agents))
           (board_chunks rt (clock w) (ticks w) agents)),
     Ok tt).
Proof.
  intros T W. unfold bind at 1, lift.
  rewrite SorterFacts.sort_agents_sortable.
  - assert (Forall (fun d => text_fields d = true)
                   (sorted_agents ds)) as T'.
    { apply (Permutation_Forall (SorterFacts.sorted_agents_perm ds)).
      exact T. }
    rewrite (bind_ok _ _ _ (@render_typed rt _ _ T' W)).
    rewrite summary_lines_printed. reflexivity.
  - apply Forall_forall. intros d Hd. apply text_fields_sortable.
    rewrite Forall_forall in T. apply T. exact Hd.
Qed.

(** A run over a directory that has record files. *)
Lemma aggregate_listing (entries : list (str * file)) (w : World) :
  status_dir w = Some entries -> record_files entries <> [] ->
  aggregate_status rt w
  = let o := load_outcome rt entries (record_files entries) in
    let w1 := set_console (console w ++ fst o) w in
    match snd o with
    | Ok loaded =>
        (agents <- lift (sort_agents loaded) ;;
         render rt agents ;; summary agents) w1
    | Raise e => (w1, Raise e)
    end.
Proof.
  intros H E. unfold aggregate_status.
  rewrite (bind_ok _ _ _ (@ensure_present entries w H)).
  unfold bind at 1. rewrite (@load_agents_listing entries w H E).
  rewrite (load_files_outcome rt _ _ H). cbv zeta.
  destruct (snd (load_outcome rt entries (record_files entries)));
    reflexivity.
Qed.

(** The placeholder is a record of the data model. *)
Lemma system_text_fields (t : Z) : text_fields (system_status_at rt t) = true.
Proof.
  unfold text_fields, system_status_at. cbn [forallb snd].
  rewrite (utc_stamp_encodable rt t). reflexivity.
Qed.

(** The end of a run that is left with the placeholder alone. *)
Lemma finish_placeholder (t : Z) (w : World) :
  board_writable w = true ->
  (agents <- lift (sort_agents [JObj (system_status_at rt t)]) ;;
   render rt agents ;; summary agents) w
  = (set_console (console w ++ summary_lines [system_status_at rt t])
       (st w (S (ticks w))
           (placeholder_board rt (clock w (ticks w)) (system_status_at rt t))),
     Ok tt).
Proof.
  intros W.
  change [JObj (system_status_at rt t)]
    with (map JObj [system_status_at rt t]).
  rewrite finish_typed;
    [|constructor; [apply system_text_fields | constructor] | exact W].
  cbv zeta.
  change (sorted_agents [system_status_at rt t])
    with [system_status_at rt t].
  change (clock_reads rt (active_of [system_status_at rt t])) with 0.
  rewrite Nat.add_0_r. reflexivity.
Qed.

Lemma aggregate_absent (w : World) :
  status_dir w = None -> board_writable w = true ->
  aggregate_status rt w
  = (let system := system_status_at rt (clock w (ticks w)) in
     set_console (console (bootstrapped rt w) ++ summary_lines [system])
       (st (bootstrapped rt w) (S (S (ticks w)))
           (placeholder_board rt (clock w (S (ticks w))) system)),
     Ok tt).
Proof.
  intros H W. unfold aggregate_status.
  rewrite (bind_ok _ _ _ (@ensure_absent w H)).
  set (system := system_status_at rt (clock w (ticks w))).
  assert (load_agents rt (bootstrapped rt w)
          = (bootstrapped rt w, Ok [JObj system])) as L.
  { rewrite (@load_agents_listing [(system_name, Loads (JObj system))]
               (bootstrapped rt w) eq_refl) by discriminate.
    rewrite (@load_files_outcome rt [(system_name, Loads (JObj system))]
               _ (bootstrapped rt w) eq_refl).
    change (load_outcome rt [(system_name, Loads (JObj system))]
              (record_files [(system_name, Loads (JObj system))]))
      with (@nil str, Ok [JObj system]).
    cbn [fst snd]. rewrite console_eta. reflexivity. }
  rewrite (bind_ok _ _ _ L). subst system.
  rewrite (@finish_placeholder _ (bootstrapped rt w) W). reflexivity.
Qed.

Lemma aggregate_empty (entries : list (str * file)) (w : World) :
  status_dir w = Some entries -> record_files entries = [] ->
  board_writable w = true ->
  aggregate_status rt w
  = (let system := system_status_at rt (clock w (ticks w)) in
     set_console (console (seeded rt entries w) ++ summary_lines [system])
       (st (seeded rt entries w) (S (S (ticks w)))
           (placeholder_board rt (clock w (S (ticks w))) system)),
     Ok tt).
Proof.
  intros H E W. unfold aggregate_status.
  rewrite (bind_ok _ _ _ (@ensure_present entries w H)).
  rewrite (bind_ok _ _ _ (@load_agents_empty entries w H E)).
  rewrite (@finish_placeholder _ (seeded rt entries w) W). reflexivity.
Qed.

Lemma report_error_writable (e : exn) (w : World) :
  board_writable w = true ->
  report_error rt e w
  = (st (set_console
           (console w ++ [u "Error aggregating status: " ++ exn_text rt e]) w)
        (S (ticks w)) (error_document rt e (clock w (ticks w))), Ok tt).
Proof.
  intros W. unfold report_error.
  set (w1 := set_console
               (console w ++ [u "Error aggregating status: " ++ exn_text rt e])
               w).
  assert (print (u "Error aggregating status: " ++ exn_text rt e) w
          = (w1, Ok tt)) as P by reflexivity.
  rewrite (bind_ok _ _ _ P).
  rewrite (bind_ok _ _ _ (@open_board_st w1 W)).
  rewrite (bind_ok _ _ _ (@write_st title _ _ _ eq_refl)).
  rewrite (bind_ok _ _ _ (@write_st _ _ _ _ (error_line_encodable rt e))).
  rewrite (bind_ok _ _ _ (now_st _ _ _)).
  rewrite (@write_st _ _ _ _ (attempt_line_encodable rt _)). reflexivity.
Qed.

Lemma report_error_unwritable (e : exn) (w : World) :
  board_writable w = false ->
  report_error rt e w
  = (set_console
       (console w ++ [u "Error aggregating status: " ++ exn_text rt e]) w,
     Raise (OSError board_name)).
Proof.
  intros W. unfold report_error, bind, print, open_board. simpl.
  rewrite W. reflexivity.
Qed.

(** The run once the aggregation has raised. *)
Lemma main_after_failure (w w1 : World) (e : exn) :
  aggregate_status rt w = (w1, Raise e) ->
  let reported :=
    set_console
      (console w1 ++ [u "Error aggregating status: " ++ exn_text rt e]) w1 in
  exit_status (snd (main rt w)) = 1%Z
  /\ (board_writable w = true ->
      main rt w
      = (set_ticks (S (ticks w1))
           (set_board (Some (error_document rt e (clock w (ticks w1))))
                      reported),
         Exited 1))
  /\ (board_writable w = false ->
      main rt w = (reported, Uncaught (OSError board_name))).
Proof.
  intros E reported.
  destruct (Steady.steady_aggregate_status rt w) as (SW & SC & _).
  rewrite E in SW, SC. cbn [fst] in SW, SC.
  unfold main. rewrite E.
  destruct (board_writable w) eqn:W.
  - rewrite (@report_error_writable e w1 SW). rewrite SC.
    split; [reflexivity|]. split; [reflexivity | discriminate].
  - rewrite (@report_error_unwritable e w1 SW).
    split; [reflexivity|]. split; [discriminate | reflexivity].
Qed.

End Run.

End RunFacts.

(** ** The two halves of a run *)
Module PhaseFacts.
Import Py Aggregator Spec Examples.
Local Open Scope m_scope.
Import StrFacts RenderFacts LoadFacts RunFacts.

Lemma set_board_eta (w : World) : set_board (board w) w = w.
Proof. destruct w. reflexivity. Qed.

Section Phases.
Variable rt : Runtime.

Lemma aggregate_status_phases (w : World) :
  aggregate_status rt w = (agents <- prepare rt ;; publish rt agents) w.
Proof.
  unfold aggregate_status, prepare, publish, bind.
  destruct (ensure_status_dir rt w) as [w1 [[]|e]]; [|reflexivity].
  destruct (load_agents rt w1) as [w2 [loaded|e]]; [|reflexivity].
  unfold lift. destruct (sort_agents loaded); reflexivity.
Qed.

Lemma main_phases (w : World) :
  main rt w
  = match prepare rt w with
    | (w1, Ok agents) =>
        match publish rt agents w1 with
        | (w2, Ok _) => (w2, Exited 0)
        | (w2, Raise e) =>
            match report_error rt e w2 with
            | (w3, Ok _) => (w3, Exited 1)
            | (w3, Raise e') => (w3, Uncaught e')
            end
        end
    | (w1, Raise e) =>
        match report_error rt e w1 with
        | (w2, Ok _) => (w2, Exited 1)
        | (w2, Raise e') => (w2, Uncaught e')
        end
    end.
Proof.
  unfold main. rewrite aggregate_status_phases. unfold bind.
  destruct (prepare rt w) as [w1 [agents|e]]; reflexivity.
Qed.

Lemma steady_prepare : steady (prepare rt).
Proof.
  unfold prepare.
  apply Steady.steady_bind; [apply Steady.steady_ensure_status_dir|].
  intros _. apply Steady.steady_bind; [apply Steady.steady_load_agents|].
  intros loaded. apply Steady.steady_lift.
Qed.

Lemma prepare_writable (w : World) :
  board_writable (fst (prepare rt w)) = board_writable w.
Proof. destruct (steady_prepare w) as (W & _). exact W. Qed.

End Phases.
End PhaseFacts.

(** ** What the first half leaves alone *)
Module BoardFree.
Import Py Aggregator Spec Examples.
Local Open Scope m_scope.
Import PhaseFacts.

Ltac free_now := intros b [[?|] [?|] [|] ? ? ? ?]; reflexivity.

Lemma board_free_ret {A} (a : A) : board_free (ret a).
Proof. free_now. Qed.

Lemma board_free_lift {A} (r : result A) : board_free (lift r).
Proof. free_now. Qed.

Lemma board_free_print (line : str) : board_free (print line).
Proof. free_now. Qed.

Lemma board_free_now : board_free now.
Proof. free_now. Qed.

Lemma board_free_dir_exists : board_free dir_exists.
Proof. free_now. Qed.

Lemma board_free_mkdir : board_free mkdir.
Proof. free_now. Qed.

Lemma board_free_glob_json : board_free glob_json.
Proof. free_now. Qed.

Lemma board_free_json_dump (name : str) (v : json) :
  board_free (json_dump name v).
Proof. free_now. Qed.

Lemma board_free_json_load (name : str) : board_free (json_load name).
Proof.
  intros b [[d|] ? ? ? ? ? ?]; unfold json_load; cbn; [|reflexivity].
  destruct (find_file name d) as [[v|e]|]; reflexivity.
Qed.

Lemma board_free_bind {A B} (m : M A) (k : A -> M B) :
  board_free m -> (forall a, board_free (k a)) -> board_free (bind m k).
Proof.
  intros Hm Hk b w. unfold bind. rewrite (Hm b w).
  destruct (m w) as [w1 [a|e]]; cbn [fst snd]; [apply Hk | reflexivity].
Qed.

Lemma board_free_catch {A} (m : M A) (handles : exn -> bool)
      (h : exn -> M A) :
  board_free m -> (forall e, board_free (h e)) -> board_free (catch m handles h).
Proof.
  intros Hm Hh b w. unfold catch. rewrite (Hm b w).
  destruct (m w) as [w1 [a|e]]; cbn [fst snd]; [reflexivity|].
  destruct (handles e); [apply Hh | reflexivity].
Qed.

Create HintDb board_free.
#[local] Hint Resolve board_free_ret board_free_lift board_free_print
  board_free_now board_free_dir_exists board_free_mkdir board_free_glob_json
  board_free_json_dump board_free_json_load : board_free.

Ltac free_step :=
  repeat first
    [ solve [auto with board_free]
    | apply board_free_bind; [|intros ?]
    | apply board_free_catch; [|intros ?] ].

Section Script.
Variable rt : Runtime.

Lemma board_free_create_system_status : board_free (create_system_status rt).
Proof. unfold create_system_status. free_step. Qed.

Lemma board_free_ensure_status_dir : board_free (ensure_status_dir rt).
Proof.
  unfold ensure_status_dir. apply board_free_bind; [auto with board_free|].
  intros [|]; [auto with board_free|].
  pose proof board_free_create_system_status. free_step.
Qed.

Lemma board_free_load_files (names : list str) :
  board_free (load_files rt names).
Proof.
  induction names as [|n names IH]; simpl; [auto with board_free|].
  unfold safe_json_load. free_step.
Qed.

Lemma board_free_load_agents : board_free (load_agents rt).
Proof.
  unfold load_agents. apply board_free_bind; [auto with board_free|].
  intros [|n names]; [|apply board_free_load_files].
  pose proof board_free_create_system_status. free_step.
Qed.

Lemma board_free_prepare : board_free (prepare rt).
Proof.
  unfold prepare.
  pose proof board_free_ensure_status_dir. pose proof board_free_load_agents.
  free_step.
Qed.

(** The board is as it was when the first half is over. *)
Lemma prepare_board (w : World) : board (fst (prepare rt w)) = board w.
Proof.
  pose proof (board_free_prepare (board w) w) as H.
  rewrite set_board_eta in H.
  destruct (prepare rt w) as [w1 r]. cbn [fst snd] in *.
  injection H as H. rewrite H at 1. reflexivity.
Qed.

(** Opening the board forgets what it held. *)
Lemma bind_first {A B} (m : M A) (k : A -> M B) (w w' : World) :
  m w = m w' -> bind m k w = bind m k w'.
Proof. intros H. unfold bind. rewrite H. reflexivity. Qed.

Lemma open_board_overwrites (b : option (list str)) (w : World) :
  board_writable w = true -> open_board (set_board b w) = open_board w.
Proof.
  intros W. unfold open_board. cbn [board_writable set_board].
  rewrite W. reflexivity.
Qed.

Lemma publish_overwrites (agents : list dict) (b : option (list str))
      (w : World) :
  board_writable w = true ->
  publish rt agents (set_board b w) = publish rt agents w.
Proof.
  intros W. unfold publish, render. do 2 apply bind_first.
  apply open_board_overwrites. exact W.
Qed.

Lemma publish_unwritable (agents : list dict) (w : World) :
  board_writable w = false ->
  publish rt agents w = (w, Raise (OSError board_name)).
Proof.
  intros W. unfold publish. unfold bind at 1. unfold render.
  unfold bind at 1. unfold open_board. rewrite W. reflexivity.
Qed.

Lemma report_error_overwrites (e : exn) (b : option (list str)) (w : World) :
  board_writable w = true ->
  report_error rt e (set_board b w) = report_error rt e w.
Proof.
  intros W. rewrite !RunFacts.report_error_writable by exact W.
  reflexivity.
Qed.

End Script.
End BoardFree.

(** ** What the renderer leaves alone *)
Module WriterFacts.
Import Py Aggregator Spec Examples.
Local Open Scope m_scope.
Import RenderFacts BoardFacts.

Lemma writer_ret {A} (a : A) : writer (ret a).
Proof.
  intros w. repeat split. intros cs H. exists []. rewrite app_nil_r. exact H.
Qed.

Lemma writer_lift {A} (r : result A) : writer (lift r).
Proof.
  intros w. repeat split. intros cs H. exists []. rewrite app_nil_r. exact H.
Qed.

Lemma writer_now : writer now.
Proof.
  intros w. repeat split. intros cs H. exists []. rewrite app_nil_r. exact H.
Qed.

Lemma writer_write (chunk : str) : writer (write chunk).
Proof.
  intros w. destruct (write_cases chunk w) as [[e E]|E]; rewrite E;
    cbn [fst]; repeat split; intros cs H.
  - exists []. rewrite app_nil_r. exact H.
  - exists [chunk]. cbn. rewrite H. reflexivity.
Qed.

Lemma writer_bind {A B} (m : M A) (k : A -> M B) :
  writer m -> (forall a, writer (k a)) -> writer (bind m k).
Proof.
  intros Hm Hk w. unfold bind.
  destruct (Hm w) as (D1 & C1 & B1).
  destruct (m w) as [w1 [a|e]]; cbn [fst snd] in *.
  - destruct (Hk a w1) as (D2 & C2 & B2).
    repeat split; try congruence.
    intros cs H. destruct (B1 cs H) as [more1 E1].
    destruct (B2 _ E1) as [more2 E2].
    exists (more1 ++ more2). rewrite app_assoc. exact E2.
  - repeat split; assumption.
Qed.

Lemma writer_forM {A} (l : list A) (body : A -> M unit) :
  (forall a, writer (body a)) -> writer (forM_ l body).
Proof.
  intros H. induction l as [|a l IH]; simpl.
  - apply writer_ret.
  - apply writer_bind; [apply H | intros _; exact IH].
Qed.

Lemma writer_when (b : bool) (c : M unit) : writer c -> writer (when b c).
Proof. intros H. destruct b; [exact H | apply writer_ret]. Qed.

Create HintDb writer.
#[local] Hint Resolve writer_ret writer_lift writer_now writer_write
  writer_forM writer_when : writer.

Ltac writer_step :=
  repeat first
    [ solve [auto with writer]
    | apply writer_bind; [|intros ?]
    | apply writer_forM; intros ?
    | apply writer_when ].

Section Script.
Variable rt : Runtime.

Lemma writer_duration_cell (d : dict) : writer (duration_cell rt d).
Proof.
  unfold duration_cell.
  destruct (truthy _); [|auto with writer].
  destruct (get d (u "started") JNull); auto with writer.
  destruct (fromisoformat rt _); [|auto with writer].
  writer_step.
Qed.

Lemma writer_active_row (d : dict) : writer (active_row rt d).
Proof.
  unfold active_row. pose proof (writer_duration_cell d). writer_step.
Qed.

(** Lines 84-184: what follows the three lines of the header. *)
Lemma writer_tables (agents : list dict) :
  writer (active_section rt (active_of agents) ;;
          blocked_section rt (blocked_of agents) ;;
          idle_section rt (idle_of agents) ;;
          completed_section rt (completed_of agents) ;;
          statistics_section (active_of agents) (blocked_of agents)
                             (idle_of agents) (completed_of agents) ;;
          lane_section rt agents).
Proof.
  unfold active_section, blocked_section, idle_section,
    completed_section, statistics_section, lane_section.
  pose proof writer_active_row.
  unfold blocked_row, idle_row, completed_row, lane_row.
  writer_step.
Qed.

Lemma render_header (agents : list dict) (w : World) :
  board_writable w = true ->
  status_dir (fst (render rt agents w)) = status_dir w
  /\ console (fst (render rt agents w)) = console w
  /\ exists rows,
       board (fst (render rt agents w))
       = Some ([title; updated_line rt (clock w (ticks w)); total_line agents]
               ++ rows).
Proof.
  intros W. unfold render.
  rewrite (bind_ok _ _ _ (open_board_st w W)).
  rewrite (bind_ok _ _ _ (@write_st title _ _ _ eq_refl)).
  rewrite (bind_ok _ _ _ (now_st _ _ _)).
  rewrite (bind_ok _ _ _ (@write_st _ _ _ _ (updated_line_encodable rt _))).
  rewrite (bind_ok _ _ _ (@write_st _ _ _ _ (total_line_encodable agents))).
  destruct (writer_tables agents
              (st w (S (ticks w))
                  ((([] ++ [title]) ++ [updated_line rt (clock w (ticks w))])
                   ++ [total_line agents])))
    as (D & C & B).
  split; [exact D|]. split; [exact C|].
  apply (B _ eq_refl).
Qed.

Lemma render_dir (agents : list dict) (w : World) :
  status_dir (fst (render rt agents w)) = status_dir w.
Proof.
  destruct (board_writable w) eqn:W.
  - apply render_header. exact W.
  - unfold render. unfold bind at 1. unfold open_board. rewrite W.
    reflexivity.
Qed.

Lemma publish_dir (agents : list dict) (w : World) :
  status_dir (fst (publish rt agents w)) = status_dir w.
Proof.
  unfold publish, bind. pose proof (render_dir agents w) as R.
  destruct (render rt agents w) as [w1 [[]|e]]; cbn [fst] in *; [|exact R].
  rewrite RunFacts.summary_lines_printed. exact R.
Qed.

Lemma report_error_dir (e : exn) (w : World) :
  status_dir (fst (report_error rt e w)) = status_dir w.
Proof.
  destruct (board_writable w) eqn:W.
  - rewrite (@RunFacts.report_error_writable rt e w W). reflexivity.
  - rewrite (@RunFacts.report_error_unwritable rt e w W). reflexivity.
Qed.

(** The directory is as the first half leaves it. *)
Lemma main_dir (w : World) :
  status_dir (fst (main rt w)) = status_dir (fst (prepare rt w)).
Proof.
  rewrite PhaseFacts.main_phases.
  destruct (prepare rt w) as [w1 [agents|e]]; cbn [fst].
  - pose proof (publish_dir agents w1) as P.
    destruct (publish rt agents w1) as [w2 [[]|e]]; cbn [fst] in *;
      [exact P|].
    pose proof (report_error_dir e w2) as R.
    destruct (report_error rt e w2) as [w3 [[]|e']]; cbn [fst] in *;
      congruence.
  - pose proof (report_error_dir e w1) as R.
    destruct (report_error rt e w1) as [w3 [[]|e']]; cbn [fst] in *;
      congruence.
Qed.

Lemma load_files_dir (entries : list (str * file)) (names : list str)
      (w : World) :
  status_dir w = Some entries ->
  status_dir (fst (load_files rt names w)) = Some entries.
Proof.
  intros D. rewrite (@LoadFacts.load_files_outcome rt entries names w D).
  exact D.
Qed.

Lemma prepare_dir (w : World) :
  status_dir (fst (prepare rt w))
  = Some (match status_dir w with
          | None =>
              [(system_name,
                Loads (JObj (system_status_at rt (clock w (ticks w)))))]
          | Some entries =>
              if nonempty (record_files entries) then entries
              else insert_at (slot w)
                     (system_name,
                      Loads (JObj (system_status_at rt (clock w (ticks w)))))
                     entries
          end).
Proof.
  unfold prepare.
  destruct (status_dir w) as [entries|] eqn:D.
  - rewrite (bind_ok _ _ _ (@RunFacts.ensure_present rt entries w D)).
    unfold bind.
    destruct (record_files entries) as [|n names] eqn:E.
    + rewrite (@RunFacts.load_agents_empty rt entries w D E).
      unfold lift. destruct (sort_agents _); reflexivity.
    + rewrite (@RunFacts.load_agents_listing rt entries w D)
        by (rewrite E; discriminate).
      pose proof (@load_files_dir entries (record_files entries) w D) as L.
      cbn [nonempty].
      destruct (load_files rt (record_files entries) w) as [w1 [l|e]];
        cbn [fst] in *; [|exact L].
      unfold lift. destruct (sort_agents l); exact L.
  - rewrite (bind_ok _ _ _ (@RunFacts.ensure_absent rt w D)).
    unfold bind.
    pose proof (@RunFacts.load_agents_listing rt _ (bootstrapped rt w) eq_refl)
      as L.
    rewrite L by discriminate.
    pose proof (@load_files_dir _
                  (record_files
                     [(system_name,
                       Loads (JObj (system_status_at rt (clock w (ticks w)))))])
                  (bootstrapped rt w) eq_refl) as F.
    destruct (load_files rt _ (bootstrapped rt w)) as [w1 [l|e]];
      cbn [fst] in *; [|exact F].
    unfold lift. destruct (sort_agents l); exact F.
Qed.

End Script.
End WriterFacts.

(** ** The entries of the directory that are not record files *)
Module RecordBlind.
Import Py Aggregator Spec Examples.
Local Open Scope m_scope.
Import StrFacts RenderFacts.

Lemma records_only_names (entries : list (str * file)) :
  record_files (records_only entries) = record_files entries.
Proof.
  unfold record_files, records_only.
  induction entries as [|[n f] es IH]; simpl; [reflexivity|].
  destruct (is_json_name n) eqn:E; simpl; rewrite ?E, IH; reflexivity.
Qed.

Lemma records_only_find (name : str) (entries : list (str * file)) :
  is_json_name name = true ->
  find_file name (records_only entries) = find_file name entries.
Proof.
  intros J. unfold records_only.
  induction entries as [|[n f] es IH]; simpl; [reflexivity|].
  destruct (str_eqb name n) eqn:E.
  - apply str_eqb_eq in E. subst n. rewrite J. simpl.
    rewrite str_eqb_refl. reflexivity.
  - destruct (is_json_name n); simpl; rewrite ?E; exact IH.
Qed.

Lemma records_only_none (entries : list (str * file)) :
  record_files entries = [] -> records_only entries = [].
Proof.
  unfold record_files, records_only.
  induction entries as [|[n f] es IH]; simpl; [reflexivity|].
  destruct (is_json_name n); [discriminate | exact IH].
Qed.

Lemma records_only_app (a b : list (str * file)) :
  records_only (a ++ b) = records_only a ++ records_only b.
Proof. apply filter_app. Qed.

(** In a directory without record files a new record file is the only
    one, wherever it is listed. *)
Lemma records_only_insert (place : nat) (name : str) (f : file)
      (entries : list (str * file)) :
  is_json_name name = true -> record_files entries = [] ->
  records_only (insert_at place (name, f) entries) = [(name, f)].
Proof.
  intros J R. apply records_only_none in R.
  rewrite <- (firstn_skipn place entries), records_only_app in R.
  apply app_eq_nil in R as [R1 R2].
  unfold insert_at. rewrite records_only_app, R1.
  unfold records_only at 1. cbn [filter fst app]. rewrite J.
  fold (records_only (skipn place entries)). rewrite R2. reflexivity.
Qed.

Ltac blind_now := intros [[?|] ? [|] ? ? ? ?]; reflexivity.

Lemma record_blind_ret {A} (a : A) : record_blind (ret a).
Proof. blind_now. Qed.

Lemma record_blind_lift {A} (r : result A) : record_blind (lift r).
Proof. blind_now. Qed.

Lemma record_blind_print (line : str) : record_blind (print line).
Proof. blind_now. Qed.

Lemma record_blind_now : record_blind now.
Proof. blind_now. Qed.

Lemma record_blind_write (chunk : str) : record_blind (write chunk).
Proof.
  intros w. unfold write. destruct (encode_error 0 chunk);
    destruct w as [[?|] ? [|] ? ? ? ?]; reflexivity.
Qed.

Lemma record_blind_open_board : record_blind open_board.
Proof. blind_now. Qed.

Lemma record_blind_dir_exists : record_blind dir_exists.
Proof. blind_now. Qed.

Lemma record_blind_mkdir : record_blind mkdir.
Proof. blind_now. Qed.

Lemma record_blind_json_load (name : str) :
  is_json_name name = true -> record_blind (json_load name).
Proof.
  intros J [[d|] ? ? ? ? ? ?]; unfold json_load, only_records, set_status_dir;
    cbn; [|reflexivity].
  rewrite (@records_only_find _ _ J).
  destruct (find_file name d) as [[v|e]|]; reflexivity.
Qed.

Lemma record_blind_bind {A B} (m : M A) (k : A -> M B) :
  record_blind m -> (forall a, record_blind (k a)) -> record_blind (bind m k).
Proof.
  intros Hm Hk w. unfold bind. rewrite (Hm w).
  destruct (m w) as [w1 [a|e]]; cbn [fst snd]; [apply Hk | reflexivity].
Qed.

Lemma record_blind_catch {A} (m : M A) (handles : exn -> bool)
      (h : exn -> M A) :
  record_blind m -> (forall e, record_blind (h e)) ->
  record_blind (catch m handles h).
Proof.
  intros Hm Hh w. unfold catch. rewrite (Hm w).
  destruct (m w) as [w1 [a|e]]; cbn [fst snd]; [reflexivity|].
  destruct (handles e); [apply Hh | reflexivity].
Qed.

Lemma record_blind_forM {A} (l : list A) (body : A -> M unit) :
  (forall a, record_blind (body a)) -> record_blind (forM_ l body).
Proof.
  intros H. induction l as [|a l IH]; simpl.
  - apply record_blind_ret.
  - apply record_blind_bind; [apply H | intros _; exact IH].
Qed.

Lemma record_blind_when (b : bool) (c : M unit) :
  record_blind c -> record_blind (when b c).
Proof. intros H. destruct b; [exact H | apply record_blind_ret]. Qed.

Create HintDb record_blind.
#[local] Hint Resolve record_blind_ret record_blind_lift record_blind_print
  record_blind_now record_blind_write record_blind_open_board
  record_blind_dir_exists record_blind_mkdir record_blind_forM
  record_blind_when : record_blind.

Ltac blind_step :=
  repeat first
    [ solve [auto with record_blind]
    | apply record_blind_bind; [|intros ?]
    | apply record_blind_catch; [|intros ?]
    | apply record_blind_forM; intros ?
    | apply record_blind_when ].

Section Script.
Variable rt : Runtime.

Lemma record_blind_safe_json_load (name : str) :
  is_json_name name = true -> record_blind (safe_json_load rt name).
Proof.
  intros J. unfold safe_json_load.
  pose proof (@record_blind_json_load name J). blind_step.
Qed.

(** The world with the placeholder, seen without the other entries. *)
Lemma only_records_bootstrapped (w : World) :
  status_dir w = None ->
  bootstrapped rt (only_records w) = only_records (bootstrapped rt w).
Proof. destruct w as [[d|] ? ? ? ? ? ?]; [discriminate | reflexivity]. Qed.

Lemma only_records_seeded (entries : list (str * file)) (w : World) :
  record_files entries = [] ->
  seeded rt (records_only entries) (only_records w)
  = only_records (seeded rt entries w).
Proof.
  intros R. unfold seeded, only_records, set_status_dir.
  cbn [status_dir board board_writable console clock ticks slot option_map].
  rewrite (@records_only_insert (slot w) system_name _ entries eq_refl R).
  rewrite (@records_only_none entries R), RunFacts.insert_at_nil. reflexivity.
Qed.

Lemma record_blind_ensure_status_dir : record_blind (ensure_status_dir rt).
Proof.
  intros w. destruct (status_dir w) as [entries|] eqn:D.
  - assert (status_dir (only_records w) = Some (records_only entries)) as D'
        by (unfold only_records; cbn; rewrite D; reflexivity).
    rewrite (@RunFacts.ensure_present rt _ _ D).
    rewrite (@RunFacts.ensure_present rt _ _ D'). reflexivity.
  - assert (status_dir (only_records w) = None) as D'
        by (unfold only_records; cbn; rewrite D; reflexivity).
    rewrite (@RunFacts.ensure_absent rt _ D).
    rewrite (@RunFacts.ensure_absent rt _ D'). cbn [fst snd].
    rewrite (@only_records_bootstrapped w D). reflexivity.
Qed.

Lemma record_blind_load_files (names : list str) :
  Forall (fun n => is_json_name n = true) names ->
  record_blind (load_files rt names).
Proof.
  induction 1 as [|n names J F IH]; simpl; [auto with record_blind|].
  pose proof (@record_blind_safe_json_load n J). blind_step.
Qed.

Lemma glob_json_at (w : World) :
  glob_json w
  = (w, Ok (match status_dir w with
            | Some entries => record_files entries
            | None => []
            end)).
Proof. reflexivity. Qed.

Lemma record_files_json (entries : list (str * file)) :
  Forall (fun n => is_json_name n = true) (record_files entries).
Proof.
  apply Forall_forall. intros n H. apply filter_In in H. apply H.
Qed.

Lemma record_blind_load_agents : record_blind (load_agents rt).
Proof.
  intros w. destruct (status_dir w) as [entries|] eqn:D.
  - assert (status_dir (only_records w) = Some (records_only entries)) as D'
        by (unfold only_records; cbn; rewrite D; reflexivity).
    destruct (record_files entries) as [|n names] eqn:E.
    + rewrite (@RunFacts.load_agents_empty rt entries w D E).
      rewrite (@RunFacts.load_agents_empty rt (records_only entries)
                 (only_records w) D')
        by (rewrite records_only_names; exact E).
      cbn [fst snd]. rewrite (@only_records_seeded entries w E).
      unfold only_records. cbn [clock ticks set_status_dir]. reflexivity.
    + assert (record_files entries <> []) as N by (rewrite E; discriminate).
      rewrite (@RunFacts.load_agents_listing rt entries w D N).
      rewrite (@RunFacts.load_agents_listing rt (records_only entries)
                 (only_records w) D')
        by (rewrite records_only_names; exact N).
      rewrite records_only_names.
      apply (@record_blind_load_files _ (record_files_json entries)).
  - destruct w as [[d|] ? ? ? ? ? ?]; [discriminate | reflexivity].
Qed.

Lemma record_blind_prepare : record_blind (prepare rt).
Proof.
  unfold prepare.
  pose proof record_blind_ensure_status_dir.
  pose proof record_blind_load_agents. blind_step.
Qed.

Lemma record_blind_duration_cell (d : dict) : record_blind (duration_cell rt d).
Proof.
  unfold duration_cell.
  destruct (truthy _); [|auto with record_blind].
  destruct (get d (u "started") JNull); auto with record_blind.
  destruct (fromisoformat rt _); [|auto with record_blind].
  blind_step.
Qed.

Lemma record_blind_publish (agents : list dict) :
  record_blind (publish rt agents).
Proof.
  unfold publish, render, summary, active_section, blocked_section,
    idle_section, completed_section, statistics_section, lane_section,
    active_row, blocked_row, idle_row, completed_row, lane_row.
  pose proof record_blind_duration_cell. blind_step.
Qed.

Lemma record_blind_report_error (e : exn) : record_blind (report_error rt e).
Proof. unfold report_error. blind_step. Qed.

Lemma main_only_records (w : World) :
  main rt (only_records w) = (only_records (fst (main rt w)), snd (main rt w)).
Proof.
  rewrite !PhaseFacts.main_phases. rewrite (record_blind_prepare w).
  destruct (prepare rt w) as [w1 [agents|e]]; cbn [fst snd].
  - rewrite (record_blind_publish agents w1).
    destruct (publish rt agents w1) as [w2 [[]|e]]; cbn [fst snd];
      [reflexivity|].
    rewrite (record_blind_report_error e w2).
    destruct (report_error rt e w2) as [w3 [[]|e']]; reflexivity.
  - rewrite (record_blind_report_error e w1).
    destruct (report_error rt e w1) as [w3 [[]|e']]; reflexivity.
Qed.

End Script.
End RecordBlind.

(** ** One order only *)
Module OrderFacts.
Import Py Aggregator Spec Examples.
Local Open Scope m_scope.
Import StrFacts SorterFacts.

Lemma key_leb_antisym (k1 k2 : nat * str) :
  key_leb k1 k2 = true -> key_leb k2 k1 = true -> k1 = k2.
Proof.
  destruct k1 as [r1 s1], k2 as [r2 s2]. unfold key_leb. cbn [fst snd].
  intros H1 H2.
  apply orb_true_iff in H1. apply orb_true_iff in H2.
  assert (r1 = r2 /\ str_ltb s2 s1 = false /\ str_ltb s1 s2 = false)
    as (-> & A & B).
  { destruct H1 as [H1|H1], H2 as [H2|H2];
      rewrite ?Nat.ltb_lt, ?andb_true_iff, ?Nat.eqb_eq, ?negb_true_iff in *;
      try lia.
    destruct H1, H2. auto. }
  rewrite (str_ltb_total _ _ A B). reflexivity.
Qed.

Lemma ascending_unique (l1 l2 : list dict) :
  Permutation l1 l2 -> NoDup (map key_of l1) ->
  ascending key_of l1 -> ascending key_of l2 -> l1 = l2.
Proof.
  revert l2. induction l1 as [|a l1 IH]; intros l2 P N S1 S2.
  - apply Permutation_nil in P. congruence.
  - destruct l2 as [|b l2];
      [apply Permutation_sym, Permutation_nil in P; discriminate|].
    apply StronglySorted_inv in S1 as [S1 F1].
    apply StronglySorted_inv in S2 as [S2 F2].
    rewrite Forall_forall in F1, F2.
    inversion N as [|k ks NI N']; subst.
    assert (a = b) as ->.
    { assert (In a (b :: l2)) as Ia
          by (apply (Permutation_in _ P); left; reflexivity).
      assert (In b (a :: l1)) as Ib
          by (apply (Permutation_in _ (Permutation_sym P)); left; reflexivity).
      destruct Ia as [E|Ia]; [congruence|].
      destruct Ib as [E|Ib]; [congruence|].
      exfalso. apply NI.
      rewrite (key_leb_antisym _ _ (F1 _ Ib) (F2 _ Ia)).
      apply in_map. exact Ib. }
    f_equal. apply IH; try assumption.
    apply (Permutation_cons_inv P).
Qed.

Lemma sorted_agents_listing (ds ds' : list dict) :
  NoDup (map key_of ds) -> Permutation ds ds' ->
  sorted_agents ds' = sorted_agents ds.
Proof.
  intros N P. symmetry. apply ascending_unique.
  - apply (Permutation_trans (Permutation_sym (sorted_agents_perm ds))).
    apply (Permutation_trans P). apply sorted_agents_perm.
  - apply (Permutation_NoDup (Permutation_map key_of (sorted_agents_perm ds))).
    exact N.
  - apply sorted_agents_ascending.
  - apply sorted_agents_ascending.
Qed.

(** Whatever the sort returns holds the values it was given. *)
Section Kept.
Variable A : Type.
Variable lt : A -> A -> result bool.

Lemma insert_kept (x : A) (l r : list A) :
  insert lt x l = Ok r -> Permutation (x :: l) r.
Proof.
  revert r. induction l as [|y l IH]; intros r; simpl.
  - intros [= <-]. reflexivity.
  - destruct (lt y x) as [[|]|e]; simpl; try discriminate.
    + destruct (insert lt x l) as [r'|e]; simpl; [|discriminate].
      intros [= <-]. rewrite perm_swap. apply perm_skip. apply IH.
      reflexivity.
    + intros [= <-]. reflexivity.
Qed.

Lemma py_sort_kept (l r : list A) : py_sort lt l = Ok r -> Permutation l r.
Proof.
  revert r. induction l as [|x l IH]; intros r; simpl.
  - intros [= <-]. reflexivity.
  - destruct (py_sort lt l) as [r'|e]; simpl; [|discriminate].
    intros H. apply insert_kept in H.
    apply (Permutation_trans (perm_skip x (IH r' eq_refl)) H).
Qed.

End Kept.

Lemma keys_of_dicts (agents : list json) (keyed : list ((nat * json) * dict)) :
  mapM (fun a => let? k := sort_key a in let? d := as_dict a in Ok (k, d))
       agents = Ok keyed ->
  agents = map JObj (map snd keyed).
Proof.
  revert keyed. induction agents as [|a agents IH]; intros keyed; simpl.
  - intros [= <-]. reflexivity.
  - destruct (sort_key a) as [k|e]; simpl; [|discriminate].
    destruct a; simpl; try discriminate.
    destruct (mapM _ agents) as [ks|e]; simpl; [|discriminate].
    intros [= <-]. simpl. rewrite <- (IH ks eq_refl). reflexivity.
Qed.

End OrderFacts.

(** ** The sections of the board *)
Module SectionFacts.
Import Py Aggregator Spec Examples.
Local Open Scope m_scope.
Import StrFacts RenderFacts LaneFacts BoardFacts.

Lemma split_in_three {A} (p q r : A -> bool) (l : list A) :
  (forall x, (p x = true /\ q x = false /\ r x = false)
             \/ (p x = false /\ q x = true /\ r x = false)
             \/ (p x = false /\ q x = false /\ r x = true)) ->
  Permutation l (filter p l ++ filter q l ++ filter r l).
Proof.
  intros H. induction l as [|x l IH]; simpl; [constructor|].
  destruct (H x) as [(-> & -> & ->)|[(-> & -> & ->)|(-> & -> & ->)]].
  - simpl. apply perm_skip. exact IH.
  - apply Permutation_cons_app. exact IH.
  - rewrite app_assoc. apply Permutation_cons_app.
    rewrite <- app_assoc. exact IH.
Qed.

Lemma filter_within {A} (p q : A -> bool) (l : list A) :
  (forall x, q x = true -> p x = true) ->
  filter q (filter p l) = filter q l.
Proof.
  intros H. induction l as [|x l IH]; simpl; [reflexivity|].
  destruct (p x) eqn:P; simpl; [rewrite IH; reflexivity|].
  destruct (q x) eqn:Q; [|exact IH].
  rewrite (H x Q) in P. discriminate.
Qed.

(** A status falls in one of the three sections. *)
Lemma status_class (v : json) :
  (negb (is_in v [u "idle"; u "completed"]) = true
   /\ py_eq v (JStr (u "idle")) = false
   /\ py_eq v (JStr (u "completed")) = false)
  \/ (negb (is_in v [u "idle"; u "completed"]) = false
      /\ py_eq v (JStr (u "idle")) = true
      /\ py_eq v (JStr (u "completed")) = false)
  \/ (negb (is_in v [u "idle"; u "completed"]) = false
      /\ py_eq v (JStr (u "idle")) = false
      /\ py_eq v (JStr (u "completed")) = true).
Proof.
  unfold is_in. cbn [existsb]. rewrite !py_eq_str.
  destruct v; try (left; repeat split; reflexivity).
  destruct (str_eqb s (u "idle")) eqn:I.
  - apply str_eqb_eq in I. subst s. right. left. repeat split.
  - destruct (str_eqb s (u "completed")) eqn:C.
    + right. right. repeat split.
    + left. repeat split.
Qed.

Lemma blocked_is_active (v : json) :
  py_eq v (JStr (u "blocked")) = true ->
  negb (is_in v [u "idle"; u "completed"]) = true.
Proof.
  rewrite py_eq_str. destruct v; try discriminate.
  intros E. apply str_eqb_eq in E. subst s. reflexivity.
Qed.

(** A status that is compared with a string literal. *)
Lemma status_is (d : dict) (s : str) :
  py_eq (status_of d) (JStr s) = true <-> lookup (u "status") d = Some (JStr s).
Proof.
  unfold status_of, get. rewrite py_eq_str.
  destruct (lookup (u "status") d) as [v|]; [|split; discriminate].
  destruct v; try (split; discriminate).
  rewrite str_eqb_eq. split; congruence.
Qed.

End SectionFacts.

(** ** Rows that cannot be written *)
Module RowFacts.
Import Py Aggregator Spec Examples.
Local Open Scope m_scope.
Import RenderFacts.

Lemma bind_lift {A B} (r : result A) (k : A -> M B) (w : World) :
  bind (lift r) k w
  = match r with
    | Ok a => k a w
    | Raise e => (w, Raise e)
    end.
Proof. destruct r; reflexivity. Qed.

Lemma slice_cases (n : nat) (v : json) :
  (sliceable v = true /\ exists v', slice n v = Ok v')
  \/ (sliceable v = false /\ slice n v = Raise (NotSubscriptable (type_of v))).
Proof.
  destruct v; simpl;
    try (right; split; reflexivity);
    left; (split; [reflexivity | eexists; reflexivity]).
Qed.

(** A write returns exactly when the chunk can be encoded. *)
Lemma write_returns (c : str) (w : World) :
  snd (write c w) = Ok tt <-> encodable c = true.
Proof.
  unfold write. destruct (encodable c) eqn:E.
  - rewrite (@Utf8.encode_error_encodable c 0 E). split; reflexivity.
  - destruct (@Utf8.encode_error_surrogate c 0 E) as (x & a & b & ->).
    split; discriminate.
Qed.

Lemma write_fails (c : str) (w : World) (e : exn) :
  snd (write c w) = Raise e -> fst (write c w) = w.
Proof.
  unfold write. destruct (encode_error 0 c); [reflexivity | discriminate].
Qed.

Section Rows.
Variable rt : Runtime.

Lemma duration_cell_returns (d : dict) (w : World) :
  exists w' s,
    duration_cell rt d w = (w', Ok s) /\ board w' = board w
    /\ encodable s = true.
Proof.
  unfold duration_cell.
  destruct (truthy _); [|eexists; eexists; repeat split; reflexivity].
  destruct (get d (u "started") JNull);
    try (eexists; eexists; repeat split; reflexivity).
  destruct (fromisoformat rt _) as [[t0|t0]|];
    eexists; eexists; (split; [reflexivity|]); split; try reflexivity.
  apply Utf8.encodable_before_dot, Utf8.encodable_td_str.
Qed.

(** The marker of a row is an emoji. *)
Lemma status_emoji_encodable (v : json) (m : str) :
  table_get status_emoji_table v [10067%N] = Ok m -> encodable m = true.
Proof.
  unfold table_get. destruct v; try (intros [= <-]; reflexivity);
    try discriminate.
  unfold status_emoji_table. cbn [find fst snd].
  repeat match goal with
         | |- context [str_eqb s ?l] => destruct (str_eqb s l)
         end; intros [= <-]; reflexivity.
Qed.

End Rows.
End RowFacts.

(** ** Lanes that are not all strings *)
Module MixedLanes.
Import Py Aggregator Spec Examples.
Local Open Scope m_scope.
Import StrFacts LaneFacts OrderFacts.

(** A comparison that raises raises a [TypeError]. *)
Lemma py_lt_raises : forall (a b : json) (e : exn),
  py_lt a b = Raise e -> is_type_error e = true.
Proof.
  fix IH 1. intros a b e.
  destruct a as [| | | | |l|]; destruct b as [| | | | |m|]; simpl;
    try (intros [= <-]; reflexivity); try discriminate.
  revert m. induction l as [|x l IHl]; intros [|y m]; try discriminate.
  destruct (py_eq x y); [apply IHl | apply IH].
Qed.

Lemma item_lt_raises (x y : json * lane_stats) (e : exn) :
  item_lt x y = Raise e -> is_type_error e = true.
Proof.
  unfold item_lt. destruct (py_eq (fst x) (fst y)).
  - destruct (stats_eqb (snd x) (snd y)); [discriminate|].
    intros [= <-]. reflexivity.
  - apply py_lt_raises.
Qed.

Section Mixed.
Variable A : Type.
Variable lt : A -> A -> result bool.
Variable kind : A -> bool.
Variable Q : exn -> Prop.

Hypothesis clash :
  forall x y, kind x <> kind y -> exists e, lt x y = Raise e.
Hypothesis raises : forall x y e, lt x y = Raise e -> Q e.

Lemma insert_raises (x : A) (l : list A) (e : exn) :
  insert lt x l = Raise e -> Q e.
Proof.
  induction l as [|y l IH]; simpl; [discriminate|].
  destruct (lt y x) as [[|]|e'] eqn:L; simpl.
  - destruct (insert lt x l) as [r|e']; simpl; [discriminate|].
    intros [= <-]. apply IH. reflexivity.
  - discriminate.
  - intros [= <-]. eapply raises. exact L.
Qed.

Lemma py_sort_raises (l : list A) (e : exn) :
  py_sort lt l = Raise e -> Q e.
Proof.
  induction l as [|x l IH]; simpl; [discriminate|].
  destruct (py_sort lt l) as [r|e']; simpl.
  - apply insert_raises.
  - intros [= <-]. apply IH. reflexivity.
Qed.

(** No order is found for values of two kinds. *)
Lemma py_sort_mixed (l : list A) (x y : A) :
  In x l -> In y l -> kind x <> kind y ->
  exists e, py_sort lt l = Raise e.
Proof.
  revert x y. induction l as [|a l IH]; intros x y Hx Hy K; [destruct Hx|].
  simpl. destruct (py_sort lt l) as [r|e] eqn:S; [|eexists; reflexivity].
  simpl.
  assert (forall z, In z l -> kind z <> kind a ->
                    exists e, insert lt a r = Raise e) as Step.
  { intros z Hz Kz.
    pose proof (py_sort_kept _ _ S) as P.
    destruct r as [|h r];
      [apply Permutation_sym, Permutation_nil in P; subst; destruct Hz|].
    assert (In h l) as Hh
        by (apply (Permutation_in _ (Permutation_sym P)); left; reflexivity).
    destruct (Bool.bool_dec (kind h) (kind a)) as [E|N].
    - destruct (IH z h Hz Hh) as [e Se]; [congruence|].
      rewrite Se in S. discriminate.
    - simpl. destruct (clash N) as [e Le]. rewrite Le.
      eexists. reflexivity. }
  destruct Hx as [<-|Hx], Hy as [<-|Hy].
  - contradiction.
  - apply (Step y Hy). congruence.
  - apply (Step x Hx). exact K.
  - destruct (IH x y Hx Hy K) as [e Se]. rewrite Se in S. discriminate.
Qed.

End Mixed.

Lemma py_eq_from_str (s : str) (k : json) :
  py_eq (JStr s) k = true -> k = JStr s.
Proof.
  destruct k; simpl; try discriminate.
  intros E. apply str_eqb_eq in E. congruence.
Qed.

Lemma py_eq_self (v : json) : hashable v = Ok tt -> py_eq v v = true.
Proof.
  destruct v as [|b|z|q|s| |]; simpl; try discriminate; intros _.
  - reflexivity.
  - destruct b; reflexivity.
  - unfold Qeq_bool. simpl. rewrite Z.mul_1_r. apply Z.eqb_refl.
  - apply Qeq_bool_iff. reflexivity.
  - apply str_eqb_refl.
Qed.

Lemma bump_keys (lane : json) (f : lane_stats -> lane_stats)
      (lanes : lane_table) :
  map fst (bump lane f lanes) = map fst lanes.
Proof.
  induction lanes as [|[k st] lanes IH]; simpl; [reflexivity|].
  destruct (py_eq lane k); simpl; [reflexivity | rewrite IH; reflexivity].
Qed.

(** A record is counted under a key equal to its lane, and no key is lost. *)
Lemma tally_keys (lanes lanes' : lane_table) (d : dict) :
  tally lanes d = Ok lanes' ->
  (forall k, In k (map fst lanes) -> In k (map fst lanes'))
  /\ exists k, In k (map fst lanes')
               /\ py_eq (get d (u "lane") (JStr (u "unknown"))) k = true.
Proof.
  unfold tally.
  destruct (hashable (get d (u "lane") (JStr (u "unknown")))) as [[]|e] eqn:H;
    simpl; [|discriminate].
  intros [= <-]. rewrite bump_keys.
  destruct (has_lane _ lanes) eqn:L.
  - split; [auto|]. unfold has_lane in L. apply existsb_exists in L.
    destruct L as [[k st] [I E]]. exists k. split; [|exact E].
    apply (in_map fst) in I. exact I.
  - rewrite map_app. split.
    + intros k I. apply in_app_iff. left. exact I.
    + eexists. split; [apply in_app_iff; right; left; reflexivity|].
      apply py_eq_self. exact H.
Qed.

Lemma tally_all_keys (agents : list dict) (lanes lanes' : lane_table) :
  tally_all lanes agents = Ok lanes' ->
  (forall k, In k (map fst lanes) -> In k (map fst lanes'))
  /\ forall d, In d agents ->
               exists k, In k (map fst lanes')
                         /\ py_eq (get d (u "lane") (JStr (u "unknown"))) k
                            = true.
Proof.
  revert lanes. induction agents as [|a agents IH]; intros lanes; simpl.
  - intros [= <-]. split; [auto | intros d []].
  - destruct (tally lanes a) as [lanes1|e] eqn:T; simpl; [|discriminate].
    intros H. destruct (IH _ H) as [K1 K2].
    destruct (tally_keys _ _ T) as [K3 [k [Ik Ek]]].
    split; [auto|].
    intros d [<-|I]; [|apply K2; exact I].
    exists k. split; [apply K1; exact Ik | exact Ek].
Qed.

Lemma tally_all_raises (agents : list dict) (lanes : lane_table) (e : exn) :
  tally_all lanes agents = Raise e -> is_type_error e = true.
Proof.
  revert lanes. induction agents as [|a agents IH]; intros lanes; simpl;
    [discriminate|].
  destruct (tally lanes a) as [lanes1|e'] eqn:T; simpl; [apply IH|].
  intros [= <-]. unfold tally in T.
  destruct (get a (u "lane") (JStr (u "unknown"))); simpl in T;
    try discriminate; injection T as <-; reflexivity.
Qed.

Lemma item_lt_clash (x y : json * lane_stats) :
  is_str (fst x) <> is_str (fst y) -> exists e, item_lt x y = Raise e.
Proof.
  destruct x as [k1 s1], y as [k2 s2]. unfold item_lt. cbn [fst snd].
  intros N.
  destruct k1, k2; simpl in *; try congruence; eexists; reflexivity.
Qed.

Lemma forM_write_returns (chunks : list str) (w : World) :
  forallb encodable chunks = true ->
  exists w', forM_ chunks write w = (w', Ok tt).
Proof.
  revert w. induction chunks as [|c chunks IH]; intros w E; simpl.
  - eexists. reflexivity.
  - cbn [forallb] in E. apply andb_true_iff in E as [C E].
    unfold bind, write at 1. rewrite (@Utf8.encode_error_encodable c 0 C).
    apply IH. exact E.
Qed.

Section Script.
Variable rt : Runtime.

Lemma lane_section_mixed (agents : list dict) (d1 d2 : dict) (w : World) :
  In d1 agents -> In d2 agents ->
  is_str (get d1 (u "lane") (JStr (u "unknown"))) = true ->
  is_str (get d2 (u "lane") (JStr (u "unknown"))) = false ->
  exists e, snd (lane_section rt agents w) = Raise e
            /\ is_type_error e = true.
Proof.
  intros I1 I2 S1 S2. unfold lane_section. rewrite RowFacts.bind_lift.
  destruct (tally_all [] agents) as [lanes|e] eqn:T.
  - destruct (tally_all_keys _ _ T) as [_ K].
    destruct (K d1 I1) as (k1 & Ik1 & E1).
    destruct (K d2 I2) as (k2 & Ik2 & E2).
    assert (is_str k1 = true) as P1.
    { destruct (get d1 (u "lane") (JStr (u "unknown"))); try discriminate.
      apply py_eq_from_str in E1. subst. reflexivity. }
    assert (is_str k2 = false) as P2.
    { destruct k2; try reflexivity. rewrite py_eq_str in E2.
      destruct (get d2 (u "lane") (JStr (u "unknown"))); discriminate. }
    apply in_map_iff in Ik1 as [x1 [<- Ix1]].
    apply in_map_iff in Ik2 as [x2 [<- Ix2]].
    destruct (@py_sort_mixed _ item_lt (fun x => is_str (fst x))
                item_lt_clash lanes x1 x2 Ix1 Ix2) as [e Se];
      [congruence|].
    exists e. split.
    + destruct lanes as [|l lanes]; [destruct Ix1|]. cbn [nonempty when].
      destruct (@forM_write_returns lane_heading w eq_refl) as [w' F].
      rewrite (RenderFacts.bind_ok _ _ _ F).
      rewrite RowFacts.bind_lift, Se. reflexivity.
    + apply (@py_sort_raises _ item_lt (fun e => is_type_error e = true)
               item_lt_raises lanes e Se).
  - exists e. split; [reflexivity|]. apply (tally_all_raises _ _ T).
Qed.

(** A computation that ends in one that raises raises. *)
Lemma bind_raises {A B} (m : M A) (k : A -> M B) (w : World) :
  (forall a w', exists e, snd (k a w') = Raise e) ->
  exists e, snd (bind m k w) = Raise e.
Proof.
  intros H. unfold bind. destruct (m w) as [w1 [a|e]].
  - apply H.
  - exists e. reflexivity.
Qed.

Lemma render_mixed (agents : list dict) (d1 d2 : dict) (w : World) :
  In d1 agents -> In d2 agents ->
  is_str (get d1 (u "lane") (JStr (u "unknown"))) = true ->
  is_str (get d2 (u "lane") (JStr (u "unknown"))) = false ->
  exists e, snd (render rt agents w) = Raise e.
Proof.
  intros I1 I2 S1 S2. unfold render.
  assert (forall w', exists e, snd (lane_section rt agents w') = Raise e) as L.
  { intros w'.
    destruct (@lane_section_mixed agents d1 d2 w' I1 I2 S1 S2) as [e [E _]].
    exists e. exact E. }
  repeat first [apply L | apply bind_raises; intros ? ?].
Qed.

End Script.
End MixedLanes.

(** ** The columns of the lane table *)
Module ColumnFacts.
Import Py Aggregator Spec Examples.
Local Open Scope m_scope.
Import StrFacts SortFacts LaneFacts.

Lemma list_sum_perm (l l' : list nat) :
  Permutation l l' -> list_sum l = list_sum l'.
Proof. induction 1; simpl; lia. Qed.

Lemma list_sum_add {A} (f g : A -> nat) (l : list A) :
  list_sum (map (fun x => f x + g x) l)
  = list_sum (map f l) + list_sum (map g l).
Proof. induction l as [|x l IH]; simpl; lia. Qed.

Lemma sum_absent (x : str) (b : bool) (ns : list str) :
  ~ In x ns ->
  list_sum (map (fun n => if str_eqb x n && b then 1 else 0) ns) = 0.
Proof.
  induction ns as [|n ns IH]; intros H; simpl; [reflexivity|].
  destruct (str_eqb x n) eqn:E.
  - apply str_eqb_eq in E. subst. exfalso. apply H. left. reflexivity.
  - simpl. apply IH. intros I. apply H. right. exact I.
Qed.

(** A record is counted in the row of its lane and in no other. *)
Lemma sum_present (x : str) (b : bool) (ns : list str) :
  NoDup ns -> In x ns ->
  list_sum (map (fun n => if str_eqb x n && b then 1 else 0) ns)
  = if b then 1 else 0.
Proof.
  induction 1 as [|n ns N D IH]; intros I; [destruct I|]. simpl.
  destruct (str_eqb x n) eqn:E.
  - apply str_eqb_eq in E. subst n. rewrite (@sum_absent x b ns N).
    destruct b; reflexivity.
  - destruct I as [->|I]; [rewrite str_eqb_refl in E; discriminate|].
    simpl. apply IH. exact I.
Qed.

Lemma sum_of_counts (q : dict -> bool) (ns : list str) (l : list dict) :
  NoDup ns -> (forall d, In d l -> In (lane_of d) ns) ->
  list_sum (map (fun n => length (filter (fun d => str_eqb (lane_of d) n && q d) l))
                ns)
  = length (filter q l).
Proof.
  intros N. induction l as [|d l IH]; intros H.
  - simpl. clear. induction ns as [|n ns IHn]; [reflexivity | exact IHn].
  - assert (forall n,
               length (filter (fun d => str_eqb (lane_of d) n && q d) (d :: l))
               = (if str_eqb (lane_of d) n && q d then 1 else 0)
                 + length (filter (fun d => str_eqb (lane_of d) n && q d) l))
      as Step
        by (intros n; simpl; destruct (str_eqb (lane_of d) n && q d);
            reflexivity).
    rewrite (map_ext _ _ Step), list_sum_add.
    rewrite (@sum_present (lane_of d) (q d) ns N (H d (or_introl eq_refl))).
    rewrite IH by (intros e He; apply H; right; exact He).
    simpl. destruct (q d); reflexivity.
Qed.

Lemma column_of_table (f : lane_stats -> nat) (agents : list dict) :
  Forall (fun d => lane_named d = true) agents ->
  list_sum (map (fun row => f (snd row)) (lane_rows agents))
  = list_sum (map (fun n => f (lane_counts n agents)) (first_seen agents)).
Proof.
  intros L. rewrite (lane_rows_sorted L). unfold sorted_lanes.
  rewrite <- (list_sum_perm
                (Permutation_map (fun row => f (snd row))
                   (isort_perm item_ltb (named (table_of agents))))).
  unfold named, table_of. rewrite !map_map. reflexivity.
Qed.

Lemma lanes_cover (agents : list dict) (d : dict) :
  In d agents -> In (lane_of d) (first_seen agents).
Proof. intros H. apply first_seen_In. exists d. split; [exact H | reflexivity]. Qed.

End ColumnFacts.

(** ** Timestamps *)
Module StampFacts.
Import Py Aggregator Spec Examples.
Local Open Scope m_scope.
Import StrFacts TimeFacts.

Lemma replace_scan_keeps (old new : str) (c : char) (s : str) :
  prefixb old (c :: s) = false ->
  replace_scan old new 0 (c :: s) = c :: replace_scan old new 0 s.
Proof. intros H. simpl. rewrite H. reflexivity. Qed.

(** An offset of zero at the end of a text that has no other [+]. *)
Lemma replace_offset (body : str) :
  Forall (fun c => c <> 43%N) body ->
  replace (u "+00:00") (u "Z") (body ++ u "+00:00") = body ++ u "Z".
Proof.
  intros F. change (replace (u "+00:00") (u "Z") (body ++ u "+00:00"))
    with (replace_scan (u "+00:00") (u "Z") 0 (body ++ u "+00:00")).
  induction F as [|c body C F IH]; [reflexivity|].
  cbn [app]. rewrite replace_scan_keeps; [rewrite IH; reflexivity|].
  change (u "+00:00") with (43%N :: u "00:00"). cbn [prefixb].
  apply N.eqb_neq in C. rewrite N.eqb_sym, C. reflexivity.
Qed.

(** [str] of a span of whole seconds, by days and seconds of the day. *)
Lemma td_str_by_days (us : Z) :
  td_str (whole_seconds us)
  = with_days (us / us_per_second / 86400)
              (hms ((us / us_per_second) mod 86400)).
Proof.
  unfold td_str, whole_seconds, us_per_day.
  assert (us - us mod us_per_second = us / us_per_second * us_per_second)%Z
    as -> by (pose proof (Z.div_mod us us_per_second); unfold us_per_second in *;
              lia).
  set (q := (us / us_per_second)%Z).
  assert (q * us_per_second / (86400 * us_per_second) = q / 86400)%Z as ->
      by (apply Z.div_mul_cancel_r; unfold us_per_second; lia).
  assert ((q * us_per_second) mod (86400 * us_per_second)
          = (q mod 86400) * us_per_second)%Z as ->
      by (apply Z.mul_mod_distr_r; unfold us_per_second; lia).
  rewrite Z.div_mul by (unfold us_per_second; lia).
  rewrite Z.mod_mul by (unfold us_per_second; lia).
  reflexivity.
Qed.

End StampFacts.

(** ** Runs that end well *)
Module GoodRuns.
Import Py Aggregator Spec Examples.
Local Open Scope m_scope.
Import StrFacts RenderFacts LoadFacts RunFacts.

Lemma find_file_fresh (place : nat) (name : str) (f : file)
      (entries : list (str * file)) :
  ~ In name (map fst entries) ->
  find_file name (insert_at place (name, f) entries) = Some f.
Proof.
  revert entries. induction place as [|place IH]; intros entries H.
  - unfold insert_at. cbn [firstn skipn app find_file].
    rewrite str_eqb_refl. reflexivity.
  - destruct entries as [|[n g] entries].
    + unfold insert_at. cbn [firstn skipn app find_file].
      rewrite str_eqb_refl. reflexivity.
    + change (insert_at (S place) (name, f) ((n, g) :: entries))
        with ((n, g) :: insert_at place (name, f) entries).
      cbn [find_file]. destruct (str_eqb name n) eqn:E.
      * apply str_eqb_eq in E. subst. exfalso. apply H. left. reflexivity.
      * apply IH. intros I. apply H. right. exact I.
Qed.

Lemma record_files_app (a b : list (str * file)) :
  record_files (a ++ b) = record_files a ++ record_files b.
Proof. unfold record_files. rewrite map_app, filter_app. reflexivity. Qed.

(** In a directory without record files a new record file is the only
    one, wherever it is listed. *)
Lemma record_files_insert (place : nat) (name : str) (f : file)
      (entries : list (str * file)) :
  is_json_name name = true -> record_files entries = [] ->
  record_files (insert_at place (name, f) entries) = [name].
Proof.
  intros J R.
  rewrite <- (firstn_skipn place entries), record_files_app in R.
  apply app_eq_nil in R as [R1 R2].
  unfold insert_at. rewrite record_files_app, R1.
  change ((name, f) :: skipn place entries)
    with ([(name, f)] ++ skipn place entries).
  rewrite record_files_app, R2. unfold record_files. cbn [map fst filter].
  rewrite J. reflexivity.
Qed.

Section Run.
Variable rt : Runtime.

(** The warnings of a directory whose files are all tolerated. *)
Lemma warnings_of_tolerated (entries : list (str * file)) (names : list str) :
  forallb (fun n => tolerated (read_of entries n)) names = true ->
  fst (load_outcome rt entries names)
  = flat_map (fun n => match read_of entries n with
                       | Raise e => [warning rt n e]
                       | Ok _ => []
                       end) names.
Proof.
  induction names as [|n names IH]; intros H; simpl; [reflexivity|].
  simpl in H. apply andb_true_iff in H as [Hn H].
  destruct (read_of entries n) as [v|e]; simpl in *.
  - apply IH. exact H.
  - rewrite Hn. simpl. rewrite (IH H). reflexivity.
Qed.

(** The run that finds no record file. *)
Lemma main_placeholder (w : World) :
  board_writable w = true ->
  status_dir w = None
  \/ (exists entries, status_dir w = Some entries /\ record_files entries = []) ->
  let before := match status_dir w with Some entries => entries | None => [] end in
  let system := system_status_at rt (clock w (ticks w)) in
  main rt w
  = (set_console
       (console w
        ++ (match status_dir w with
            | Some _ =>
                [u "No agent status files found, creating empty status board"]
            | None =>
                [u "Creating agent-status directory...";
                 u "Created " ++ path_of system_name]
            end)
        ++ summary_lines [system])
       (set_ticks (S (S (ticks w)))
          (set_board
             (Some (placeholder_board rt (clock w (S (ticks w))) system))
             (set_status_dir
                (Some (insert_at (slot w) (system_name, Loads (JObj system))
                                 before)) w))),
     Exited 0).
Proof.
  intros W D before system. unfold main.
  destruct D as [D | [entries [D R]]].
  - rewrite (@aggregate_absent rt w D W). subst before.
    rewrite D, insert_at_nil.
    unfold set_console, set_ticks, set_board, set_status_dir,
      st, bootstrapped. simpl.
    rewrite <- app_assoc. reflexivity.
  - rewrite (@aggregate_empty rt entries w D R W). subst before.
    rewrite D. unfold set_console, set_ticks, set_board, set_status_dir,
      st, seeded. simpl.
    rewrite <- app_assoc. reflexivity.
Qed.

(** What the first half of such a run hands over. *)
Lemma prepare_placeholder (w : World) :
  status_dir w = None
  \/ (exists entries, status_dir w = Some entries /\ record_files entries = []) ->
  exists w1,
    prepare rt w = (w1, Ok [system_status_at rt (clock w (ticks w))]).
Proof.
  intros D. unfold prepare. destruct D as [D | [entries [D R]]].
  - rewrite (bind_ok _ _ _ (@ensure_absent rt w D)).
    set (system := system_status_at rt (clock w (ticks w))).
    assert (load_agents rt (bootstrapped rt w)
            = (bootstrapped rt w, Ok [JObj system])) as L.
    { rewrite (@load_agents_listing rt [(system_name, Loads (JObj system))]
                 (bootstrapped rt w) eq_refl) by discriminate.
      rewrite (@load_files_outcome rt [(system_name, Loads (JObj system))]
                 _ (bootstrapped rt w) eq_refl).
      change (load_outcome rt [(system_name, Loads (JObj system))]
                (record_files [(system_name, Loads (JObj system))]))
        with (@nil str, Ok [JObj system]).
      cbn [fst snd]. rewrite console_eta. reflexivity. }
    rewrite (bind_ok _ _ _ L). eexists. reflexivity.
  - rewrite (bind_ok _ _ _ (@ensure_present rt entries w D)).
    rewrite (bind_ok _ _ _ (@load_agents_empty rt entries w D R)).
    eexists. reflexivity.
Qed.

(** The run over a directory that holds the placeholder and nothing else
    that [glob] lists. *)
Lemma main_over_placeholder (before : list (str * file)) (place : nat)
      (t : Z) (w : World) :
  board_writable w = true ->
  record_files before = [] ->
  status_dir w
  = Some (insert_at place (system_name, Loads (JObj (system_status_at rt t)))
                    before) ->
  main rt w
  = (set_console (console w ++ summary_lines [system_status_at rt t])
       (st w (S (ticks w))
           (placeholder_board rt (clock w (ticks w)) (system_status_at rt t))),
     Exited 0).
Proof.
  intros W R D. unfold main.
  assert (record_files
            (insert_at place
               (system_name, Loads (JObj (system_status_at rt t))) before)
          = [system_name]) as N
      by (apply record_files_insert; [reflexivity | exact R]).
  rewrite (@aggregate_listing rt _ w D) by (rewrite N; discriminate).
  cbv zeta. rewrite N.
  assert (read_of
            (insert_at place
               (system_name, Loads (JObj (system_status_at rt t))) before)
            system_name
          = Ok (JObj (system_status_at rt t))) as F.
  { unfold read_of. rewrite find_file_fresh; [reflexivity|].
    apply no_record_file; [exact R | reflexivity]. }
  cbn [load_outcome]. rewrite F. cbn [fst snd rbind truthy system_status_at].
  rewrite console_eta.
  rewrite (@finish_placeholder rt t w W). reflexivity.
Qed.

End Run.
End GoodRuns.

(** ** Statuses that are not in the tables *)
Module StatusFacts.
Import Py Aggregator Spec Examples.
Local Open Scope m_scope.
Import StrFacts.

Lemma find_absent {V} (s : str) (table : list (str * V)) :
  ~ In s (map fst table) ->
  find (fun kv => str_eqb s (fst kv)) table = None.
Proof.
  induction table as [|[k v] table IH]; intros H; simpl; [reflexivity|].
  destruct (str_eqb s k) eqn:E.
  - apply str_eqb_eq in E. subst. exfalso. apply H. left. reflexivity.
  - apply IH. intros I. apply H. right. exact I.
Qed.

Lemma table_get_absent {V} (s : str) (table : list (str * V)) (dflt : V) :
  ~ In s (map fst table) -> table_get table (JStr s) dflt = Ok dflt.
Proof. intros H. unfold table_get. rewrite (@find_absent _ s table H). reflexivity. Qed.

Lemma is_in_absent (s : str) (choices : list str) :
  ~ In s choices -> is_in (JStr s) choices = false.
Proof.
  unfold is_in. induction choices as [|c choices IH]; intros H;
    cbn [existsb]; [reflexivity|].
  rewrite IH by (intros I; apply H; right; exact I).
  rewrite orb_false_r. change (py_eq (JStr s) (JStr c)) with (str_eqb s c).
  apply str_eqb_neq. intros ->. apply H. left. reflexivity.
Qed.

End StatusFacts.

(** ** The order of the rows *)
Module RowOrder.
Import Py Aggregator Spec Examples.
Local Open Scope m_scope.
Import StrFacts SorterFacts.

Lemma StronglySorted_filter {A} (R : A -> A -> Prop) (p : A -> bool)
      (l : list A) :
  StronglySorted R l -> StronglySorted R (filter p l).
Proof.
  induction 1 as [|a l S IH F]; simpl; [constructor|].
  destruct (p a); [|exact IH].
  constructor; [exact IH|]. apply BoardFacts.Forall_filter. exact F.
Qed.

Lemma StronglySorted_app {A} (R : A -> A -> Prop) (l1 l2 : list A) (a b : A) :
  StronglySorted R (l1 ++ l2) -> In a l1 -> In b l2 -> R a b.
Proof.
  induction l1 as [|x l1 IH]; intros S Ia Ib; [destruct Ia|].
  simpl in S. apply StronglySorted_inv in S as [S F].
  destruct Ia as [->|Ia]; [|apply IH; assumption].
  rewrite Forall_forall in F. apply F. apply in_app_iff. right. exact Ib.
Qed.

(** Records of one status are in the order of their identifiers. *)
Lemma one_status_by_id (s : str) (sorted : list dict) :
  ascending key_of sorted ->
  StronglySorted
    (fun a b => str_ltb (text (agent_id b)) (text (agent_id a)) = false)
    (filter (fun a => py_eq (status_of a) (JStr s)) sorted).
Proof.
  intros S.
  apply (@StronglySorted_weaken _
           (fun a b => key_leb (key_of a) (key_of b) = true)).
  - intros a b Ia Ib.
    apply filter_In in Ia as [_ Ia]. apply filter_In in Ib as [_ Ib].
    apply SectionFacts.status_is in Ia. apply SectionFacts.status_is in Ib.
    unfold key_leb, key_of. rewrite Ia, Ib. cbn [fst snd].
    rewrite Nat.ltb_irrefl, Nat.eqb_refl. cbn [orb andb].
    apply negb_true_iff.
  - apply StronglySorted_filter. exact S.
Qed.

End RowOrder.

(** * The claims *)

Import Py Aggregator Spec Examples.
Local Open Scope m_scope.

(** ** C1: the order of the board *)

(** C1, as stated, fails: a record without a status is not ranked after the
    known statuses.  Loaded after a completed record, it is moved in front of
    it, which is descending under the ranks of the specification
    (completed 4, missing 5). *)
Lemma sort_agents_missing_status_counterexample :
  ~ (forall ds sorted,
        sort_agents (map JObj ds) = Ok sorted -> ascending spec_key_of sorted).
Proof.
  intros H.
  specialize (H [completed_a; no_status_b] [no_status_b; completed_a] eq_refl).
  apply StronglySorted_inv in H as [_ F]. apply Forall_inv in F.
  vm_compute in F. discriminate.
Qed.

(** C1, amended: on records whose status can be hashed and whose agentId is a
    string, the sorter returns the stable ascending order by (rank, agentId):
    the result is a permutation of the input, ascending by rank and then by
    code-point order of the identifier ("unknown" when absent), and the
    records under one key keep their input order.  The rank is in_progress 0,
    blocked 1, waiting 2, idle 3, completed 4, any other status 5, and a
    record without a status is ranked 3, as idle. *)
Theorem sort_agents_stable_by_rank_and_id (ds : list dict) :
  Forall (fun d => sortable d = true) ds ->
  exists sorted,
    sort_agents (map JObj ds) = Ok sorted
    /\ Permutation ds sorted
    /\ ascending key_of sorted
    /\ (forall k, filter (fun d => key_eqb (key_of d) k) sorted
                  = filter (fun d => key_eqb (key_of d) k) ds)
    /\ (forall d, In d ds ->
                  sort_key (JObj d)
                  = Ok (rank_of (lookup (u "status") d), agent_id d))
    /\ map (fun s => rank_of (Some (JStr (u s))))
           ["in_progress"; "blocked"; "waiting"; "idle"; "completed"]%string
       = [0; 1; 2; 3; 4]
    /\ rank_of None = 3
    /\ (forall s, ~ In s (map fst priority) -> rank_of (Some (JStr s)) = 5)
    /\ (forall d, lookup (u "agentId") d = None -> agent_id d = JStr (u "unknown")).
Proof.
  intros H. exists (sorted_agents ds).
  repeat split.
  - apply SorterFacts.sort_agents_sortable. exact H.
  - apply SorterFacts.sorted_agents_perm.
  - apply SorterFacts.sorted_agents_ascending.
  - apply SorterFacts.sorted_agents_stable.
  - intros d Hd. rewrite Forall_forall in H.
    rewrite (SorterFacts.sort_key_sortable d (H d Hd)).
    specialize (H d Hd). unfold sortable in H.
    apply andb_true_iff in H as [_ H]. unfold key_of. simpl.
    destruct (agent_id d); try discriminate. reflexivity.
  - intros s Hs. simpl in Hs. unfold rank_of, spec_rank.
    repeat match goal with
           | |- context [str_eqb s ?l] =>
               let E := fresh "E" in
               destruct (str_eqb s l) eqn:E;
               [apply StrFacts.str_eqb_eq in E; exfalso; apply Hs;
                rewrite E; auto 10|]
           end.
    reflexivity.
  - intros d Hd. unfold agent_id, get. rewrite Hd. reflexivity.
Qed.

Lemma sort_agents_stable_by_rank_and_id_witness :
  Forall (fun d => sortable d = true)
         [completed_a; blocked_z; no_status_b; blocked_z_again]
  /\ exists sorted,
       sort_agents (map JObj [completed_a; blocked_z; no_status_b; blocked_z_again])
       = Ok sorted
       /\ Permutation [completed_a; blocked_z; no_status_b; blocked_z_again] sorted
       /\ ascending key_of sorted.
Proof.
  split; [repeat constructor|].
  destruct (sort_agents_stable_by_rank_and_id
              (ds:=[completed_a; blocked_z; no_status_b; blocked_z_again]))
    as (sorted & E & P & A & _); [repeat constructor|].
  exists sorted. auto.
Defined.

Example sort_agents_example :
  sort_agents (map JObj [completed_a; blocked_z; no_status_b; blocked_z_again])
  = Ok [blocked_z; blocked_z_again; no_status_b; completed_a].
Proof. reflexivity. Qed.


(** ** C2: the placeholder *)

(** C2, as stated, fails when the board cannot be written: the directory is
    made and the placeholder is persisted, but no board is rendered, and
    nothing reports a total count. *)
Lemma placeholder_without_board_counterexample :
  ~ (forall w,
        status_dir w = None
        \/ (exists entries,
               status_dir w = Some entries /\ record_files entries = []) ->
        exists chunks,
          board (fst (main Sample.runtime w)) = Some chunks
          /\ In (u "**Total Agents:** 1" ++ nl ++ nl) chunks).
Proof.
  intros H.
  destruct (H (world None false ticking) (or_introl eq_refl))
    as (chunks & E & _).
  discriminate E.
Qed.

(** C2, amended: when the status directory is absent, or holds no record
    file, one run leaves the directory in place with what it held and the
    placeholder, which is its only record file (its only entry when the
    directory was absent or empty): the record [system] with status [idle].
    This is so whether or not the board can be written.  When it can, the run
    ends with status 0, and the board counts 1 agent and shows the idle table
    with the placeholder's row; none of the headings of the active, blocked
    and completed tables is written.  When it cannot, the board is left as it
    was and the process ends on the exception of the failed attempt to open
    it. *)
Theorem placeholder_when_no_records (rt : Runtime) (w : World) :
  status_dir w = None
  \/ (exists entries, status_dir w = Some entries /\ record_files entries = []) ->
  let before := match status_dir w with Some entries => entries | None => [] end in
  let system := system_status_at rt (clock w (ticks w)) in
  let chunks := placeholder_board rt (clock w (S (ticks w))) system in
  (exists after,
      status_dir (fst (main rt w)) = Some after
      /\ Permutation after ((system_name, Loads (JObj system)) :: before)
      /\ record_files after = [system_name]
      /\ (before = [] -> after = [(system_name, Loads (JObj system))]))
  /\ get system (u "agentId") JNull = JStr (u "system")
  /\ get system (u "status") JNull = JStr (u "idle")
  /\ (board_writable w = true ->
      snd (main rt w) = Exited 0
      /\ board (fst (main rt w)) = Some chunks
      /\ total_line [system] = u "**Total Agents:** 1" ++ nl ++ nl
      /\ In (idle_text system) chunks
      /\ (forall c, In c (active_heading ++ blocked_heading ++ completed_heading) ->
                    ~ In c chunks))
  /\ (board_writable w = false ->
      snd (main rt w) = Uncaught (OSError board_name)
      /\ board (fst (main rt w)) = board w).
Proof.
  intros D before system chunks.
  assert (record_files before = []) as R
      by (subst before; destruct D as [D | [entries [D R]]]; rewrite D;
          [reflexivity | exact R]).
  split; [|split; [reflexivity|split; [reflexivity|split]]].
  - exists (insert_at (slot w) (system_name, Loads (JObj system)) before).
    split; [|split; [|split]].
    + rewrite WriterFacts.main_dir, WriterFacts.prepare_dir.
      subst before. destruct D as [D | [entries [D E]]]; rewrite D.
      * rewrite RunFacts.insert_at_nil. reflexivity.
      * rewrite E. reflexivity.
    + apply RunFacts.insert_at_perm.
    + apply GoodRuns.record_files_insert; [reflexivity | exact R].
    + intros ->. apply RunFacts.insert_at_nil.
  - intros W. rewrite (@GoodRuns.main_placeholder rt w W D). cbn [fst snd].
    fold system. fold chunks.
    split; [reflexivity|]. split; [reflexivity|]. split; [reflexivity|].
    split; [simpl; auto 10|].
    intros c Hc Hin. subst chunks. simpl in Hc, Hin.
    repeat match goal with
           | H : _ \/ _ |- _ => destruct H
           | H : False |- _ => destruct H
           end; subst; discriminate.
  - intros W. rewrite PhaseFacts.main_phases.
    destruct (@GoodRuns.prepare_placeholder rt w D) as [w1 P].
    pose proof (PhaseFacts.prepare_writable rt w) as PW.
    pose proof (BoardFree.prepare_board rt w) as PB.
    rewrite P in *. cbn [fst] in PW, PB. rewrite W in PW.
    rewrite (@BoardFree.publish_unwritable rt _ w1 PW).
    rewrite (@RunFacts.report_error_unwritable rt _ w1 PW).
    split; [reflexivity | exact PB].
Qed.

Lemma placeholder_when_no_records_witness :
  status_dir (world None true ticking) = None
  /\ snd (main Sample.runtime (world None true ticking)) = Exited 0
  /\ record_files
       (match status_dir (fst (main Sample.runtime (world None true ticking))) with
        | Some after => after
        | None => []
        end)
     = [system_name]
  /\ snd (main Sample.runtime (world None false ticking))
     = Uncaught (OSError board_name).
Proof.
  split; [reflexivity|].
  pose proof (placeholder_when_no_records Sample.runtime
                (world None true ticking) (or_introl eq_refl)) as H.
  pose proof (placeholder_when_no_records Sample.runtime
                (world None false ticking) (or_introl eq_refl)) as G.
  cbv zeta in H, G.
  destruct H as ((after & A & _ & F & _) & _ & _ & W & _).
  destruct G as (_ & _ & _ & _ & U).
  split; [apply (W eq_refl)|]. split; [rewrite A; exact F|].
  apply (U eq_refl).
Defined.

(** A directory without record files keeps what it holds and gains the
    placeholder. *)
Example placeholder_in_directory_without_records :
  let w := world (Some dir_without_records) true ticking in
  let after :=
    match status_dir (fst (main Sample.runtime w)) with
    | Some after => after
    | None => []
    end in
  snd (main Sample.runtime w) = Exited 0
  /\ find_file (u "README.md") after
     = find_file (u "README.md") dir_without_records
  /\ find_file system_name after
     = Some (Loads (JObj (system_status_at Sample.runtime (ticking 0))))
  /\ length after = 2
  /\ board (fst (main Sample.runtime w))
     = Some (placeholder_board Sample.runtime (ticking 1)
               (system_status_at Sample.runtime (ticking 0))).
Proof. repeat split. Qed.

(** ** C3: files that cannot be loaded *)

(** A file that fails with one of the two classes the loader names is
    reported and left out, and the files after it are still loaded. *)
Lemma caught_failure_is_local (rt : Runtime) (entries : list (str * file))
      (name : str) (rest : list str) (e : exn) (w : World) :
  status_dir w = Some entries ->
  read_of entries name = Raise e -> caught_by_loader e = true ->
  load_files rt (name :: rest) w
  = load_files rt rest (set_console (console w ++ [warning rt name e]) w).
Proof.
  intros H R C. cbn [load_files]. unfold bind at 1.
  rewrite (@LoadFacts.safe_json_load_read rt entries name w H), R, C.
  unfold bind.
  destruct (load_files rt rest _) as [w' [agents|e']]; reflexivity.
Qed.

(** A file that fails with any other class ends the loading. *)
Lemma uncaught_failure_escapes (rt : Runtime) (entries : list (str * file))
      (names : list str) (name : str) (e : exn) :
  In name names -> read_of entries name = Raise e ->
  caught_by_loader e = false ->
  exists e', snd (load_outcome rt entries names) = Raise e'.
Proof.
  intros H R C. induction names as [|n names IH]; [destruct H|].
  simpl. destruct H as [->|H].
  - rewrite R, C. exists e. reflexivity.
  - destruct (IH H) as [e' E].
    destruct (read_of entries n) as [v|x].
    + cbn [snd]. rewrite E. exists e'. reflexivity.
    + destruct (caught_by_loader x); [|exists x; reflexivity].
      cbn [snd]. exists e'. exact E.
Qed.

(** C3 fails on the code for a record file that cannot be decoded as UTF-8:
    [UnicodeDecodeError] is neither of the two classes [safe_json_load]
    catches.  Next to a valid record, such a file produces no warning, the
    valid record does not reach the board, the error document is written
    instead and the process exits with status 1. *)
Theorem undecodable_file_aborts_run :
  let w := world (Some dir_with_undecodable) true ticking in
  snd (main Sample.runtime w) = Exited 1
  /\ board (fst (main Sample.runtime w))
     = Some (error_document Sample.runtime undecodable (ticking 0))
  /\ console (fst (main Sample.runtime w))
     = [u "Error aggregating status: " ++ exn_text Sample.runtime undecodable].
Proof. repeat split. Qed.

(** With a file that is not JSON in its place, the run goes on: one warning,
    the valid record on the board, status 0. *)
Example malformed_file_is_skipped :
  let w := world (Some dir_with_malformed) true ticking in
  snd (main Sample.runtime w) = Exited 0
  /\ board (fst (main Sample.runtime w))
     = Some (board_chunks Sample.runtime ticking 0 [working_c])
  /\ hd [] (console (fst (main Sample.runtime w)))
     = warning Sample.runtime (u "torn.json") malformed.
Proof. repeat split. Qed.

(** ** C4: how the process ends *)

(** C4, as stated, fails when the failure is that the board cannot be
    written (the example of a fatal failure the specification gives): the
    handler opens the same path, fails in turn, and no error document is
    written; the process ends on the uncaught exception. *)
Lemma unwritable_board_counterexample :
  ~ (forall w w1 e,
        aggregate_status Sample.runtime w = (w1, Raise e) ->
        exit_status (snd (main Sample.runtime w)) <> 0%Z
        /\ exists t, board (fst (main Sample.runtime w))
                     = Some (error_document Sample.runtime e t)).
Proof.
  intros H.
  destruct (H (world None false ticking)
              (fst (aggregate_status Sample.runtime (world None false ticking)))
              (OSError board_name) eq_refl) as [_ [t E]].
  discriminate E.
Qed.

(** C4, amended: the process ends with status 0 when the aggregation
    returns, which it does on a directory with record files whenever the
    board can be written and every record file is tolerated (it fails with
    one of the two caught classes, and is then reported on the console, or
    holds a falsy value or a record of the data model, whose fields are
    strings that UTF-8 encodes).  When the aggregation raises an exception,
    the handler runs once, after the one failed attempt: if the board can be
    written, the error document (title, error message, timestamp of the
    attempt) replaces whatever was written and the process exits with status
    1; if it cannot, nothing is written and the process ends on the
    handler's own exception, with status 1 as well. *)
Theorem main_exit_status (rt : Runtime) (w : World) :
  (forall w1, aggregate_status rt w = (w1, Ok tt) ->
              main rt w = (w1, Exited 0))
  /\ (forall entries,
         status_dir w = Some entries -> record_files entries <> [] ->
         board_writable w = true ->
         forallb (fun n => tolerated (read_of entries n)) (record_files entries)
         = true ->
         snd (main rt w) = Exited 0
         /\ exists more,
             console (fst (main rt w))
             = console w
               ++ fst (load_outcome rt entries (record_files entries)) ++ more)
  /\ (forall w1 e,
         aggregate_status rt w = (w1, Raise e) ->
         let reported :=
           set_console
             (console w1 ++ [u "Error aggregating status: " ++ exn_text rt e])
             w1 in
         exit_status (snd (main rt w)) = 1%Z
         /\ (board_writable w = true ->
             main rt w
             = (set_ticks (S (ticks w1))
                  (set_board
                     (Some (error_document rt e (clock w (ticks w1))))
                     reported),
                Exited 1))
         /\ (board_writable w = false ->
             main rt w = (reported, Uncaught (OSError board_name)))).
Proof.
  split; [|split].
  - intros w1 E. unfold main. rewrite E. reflexivity.
  - intros entries D N W T. unfold main.
    rewrite (@RunFacts.aggregate_listing rt entries w D N). cbv zeta.
    destruct (LoadFacts.load_outcome_tolerated rt entries _ T) as [L F].
    rewrite L.
    rewrite (@RunFacts.finish_typed rt _
               (set_console
                  (console w
                   ++ fst (load_outcome rt entries (record_files entries))) w)
               F W).
    cbv zeta. cbn [fst snd].
    split; [reflexivity|]. eexists. unfold set_console. simpl.
    rewrite <- app_assoc. reflexivity.
  - intros w1 e E. apply RunFacts.main_after_failure. exact E.
Qed.

Lemma main_exit_status_witness :
  aggregate_status Sample.runtime (world (Some dir_with_undecodable) true ticking)
  = (world (Some dir_with_undecodable) true ticking, Raise undecodable)
  /\ main Sample.runtime (world (Some dir_with_undecodable) true ticking)
     = (set_ticks 1
          (set_board
             (Some (error_document Sample.runtime undecodable (ticking 0)))
             (set_console
                [u "Error aggregating status: "
                 ++ exn_text Sample.runtime undecodable]
                (world (Some dir_with_undecodable) true ticking))),
        Exited 1)
  /\ snd (main Sample.runtime (world (Some dir_with_malformed) true ticking))
     = Exited 0.
Proof.
  destruct (main_exit_status Sample.runtime
              (world (Some dir_with_undecodable) true ticking))
    as (_ & _ & F).
  destruct (main_exit_status Sample.runtime
              (world (Some dir_with_malformed) true ticking))
    as (_ & S & _).
  split; [reflexivity|]. split.
  - apply (F _ _ eq_refl). reflexivity.
  - apply (S dir_with_malformed eq_refl); [discriminate | reflexivity..].
Defined.

(** A record of strings one of which cannot be encoded is not tolerated:
    the write of its row raises, and the run ends like any other that
    fails. *)
Example lone_surrogate_is_fatal :
  let w := world (Some dir_with_surrogate) true frozen in
  tolerated (read_of dir_with_surrogate (u "s.json")) = false
  /\ snd (main Sample.runtime w) = Exited 1
  /\ board (fst (main Sample.runtime w))
     = Some (error_document Sample.runtime (UnicodeEncodeError 55296%N 2 3)
                            (frozen 1))
  /\ exn_text Sample.runtime (UnicodeEncodeError 55296%N 2 3)
     = u "'utf-8' codec can't encode character '\ud800' in position 2: "
       ++ u "surrogates not allowed"
  /\ exn_text Sample.runtime (UnicodeEncodeError 55296%N 2 4)
     = u "'utf-8' codec can't encode characters in position 2-3: "
       ++ u "surrogates not allowed".
Proof. repeat split. Qed.

(** ** C5: lane utilization *)

(** C5: for records whose lane, when present, is a string, the lane table
    has one row per lane met ("unknown" for a record without one), in strictly
    ascending order of the lane names.  The row of a lane counts as active
    its records whose status is in_progress or waiting, as blocked those whose
    status is blocked, and as idle all its other records (completed, idle, any
    other status, and no status at all); the total is the number of records
    of the lane.  The table is written after what is already on the board
    when UTF-8 encodes every lane name, and the write of a row whose lane
    name has a surrogate raises; it is left out only when there is no
    record.  Two records in lane x, waiting and blocked, give active 1,
    blocked 1, idle 0, total 2. *)
Theorem lane_utilization (rt : Runtime) (agents : list dict) (w : World)
        (cs : list str) :
  Forall (fun d => lane_named d = true) agents ->
  board w = Some cs ->
  let rows := lane_rows agents in
  (Forall (fun d => encodable (lane_of d) = true) agents ->
   lane_section rt agents w
   = (set_board (Some (cs ++ table lane_heading (map (lane_text rt) rows))) w,
      Ok tt))
  /\ (Exists (fun d => encodable (lane_of d) = false) agents ->
      exists c start stop,
        snd (lane_section rt agents w) = Raise (UnicodeEncodeError c start stop))
  /\ StronglySorted (fun a b => str_ltb a b = true) (map lane_name rows)
  /\ (forall lane, In lane (map lane_name rows)
                   <-> exists d, In d agents /\ lane_of d = lane)
  /\ (forall row, In row rows ->
                  row = (JStr (lane_name row), lane_counts (lane_name row) agents)
                  /\ lane_total (snd row) = lane_size (lane_name row) agents)
  /\ (rows = [] <-> agents = [])
  /\ (forall d, lookup (u "lane") d = None -> lane_of d = u "unknown")
  /\ lane_rows [waiting_in_x; blocked_in_x]
     = [(JStr (u "x"), {| n_active := 1; n_idle := 0; n_blocked := 1 |})]
  /\ lane_total {| n_active := 1; n_idle := 0; n_blocked := 1 |} = 2.
Proof.
  intros L B rows. subst rows.
  assert (forall lane, In lane (map lane_name (lane_rows agents))
                       <-> exists d, In d agents /\ lane_of d = lane) as M.
  { intros lane. rewrite (LaneFacts.lane_rows_sorted L).
    rewrite <- LaneFacts.first_seen_In. split;
      [apply Permutation_in; apply Permutation_sym
      |apply Permutation_in]; apply LaneFacts.sorted_lanes_names. }
  split; [|split; [|repeat split]].
  - intros U. rewrite <- (RenderFacts.st_eta w B) at 1.
    rewrite (@LaneFacts.lane_section_st rt agents w (ticks w) cs L U).
    reflexivity.
  - intros X. rewrite <- (RenderFacts.st_eta w B).
    apply (@LaneFacts.lane_section_surrogate rt agents w (ticks w) cs L X).
  - rewrite (LaneFacts.lane_rows_sorted L).
    apply LaneFacts.sorted_lanes_ascending.
  - apply M.
  - apply M.
  - rewrite (LaneFacts.lane_rows_sorted L) in H.
    apply LaneFacts.sorted_lanes_In in H. apply H.
  - rewrite (LaneFacts.lane_rows_sorted L) in H.
    apply LaneFacts.sorted_lanes_In in H as [_ ->].
    apply LaneFacts.count_split.
  - intros E. destruct agents as [|d agents]; [reflexivity|].
    assert (In (lane_of d) (map lane_name (lane_rows (d :: agents)))) as I
        by (apply M; exists d; split; [left|]; reflexivity).
    rewrite E in I. destruct I.
  - intros ->. reflexivity.
  - intros d H. unfold lane_of, field, get. rewrite H. reflexivity.
Qed.

Lemma lane_utilization_witness :
  Forall (fun d => lane_named d = true) [waiting_in_x; blocked_in_x]
  /\ board (set_board (Some [title]) (world None true frozen)) = Some [title]
  /\ Forall (fun d => encodable (lane_of d) = true) [waiting_in_x; blocked_in_x]
  /\ map lane_name (lane_rows [waiting_in_x; blocked_in_x]) = [u "x"]
  /\ snd (lane_section Sample.runtime [waiting_in_x; blocked_in_x]
            (set_board (Some [title]) (world None true frozen)))
     = Ok tt.
Proof.
  assert (Forall (fun d => encodable (lane_of d) = true)
                 [waiting_in_x; blocked_in_x]) as U by (repeat constructor).
  split; [repeat constructor|]. split; [reflexivity|]. split; [exact U|].
  destruct (@lane_utilization Sample.runtime [waiting_in_x; blocked_in_x]
              (set_board (Some [title]) (world None true frozen)) [title])
    as (S & _ & _ & _ & _ & _ & _ & R & _);
    [repeat constructor | reflexivity |].
  split; [rewrite R; reflexivity | rewrite (S U); reflexivity].
Defined.

(** A lane name with a surrogate: the heading is written, the row is
    not. *)
Example surrogate_lane_stops_the_table :
  lane_section Sample.runtime [surrogate_lane]
    (set_board (Some []) (world None true frozen))
  = (set_board (Some lane_heading) (world None true frozen),
     Raise (UnicodeEncodeError 55296%N 2 3)).
Proof. reflexivity. Qed.

(** ** C6: recent completions *)



(** ** C7: the cells of an active row *)

(** C7, as stated, fails for a [started] that parses but carries no UTC
    offset: subtracting it from the aware reading of the clock raises, the
    bare [except] catches it, and the cell is the placeholder, not an elapsed
    time. *)
Lemma naive_started_counterexample :
  ~ (forall d s parsed w,
        lookup (u "started") d = Some (JStr s) ->
        fromisoformat Sample.runtime (replace (u "Z") (u "+00:00") s)
        = Some parsed ->
        exists elapsed,
          snd (duration_cell Sample.runtime d w) = Ok (td_str elapsed)).
Proof.
  intros H.
  destruct (H naive_start (u "2023-11-14T22:13:20")
              (Naive 1700000000000000) (world None true ninety_later)
              eq_refl eq_refl) as [elapsed E].
  injection E as E.
  apply (TimeFacts.td_str_not_placeholder elapsed). symmetry. exact E.
Qed.

(** C7, amended: the row of a record of the data model (every field a
    string that UTF-8 encodes) is appended to the board with the task cut
    to its first 30 characters, the branch to its first 20 and [started] to
    its first 16, nothing added.  The duration cell is the time from
    [started] to the reading of the clock taken for this row, without its
    sub-second remainder, when [started] is a non-empty string that parses
    (with Z read as +00:00) to a timestamp with a UTC offset; ninety seconds
    then read 0:01:30.  It is the placeholder when [started] is absent,
    empty, does not parse, or parses without an offset. *)
Theorem active_row_cells (rt : Runtime) (d : dict) (w : World) (cs : list str) :
  text_fields d = true ->
  board w = Some cs ->
  let t := clock w (ticks w) in
  let started := field d (u "started") [] in
  let parsed := fromisoformat rt (replace (u "Z") (u "+00:00") started) in
  let duration :=
    match started, parsed with
    | _ :: _, Some (Aware t0) => td_str (whole_seconds (t - t0))
    | _, _ => placeholder
    end in
  let reads :=
    match started, parsed with
    | _ :: _, Some _ => 1
    | _, _ => 0
    end in
  active_row rt d w
  = (set_ticks (ticks w + reads)
       (set_board
          (Some (cs ++ [ u "| " ++ field d (u "agentId") (u "unknown")
                         ++ u " | " ++ marker d ++ u " "
                         ++ field d (u "status") (u "unknown")
                         ++ u " | " ++ firstn 30 (field d (u "task") placeholder)
                         ++ u " | `" ++ firstn 20 (field d (u "branch") placeholder)
                         ++ u "` | " ++ firstn 16 (field d (u "started") placeholder)
                         ++ u " | " ++ duration ++ u " |" ++ nl ])) w),
     Ok tt)
  /\ (forall us, (whole_seconds us mod us_per_second = 0
                  /\ 0 <= us - whole_seconds us < us_per_second)%Z)
  /\ (forall t0, started <> [] -> parsed = Some (Aware t0) ->
                 (t - t0 = 90 * us_per_second)%Z -> duration = u "0:01:30")
  /\ (lookup (u "started") d = None -> duration = placeholder)
  /\ (parsed = None -> duration = placeholder)
  /\ (forall t0, parsed = Some (Naive t0) -> duration = placeholder).
Proof.
  intros F B t started parsed duration reads.
  assert (started_at rt d
          = match started with _ :: _ => parsed | [] => None end) as S.
  { unfold started_at. subst parsed started. unfold field, get.
    destruct (lookup (u "started") d) as [v|] eqn:E; [|reflexivity].
    pose proof (RenderFacts.lookup_str _ _ F E) as I.
    destruct v; try discriminate. destruct s; reflexivity. }
  repeat split.
  - rewrite <- (RenderFacts.st_eta w B) at 1.
    rewrite (@RenderFacts.active_row_st rt d w (ticks w) cs F).
    unfold st, active_text, duration_text, reads_clock.
    rewrite S. subst duration reads t.
    destruct started as [|c s]; [rewrite Nat.add_0_r; reflexivity|].
    destruct parsed as [[t0|t0]|];
      rewrite ?Nat.add_0_r, ?Nat.add_1_r; reflexivity.
  - unfold whole_seconds, us_per_second. Z.div_mod_to_equations. lia.
  - unfold whole_seconds, us_per_second. Z.div_mod_to_equations. lia.
  - unfold whole_seconds, us_per_second. Z.div_mod_to_equations. lia.
  - intros t0 N P E. subst duration. rewrite P, E.
    destruct started; [contradiction | reflexivity].
  - intros E. subst duration started. unfold field, get. rewrite E.
    reflexivity.
  - intros E. subst duration. rewrite E. destruct started; reflexivity.
  - intros t0 E. subst duration. rewrite E. destruct started; reflexivity.
Qed.

Lemma active_row_cells_witness :
  text_fields long_task = true
  /\ board (set_board (Some []) (world None true ninety_later)) = Some []
  /\ board (fst (active_row Sample.runtime long_task
                   (set_board (Some []) (world None true ninety_later))))
     = Some [ u "| t | " ++ [128260%N]
              ++ u " in_progress | 012345678901234567890123456789 | `-` | 2023-11-14T22:13 | 0:01:30 |"
              ++ nl ].
Proof.
  split; [reflexivity|]. split; [reflexivity|].
  destruct (@active_row_cells Sample.runtime long_task
              (set_board (Some []) (world None true ninety_later)) [])
    as (R & _); [reflexivity | reflexivity |].
  rewrite R. reflexivity.
Defined.

(** ** C8: the clock *)

(** C8, as stated, fails: the clock is read again for every row that shows a
    duration.  Two runs over the same directory whose clocks show the same
    time at the first reading, the one of the header, and differ afterwards,
    write different boards. *)
Lemma clock_read_again_counterexample :
  ~ (forall w c,
        c (ticks w) = clock w (ticks w) ->
        board (fst (main Sample.runtime (re_clock c w)))
        = board (fst (main Sample.runtime w))).
Proof.
  intros H.
  specialize (H (world (Some dir_at_work) true frozen) jumping eq_refl).
  vm_compute in H. discriminate H.
Qed.

(** A run depends on the clock through the readings it takes: under a
    second clock that shows the same times at these readings it ends the
    same way and leaves the same directory, board and console. *)
Lemma main_depends_on_readings (rt : Runtime) (w : World) (c : nat -> Z) :
  agree w c (ticks (fst (main rt w))) ->
  main rt (re_clock c w) = (re_clock c (fst (main rt w)), snd (main rt w)).
Proof.
  intros H. unfold main in *.
  destruct (Steady.steady_aggregate_status rt w) as (_ & C1 & T1 & R1).
  destruct (aggregate_status rt w) as [w1 [[]|e]] eqn:E; cbn [fst snd] in *.
  - rewrite (R1 c H). reflexivity.
  - destruct (Steady.steady_report_error rt e w1) as (_ & C2 & T2 & R2).
    assert (ticks (fst (report_error rt e w1))
            = ticks (fst (let (w2, r) := report_error rt e w1 in
                          match r with
                          | Ok _ => (w2, Exited 1)
                          | Raise e' => (w2, Uncaught e')
                          end))) as Q
        by (destruct (report_error rt e w1) as [w2 [[]|e']]; reflexivity).
    rewrite <- Q in H.
    rewrite R1 by (intros i Hi; apply H; lia).
    rewrite R2 by (intros i Hi; rewrite C1; apply H; lia).
    destruct (report_error rt e w1) as [w2 [[]|e']]; reflexivity.
Qed.

(** C8, amended: each timestamp of the board comes from a reading of its
    own.  The renderer reads the clock once for the header, after the title
    is written, and the line of the render time shows that reading.  It
    reads it again for every row of Active Work whose [started] parses: row
    [i] is written with the reading that follows the header's and those of
    the rows above it, and its duration is the time from [started] to that
    reading.  The clock has then been read once, plus once for each such
    row.  Hence under a second clock that shows the same times at these
    readings the renderer writes the same board, and a whole run that meets
    the same times at the readings it takes ends the same way and leaves the
    same files and console; a clock that agrees on the reading of the header
    only does not ensure it. *)
Theorem each_timestamp_has_its_own_reading (rt : Runtime) (agents : list dict)
        (w : World) :
  Forall (fun d => text_fields d = true) agents ->
  board_writable w = true ->
  let active := active_of agents in
  let reading i := clock w (S (ticks w) + clock_reads rt (firstn i active)) in
  let rows := active_texts rt (clock w) (S (ticks w)) active in
  (exists tables,
      board (fst (render rt agents w))
      = Some ([ title;
                u "**Last Updated:** " ++ utc_stamp rt (clock w (ticks w)) ++ nl;
                total_line agents ]
              ++ table active_heading rows ++ tables))
  /\ length rows = length active
  /\ (forall i d, nth_error active i = Some d ->
                  nth_error rows i = Some (active_text rt (reading i) d))
  /\ (forall t d t0, started_at rt d = Some (Aware t0) ->
                     duration_text rt t d = td_str (whole_seconds (t - t0)))
  /\ (forall i d, nth_error active i = Some d ->
                  clock_reads rt (firstn (S i) active)
                  = clock_reads rt (firstn i active)
                    + (if reads_clock rt d then 1 else 0))
  /\ ticks (fst (render rt agents w)) = S (ticks w) + clock_reads rt active
  /\ (forall c, agree w c (S (ticks w) + clock_reads rt active) ->
                board (fst (render rt agents (re_clock c w)))
                = board (fst (render rt agents w)))
  /\ (forall w0 c, agree w0 c (ticks (fst (main rt w0))) ->
                   main rt (re_clock c w0)
                   = (re_clock c (fst (main rt w0)), snd (main rt w0))).
Proof.
  intros T W active reading rows.
  pose proof (@BoardFacts.render_typed rt agents w T W) as R.
  split; [|split; [|split; [|split; [|split; [|split; [|split]]]]]].
  - rewrite R. eexists. unfold st, board_chunks.
    cbn [fst board set_ticks set_board]. reflexivity.
  - subst rows. clear. generalize (S (ticks w)).
    induction active as [|d l IH]; intros n; [reflexivity|].
    cbn [active_texts length]. rewrite IH. reflexivity.
  - intros i d H. apply RenderFacts.active_texts_nth. exact H.
  - intros t d t0 S. unfold duration_text. rewrite S. reflexivity.
  - intros i d H. apply RenderFacts.clock_reads_next. exact H.
  - rewrite R. reflexivity.
  - intros c A.
    destruct (Steady.steady_render rt agents w) as (_ & _ & _ & D).
    rewrite R in D. cbn [fst snd ticks st set_ticks] in D.
    rewrite (D c A), R. reflexivity.
  - intros w0 c A. apply main_depends_on_readings. exact A.
Qed.

Lemma each_timestamp_has_its_own_reading_witness :
  Forall (fun d => text_fields d = true) [long_task]
  /\ board_writable (world None true jumping) = true
  /\ board (fst (render Sample.runtime [long_task] (world None true jumping)))
     = Some ([ title;
               u "**Last Updated:** 2023-11-14T22:13:20Z" ++ nl;
               u "**Total Agents:** 1" ++ nl ++ nl ]
             ++ active_heading
             ++ [ u "| t | " ++ [128260%N]
                  ++ u " in_progress | 012345678901234567890123456789 | `-` | 2023-11-14T22:13 | 0:00:05 |"
                  ++ nl ]
             ++ statistics_chunks [long_task] [] [] []
             ++ lane_heading ++ [ u "| unknown | 1 | 0 | 0 | 1 |" ++ nl ])
  /\ nth_error (active_texts Sample.runtime jumping 1 [long_task]) 0
     = Some (active_text Sample.runtime (jumping 1) long_task).
Proof.
  assert (Forall (fun d => text_fields d = true) [long_task]) as T
      by (repeat constructor).
  split; [exact T|]. split; [reflexivity|]. split; [reflexivity|].
  destruct (@each_timestamp_has_its_own_reading Sample.runtime [long_task]
              (world None true jumping) T eq_refl) as (_ & _ & N & _).
  apply (N 0 long_task eq_refl).
Defined.

(** ** C9: files that hold a falsy value *)

(** C9: a record file that parses to a falsy value is loaded without a
    warning and contributes no record: loading the files with it gives the
    same agents and the same console as loading them without it.  The empty
    object, the empty array, 0, false and null are such values. *)
Theorem falsy_file_is_dropped_silently (rt : Runtime) (w : World)
        (entries : list (str * file)) (before after : list str)
        (name : str) (v : json) :
  status_dir w = Some entries ->
  find_file name entries = Some (Loads v) ->
  truthy v = false ->
  safe_json_load rt name w = (w, Ok v)
  /\ load_files rt (before ++ name :: after) w
     = load_files rt (before ++ after) w
  /\ map truthy [JObj []; JArr []; JInt 0; JBool false; JNull]
     = [false; false; false; false; false].
Proof.
  intros D F T.
  assert (read_of entries name = Ok v) as R
      by (unfold read_of; rewrite F; reflexivity).
  repeat split.
  - rewrite (@LoadFacts.safe_json_load_read rt entries name w D), R.
    reflexivity.
  - rewrite !(@LoadFacts.load_files_outcome rt entries _ w D).
    rewrite (@LoadFacts.load_outcome_falsy rt entries before after name v R T).
    reflexivity.
Qed.

Lemma falsy_file_is_dropped_silently_witness :
  status_dir (world (Some dir_with_empty_object) true frozen)
  = Some dir_with_empty_object
  /\ find_file (u "empty.json") dir_with_empty_object = Some (Loads (JObj []))
  /\ truthy (JObj []) = false
  /\ load_files Sample.runtime [u "c.json"; u "empty.json"]
                (world (Some dir_with_empty_object) true frozen)
     = (world (Some dir_with_empty_object) true frozen, Ok [JObj working_c]).
Proof.
  split; [reflexivity|]. split; [reflexivity|]. split; [reflexivity|].
  destruct (@falsy_file_is_dropped_silently Sample.runtime
              (world (Some dir_with_empty_object) true frozen)
              dir_with_empty_object [u "c.json"] [] (u "empty.json") (JObj [])
              eq_refl eq_refl eq_refl) as (_ & L & _).
  simpl app in L. rewrite L. reflexivity.
Defined.

(** ** C10: values that are not objects *)

(** The sort raises as soon as one of the values has no [get]. *)
Lemma sort_agents_non_object (agents : list json) (v : json) :
  In v agents -> (forall d, v <> JObj d) ->
  exists e, sort_agents agents = Raise e.
Proof.
  intros H N. unfold sort_agents.
  assert (exists e,
             mapM (fun a => let? k := sort_key a in
                            let? d := as_dict a in Ok (k, d)) agents
             = Raise e) as [e E].
  { induction agents as [|a agents IH]; [destruct H|].
    simpl. destruct H as [->|H].
    - unfold sort_key. destruct v; try (eexists; reflexivity).
      exfalso. apply (N kvs). reflexivity.
    - destruct (IH H) as [e E]. rewrite E.
      destruct (sort_key a) as [k|x]; [|eexists; reflexivity].
      simpl. destruct (as_dict a); eexists; reflexivity. }
  rewrite E. exists e. reflexivity.
Qed.

(** C10: when a record file of the directory holds valid JSON that is truthy
    and is not an object, the aggregation raises before anything is written
    to the board: the record is not skipped, the run takes the fatal path,
    and, the board being writable, the error document replaces the board and
    the process exits with status 1.  A file that holds a non-empty string is
    an instance. *)
Theorem non_object_value_is_fatal (rt : Runtime) (w : World)
        (entries : list (str * file)) (name : str) (v : json) :
  status_dir w = Some entries ->
  In name (record_files entries) ->
  find_file name entries = Some (Loads v) ->
  truthy v = true ->
  (forall d, v <> JObj d) ->
  exists w1 e,
    aggregate_status rt w = (w1, Raise e)
    /\ board w1 = board w
    /\ ticks w1 = ticks w
    /\ exit_status (snd (main rt w)) = 1%Z
    /\ (board_writable w = true ->
        snd (main rt w) = Exited 1
        /\ board (fst (main rt w))
           = Some (error_document rt e (clock w (ticks w)))).
Proof.
  intros D I F T N.
  assert (read_of entries name = Ok v) as R
      by (unfold read_of; rewrite F; reflexivity).
  assert (record_files entries <> []) as NE
      by (intros E; rewrite E in I; destruct I).
  pose proof (@RunFacts.aggregate_listing rt entries w D NE) as A.
  cbv zeta in A.
  assert (exists e,
             aggregate_status rt w
             = (set_console
                  (console w
                   ++ fst (load_outcome rt entries (record_files entries))) w,
                Raise e)) as [e E].
  { destruct (snd (load_outcome rt entries (record_files entries)))
      as [loaded|e] eqn:L.
    - pose proof (@LoadFacts.load_outcome_keeps rt entries _ name v loaded
                    I R T L) as K.
      destruct (sort_agents_non_object loaded K N) as [e S].
      exists e. rewrite A. unfold bind, lift. rewrite S. reflexivity.
    - exists e. exact A. }
  eexists. exists e. split; [exact E|].
  split; [reflexivity|]. split; [reflexivity|].
  destruct (@RunFacts.main_after_failure rt w _ e E) as (X & Y & _).
  split; [exact X|].
  intros W. rewrite (Y W). split; reflexivity.
Qed.

Lemma non_object_value_is_fatal_witness :
  status_dir (world (Some dir_with_string) true frozen) = Some dir_with_string
  /\ In (u "note.json") (record_files dir_with_string)
  /\ find_file (u "note.json") dir_with_string = Some (Loads (JStr (u "hello")))
  /\ truthy (JStr (u "hello")) = true
  /\ snd (main Sample.runtime (world (Some dir_with_string) true frozen))
     = Exited 1
  /\ board (fst (main Sample.runtime (world (Some dir_with_string) true frozen)))
     = Some (error_document Sample.runtime (AttributeError TStr (u "get"))
                            (frozen 0)).
Proof.
  split; [reflexivity|]. split; [right; left; reflexivity|].
  split; [reflexivity|]. split; [reflexivity|].
  destruct (@non_object_value_is_fatal Sample.runtime
              (world (Some dir_with_string) true frozen) dir_with_string
              (u "note.json") (JStr (u "hello")) eq_refl
              (or_intror (or_introl eq_refl)) eq_refl eq_refl)
    as (w1 & e & _ & _ & _ & _ & M); [discriminate|].
  destruct (M eq_refl) as [X _].
  split; [exact X | reflexivity].
Defined.

(** An array of strings ends the run the same way. *)
Example array_value_is_fatal :
  let w := world (Some dir_with_array) true frozen in
  snd (main Sample.runtime w) = Exited 1
  /\ board (fst (main Sample.runtime w))
     = Some (error_document Sample.runtime (AttributeError TList (u "get"))
                            (frozen 0)).
Proof. repeat split. Qed.

(** * Further properties *)

(** X1: the board is opened for writing only, never read and never
    appended to.  When it can be written, the whole run (what it leaves in the
    directory, on the console and on the board, the readings of the clock and
    the way the process ends) is the same whatever the board held before; when
    it cannot be written, the run leaves it as it was. *)
Theorem previous_board_is_never_read (rt : Runtime) (w : World)
        (b : option (list str)) :
  (board_writable w = true -> main rt (set_board b w) = main rt w)
  /\ (board_writable w = false -> board (fst (main rt w)) = board w).
Proof.
  pose proof (PhaseFacts.prepare_writable rt w) as PW.
  pose proof (BoardFree.prepare_board rt w) as PB.
  pose proof (BoardFree.board_free_prepare rt b w) as PF.
  split; intros W; rewrite W in PW.
  - rewrite !PhaseFacts.main_phases. rewrite PF.
    destruct (prepare rt w) as [w1 [agents|e]]; cbn [fst snd] in *.
    + rewrite (@BoardFree.publish_overwrites rt agents b w1 PW). reflexivity.
    + rewrite (@BoardFree.report_error_overwrites rt e b w1 PW). reflexivity.
  - rewrite PhaseFacts.main_phases.
    destruct (prepare rt w) as [w1 [agents|e]]; cbn [fst snd] in *.
    + rewrite (@BoardFree.publish_unwritable rt agents w1 PW).
      rewrite (@RunFacts.report_error_unwritable rt _ w1 PW). exact PB.
    + rewrite (@RunFacts.report_error_unwritable rt _ w1 PW). exact PB.
Qed.

(** X2: once the board is open, the title, the line of the render time
    and the line of the total, which counts the records handed to the
    renderer, are written before any table, whatever the records hold: they
    are on the board even when a later row raises.  The renderer prints
    nothing and does not touch the directory. *)
Theorem header_is_written_first (rt : Runtime) (agents : list dict)
        (w : World) :
  board_writable w = true ->
  status_dir (fst (render rt agents w)) = status_dir w
  /\ console (fst (render rt agents w)) = console w
  /\ exists rows,
       board (fst (render rt agents w))
       = Some ([ title;
                 u "**Last Updated:** " ++ utc_stamp rt (clock w (ticks w)) ++ nl;
                 u "**Total Agents:** " ++ str_of_nat (length agents) ++ nl ++ nl ]
               ++ rows).
Proof. apply WriterFacts.render_header. Qed.

Lemma header_is_written_first_witness :
  board_writable (world None true frozen) = true
  /\ exists rows,
       board (fst (render Sample.runtime [working_c] (world None true frozen)))
       = Some ([ title;
                 u "**Last Updated:** 2023-11-14T22:13:20Z" ++ nl;
                 u "**Total Agents:** 1" ++ nl ++ nl ] ++ rows).
Proof.
  split; [reflexivity|].
  destruct (@header_is_written_first Sample.runtime [working_c]
              (world None true frozen) eq_refl) as (_ & _ & rows & E).
  exists rows. exact E.
Defined.

(** X3: a run never removes or rewrites a status file.  Whether it
    ends well or not, the directory (one that can be created and written)
    holds afterwards the entries it held before, each once, in the same
    order and with the same content; the placeholder system.json is added
    exactly when the directory was missing or held no record file, and it is
    listed where the file system puts a new file. *)
Theorem status_files_are_kept (rt : Runtime) (w : World) :
  let before := match status_dir w with Some entries => entries | None => [] end in
  let system :=
    (system_name, Loads (JObj (system_status_at rt (clock w (ticks w))))) in
  exists after,
    status_dir (fst (main rt w)) = Some after
    /\ after = (if nonempty (record_files before) then before
                else firstn (slot w) before ++ system :: skipn (slot w) before)
    /\ Permutation after (if nonempty (record_files before) then before
                          else system :: before).
Proof.
  cbv zeta. rewrite WriterFacts.main_dir, WriterFacts.prepare_dir.
  eexists. split; [reflexivity|].
  destruct (status_dir w) as [entries|].
  - split; [reflexivity|].
    destruct (nonempty (record_files entries)); [reflexivity|].
    apply RunFacts.insert_at_perm.
  - split; [|reflexivity]. cbn [record_files map filter nonempty].
    symmetry. apply (RunFacts.insert_at_nil (slot w)).
Qed.

(** X4: only the entries named *.json are looked at.  Without the
    other entries of the directory the run ends the same way, writes the same
    board and prints the same lines, and it leaves the same record files. *)
Theorem other_files_are_ignored (rt : Runtime) (w : World) :
  let w' :=
    set_status_dir
      (option_map (filter (fun kv => is_json_name (fst kv))) (status_dir w)) w in
  snd (main rt w') = snd (main rt w)
  /\ board (fst (main rt w')) = board (fst (main rt w))
  /\ console (fst (main rt w')) = console (fst (main rt w))
  /\ status_dir (fst (main rt w'))
     = option_map (filter (fun kv => is_json_name (fst kv)))
                  (status_dir (fst (main rt w))).
Proof.
  cbv zeta.
  change (set_status_dir
            (option_map (filter (fun kv => is_json_name (fst kv)))
                        (status_dir w)) w)
    with (only_records w).
  rewrite RecordBlind.main_only_records. repeat split.
Qed.

(** X5: when no two records share a rank and an identifier, the
    sorted sequence, hence the order of the rows of the board, does not depend
    on the order in which the directory lists the files. *)
Theorem sort_agents_ignores_listing_order (ds ds' : list dict) :
  Forall (fun d => sortable d = true) ds ->
  NoDup (map key_of ds) ->
  Permutation ds ds' ->
  sort_agents (map JObj ds') = sort_agents (map JObj ds).
Proof.
  intros F N P.
  rewrite !SorterFacts.sort_agents_sortable;
    [| exact F | apply (Permutation_Forall P F)].
  rewrite (OrderFacts.sorted_agents_listing N P). reflexivity.
Qed.

Lemma sort_agents_ignores_listing_order_witness :
  Forall (fun d => sortable d = true) [completed_a; blocked_z; no_status_b]
  /\ NoDup (map key_of [completed_a; blocked_z; no_status_b])
  /\ Permutation [completed_a; blocked_z; no_status_b]
                 [no_status_b; completed_a; blocked_z]
  /\ sort_agents (map JObj [no_status_b; completed_a; blocked_z])
     = Ok [blocked_z; no_status_b; completed_a].
Proof.
  assert (Forall (fun d => sortable d = true)
                 [completed_a; blocked_z; no_status_b]) as F
      by (repeat constructor).
  assert (NoDup (map key_of [completed_a; blocked_z; no_status_b])) as N.
  { repeat constructor; simpl; intuition discriminate. }
  assert (Permutation [completed_a; blocked_z; no_status_b]
                      [no_status_b; completed_a; blocked_z]) as P.
  { apply Permutation_sym.
    apply (@Permutation_cons_app _ _ [completed_a; blocked_z] []).
    reflexivity. }
  split; [exact F|]. split; [exact N|]. split; [exact P|].
  rewrite (sort_agents_ignores_listing_order F N P). reflexivity.
Defined.

(** X6: whenever the sort returns, it returns the values it was
    given, each one once and unchanged: no record is lost or repeated, and
    there are as many records on the board as values were kept by the
    loader. *)
Theorem sort_agents_keeps_every_record (agents : list json)
        (sorted : list dict) :
  sort_agents agents = Ok sorted ->
  Permutation agents (map JObj sorted) /\ length sorted = length agents.
Proof.
  unfold sort_agents. intros H.
  destruct (mapM _ agents) as [keyed|e] eqn:K; simpl in H; [|discriminate].
  destruct (py_sort _ keyed) as [s|e] eqn:S; simpl in H; [|discriminate].
  injection H as <-.
  apply OrderFacts.keys_of_dicts in K. apply OrderFacts.py_sort_kept in S.
  assert (Permutation agents (map JObj (map snd s))) as P
      by (subst agents; apply Permutation_map, Permutation_map; exact S).
  split; [exact P|].
  rewrite (Permutation_length P), !length_map. reflexivity.
Qed.

Lemma sort_agents_keeps_every_record_witness :
  sort_agents (map JObj [completed_a; blocked_z; no_status_b])
  = Ok [blocked_z; no_status_b; completed_a]
  /\ Permutation (map JObj [completed_a; blocked_z; no_status_b])
                 (map JObj [blocked_z; no_status_b; completed_a]).
Proof.
  split; [reflexivity|].
  apply (@sort_agents_keeps_every_record
           (map JObj [completed_a; blocked_z; no_status_b])
           [blocked_z; no_status_b; completed_a] eq_refl).
Defined.

(** X7: every record is in exactly one of the three lists behind
    Active Work, Idle Agents and Recent Completions (the last one before it is
    cut to five rows), so the three counts of the statistics add up to the
    total of the header.  The records of Blocked Agents are all among the
    active ones: they are listed twice and counted twice. *)
Theorem sections_split_the_records (agents : list dict) :
  Permutation agents
              (active_of agents ++ idle_of agents ++ completed_of agents)
  /\ length (active_of agents) + length (idle_of agents)
     + length (completed_of agents) = length agents
  /\ blocked_of (active_of agents) = blocked_of agents
  /\ length (blocked_of agents) <= length (active_of agents).
Proof.
  assert (Permutation agents
            (active_of agents ++ idle_of agents ++ completed_of agents)) as P.
  { unfold active_of, idle_of, completed_of.
    apply SectionFacts.split_in_three.
    intros d. apply SectionFacts.status_class. }
  assert (blocked_of (active_of agents) = blocked_of agents) as B.
  { unfold blocked_of, active_of. apply SectionFacts.filter_within.
    intros d. apply SectionFacts.blocked_is_active. }
  split; [exact P|]. split; [|split; [exact B|]].
  - rewrite (Permutation_length P), !length_app. lia.
  - rewrite <- B. apply filter_length_le.
Qed.

(** X8: a record without a status is listed under Active Work, with
    the generic marker and the status text unknown, and not under Idle Agents,
    although the sort ranks it with the idle records (rank 3) and the lane
    table counts it as idle. *)
Theorem record_without_status (rt : Runtime) (d : dict) (agents : list dict) :
  lookup (u "status") d = None ->
  In d agents ->
  In d (active_of agents)
  /\ ~ In d (idle_of agents)
  /\ sort_key (JObj d) = Ok (3, get d (u "agentId") (JStr (u "unknown")))
  /\ table_get status_emoji_table (get d (u "status") (JStr (u "idle")))
               [10067%N]
     = Ok [10067%N]
  /\ fmt rt (get d (u "status") (JStr (u "unknown"))) = u "unknown"
  /\ bucket (get d (u "status") (JStr (u "idle"))) = inc_idle.
Proof.
  intros N I.
  assert (forall dflt, get d (u "status") dflt = dflt) as G
      by (intros dflt; unfold get; rewrite N; reflexivity).
  repeat split.
  - apply filter_In. split; [exact I|]. unfold status_of. rewrite G.
    reflexivity.
  - intros H. apply filter_In in H as [_ H]. unfold status_of in H.
    rewrite G in H. discriminate.
  - unfold sort_key. cbn [as_dict rbind]. rewrite G. reflexivity.
  - rewrite G. reflexivity.
  - rewrite G. reflexivity.
  - rewrite G. reflexivity.
Qed.

Lemma record_without_status_witness :
  lookup (u "status") no_status_b = None
  /\ In no_status_b [completed_a; no_status_b]
  /\ active_of [completed_a; no_status_b] = [no_status_b]
  /\ In no_status_b (active_of [completed_a; no_status_b]).
Proof.
  split; [reflexivity|]. split; [right; left; reflexivity|].
  split; [reflexivity|].
  apply (@record_without_status Sample.runtime no_status_b
           [completed_a; no_status_b] eq_refl
           (or_intror (or_introl eq_refl))).
Defined.

(** X9: the Blocked Agents table, for records of the data model (every
    field a string that UTF-8 encodes).  It is appended to the board as the
    heading followed by one row per record whose status is blocked, in the
    order of the sequence: the identifier (unknown when missing), blockedBy,
    the first 40 characters of reason, and blockedDuration, each a dash when
    missing.  Nothing is written when no record is blocked. *)
Theorem blocked_agents_table (rt : Runtime) (agents : list dict) (w : World)
        (cs : list str) :
  Forall (fun d => text_fields d = true) agents ->
  board w = Some cs ->
  let blocked := blocked_of agents in
  let row d :=
    u "| " ++ field d (u "agentId") (u "unknown")
    ++ u " | " ++ field d (u "blockedBy") (u "-")
    ++ u " | " ++ firstn 40 (field d (u "reason") (u "-"))
    ++ u " | " ++ field d (u "blockedDuration") (u "-")
    ++ u " |" ++ nl in
  blocked_section rt blocked w
  = (set_board
       (Some (cs ++ match blocked with
                    | [] => []
                    | _ :: _ => blocked_heading ++ map row blocked
                    end)) w,
     Ok tt)
  /\ (forall d, In d blocked
                <-> In d agents
                    /\ lookup (u "status") d = Some (JStr (u "blocked"))).
Proof.
  intros T B blocked row. split.
  - rewrite <- (RenderFacts.st_eta w B) at 1.
    rewrite (@BoardFacts.blocked_section_st rt blocked w (ticks w) cs
               (@BoardFacts.Forall_filter _ _ _ agents T)).
    unfold table. destruct blocked; reflexivity.
  - intros d. unfold blocked, blocked_of. rewrite filter_In.
    rewrite SectionFacts.status_is. reflexivity.
Qed.

Lemma blocked_agents_table_witness :
  Forall (fun d => text_fields d = true) [working_c; blocked_in_x]
  /\ board (set_board (Some []) (world None true frozen)) = Some []
  /\ board (fst (blocked_section Sample.runtime
                   (blocked_of [working_c; blocked_in_x])
                   (set_board (Some []) (world None true frozen))))
     = Some (blocked_heading ++ [u "| b | - | - | - |" ++ nl]).
Proof.
  split; [repeat constructor|]. split; [reflexivity|].
  destruct (@blocked_agents_table Sample.runtime [working_c; blocked_in_x]
              (set_board (Some []) (world None true frozen)) [])
    as [R _]; [repeat constructor | reflexivity |].
  rewrite R. reflexivity.
Defined.

(** X10: the Idle Agents table, for records of the data model (every
    field a string that UTF-8 encodes).  It is appended to the board as the
    heading followed by one row per record whose status is idle, in the
    order of the sequence: the identifier, the first 16 characters of
    lastUpdate (a dash when missing), and readyFor (Any task when missing).
    Nothing is written when no record is idle. *)
Theorem idle_agents_table (rt : Runtime) (agents : list dict) (w : World)
        (cs : list str) :
  Forall (fun d => text_fields d = true) agents ->
  board w = Some cs ->
  let idle := idle_of agents in
  let row d :=
    u "| " ++ field d (u "agentId") (u "unknown")
    ++ u " | " ++ firstn 16 (field d (u "lastUpdate") (u "-"))
    ++ u " | " ++ field d (u "readyFor") (u "Any task")
    ++ u " |" ++ nl in
  idle_section rt idle w
  = (set_board
       (Some (cs ++ match idle with
                    | [] => []
                    | _ :: _ => idle_heading ++ map row idle
                    end)) w,
     Ok tt)
  /\ (forall d, In d idle
                <-> In d agents
                    /\ lookup (u "status") d = Some (JStr (u "idle"))).
Proof.
  intros T B idle row. split.
  - rewrite <- (RenderFacts.st_eta w B) at 1.
    rewrite (@BoardFacts.idle_section_st rt idle w (ticks w) cs
               (@BoardFacts.Forall_filter _ _ _ agents T)).
    unfold table. destruct idle; reflexivity.
  - intros d. unfold idle, idle_of. rewrite filter_In.
    rewrite SectionFacts.status_is. reflexivity.
Qed.

Lemma idle_agents_table_witness :
  Forall (fun d => text_fields d = true)
         [working_c; system_status_at Sample.runtime (frozen 0)]
  /\ board (set_board (Some []) (world None true frozen)) = Some []
  /\ board (fst (idle_section Sample.runtime
                   (idle_of [working_c;
                             system_status_at Sample.runtime (frozen 0)])
                   (set_board (Some []) (world None true frozen))))
     = Some (idle_heading
             ++ [u "| system | 2023-11-14T22:13 | Any task |" ++ nl]).
Proof.
  split; [repeat constructor|]. split; [reflexivity|].
  destruct (@idle_agents_table Sample.runtime
              [working_c; system_status_at Sample.runtime (frozen 0)]
              (set_board (Some []) (world None true frozen)) [])
    as [R _]; [repeat constructor | reflexivity |].
  rewrite R. reflexivity.
Defined.

Ltac slice_step :=
  rewrite RowFacts.bind_lift;
  match goal with
  | |- context [slice ?n ?v] =>
      let S := fresh "S" in
      let E := fresh "E" in
      let x := fresh "x" in
      unfold cut at 1;
      destruct (RowFacts.slice_cases n v) as [[S [x E]]|[S E]];
      rewrite E, S;
      cbn [fst snd andb];
      [| split; [split; discriminate | intros ? _; reflexivity] ]
  end.

Ltac written_row :=
  split;
  [ rewrite RowFacts.write_returns;
    rewrite !Utf8.encodable_app_eq, !Utf8.encodable_u;
    change (encodable nl) with true;
    repeat match goal with
           | H : encodable _ = true |- _ => rewrite H
           end;
    cbn [forallb];
    rewrite ?andb_true_l, ?andb_true_r; reflexivity
  | intros e F; rewrite (RowFacts.write_fails _ _ F); reflexivity ].

(** X11: a row is written exactly when the fields it cuts hold strings
    or lists and UTF-8 encodes the text of its cells: task, branch and
    started are cut for Active Work (whose marker also needs a status that
    can be hashed), reason for Blocked Agents, lastUpdate for Idle Agents,
    task and completed for Recent Completions.  With a number, a boolean,
    null or an object in a field that is cut, or a surrogate in a cell, the
    row raises, and nothing of the row reaches the board.  The fields that
    are not cut may hold a value of any type. *)
Theorem rows_need_sliceable_fields (rt : Runtime) (d : dict) (w : World) :
  let sliced k := sliceable (get d (u k) (JStr placeholder)) in
  let encoded cells := forallb (fun v => encodable (fmt rt v)) cells in
  let keyed :=
    match get d (u "status") (JStr (u "idle")) with
    | JArr _ | JObj _ => false
    | _ => true
    end in
  ((snd (active_row rt d w) = Ok tt
    <-> keyed && sliced "task"%string && sliced "branch"%string
        && sliced "started"%string && encoded (active_cells d) = true)
   /\ forall e, snd (active_row rt d w) = Raise e ->
                board (fst (active_row rt d w)) = board w)
  /\ ((snd (blocked_row rt d w) = Ok tt
       <-> sliced "reason"%string && encoded (blocked_cells d) = true)
      /\ forall e, snd (blocked_row rt d w) = Raise e ->
                   board (fst (blocked_row rt d w)) = board w)
  /\ ((snd (idle_row rt d w) = Ok tt
       <-> sliced "lastUpdate"%string && encoded (idle_cells d) = true)
      /\ forall e, snd (idle_row rt d w) = Raise e ->
                   board (fst (idle_row rt d w)) = board w)
  /\ ((snd (completed_row rt d w) = Ok tt
       <-> sliced "task"%string && sliced "completed"%string
           && encoded (completed_cells d) = true)
      /\ forall e, snd (completed_row rt d w) = Raise e ->
                   board (fst (completed_row rt d w)) = board w).
Proof.
  intros sliced encoded keyed. subst sliced encoded. cbv beta.
  split; [|split; [|split]].
  - unfold active_row, active_cells.
    destruct (RowFacts.duration_cell_returns rt d w) as (w' & s & D & B & DE).
    rewrite (RenderFacts.bind_ok _ _ _ D). rewrite <- B. clear D B.
    rewrite RowFacts.bind_lift. subst keyed.
    pose proof (@RowFacts.status_emoji_encodable
                  (get d (u "status") (JStr (u "idle")))) as ME.
    destruct (table_get status_emoji_table
                (get d (u "status") (JStr (u "idle"))) [10067%N])
      as [m|x] eqn:TG.
    + specialize (ME m eq_refl).
      assert (match get d (u "status") (JStr (u "idle")) with
              | JArr _ | JObj _ => false
              | _ => true
              end = true) as ->
          by (destruct (get d (u "status") (JStr (u "idle")));
              try reflexivity; discriminate).
      cbn [andb].
      slice_step; slice_step; slice_step.
      written_row.
    + assert (match get d (u "status") (JStr (u "idle")) with
              | JArr _ | JObj _ => false
              | _ => true
              end = false) as ->
          by (destruct (get d (u "status") (JStr (u "idle")));
              try reflexivity; discriminate).
      cbn [andb fst snd].
      split; [split; discriminate | intros ? _; reflexivity].
  - unfold blocked_row, blocked_cells. slice_step. written_row.
  - unfold idle_row, idle_cells. slice_step. written_row.
  - unfold completed_row, completed_cells. slice_step. slice_step.
    written_row.
Qed.

(** A task that is a number, an identifier that is a surrogate, and the
    row of the placeholder. *)
Example rows_that_raise :
  snd (active_row Sample.runtime task_42 (world None true frozen))
  = Raise (NotSubscriptable TInt)
  /\ snd (idle_row Sample.runtime lone_surrogate (world None true frozen))
     = Raise (UnicodeEncodeError 55296%N 2 3)
  /\ snd (idle_row Sample.runtime
            (system_status_at Sample.runtime (frozen 0))
            (world None true frozen)) = Ok tt.
Proof. repeat split. Qed.

(** X12: when the lane of one record is a string (or is missing, which
    counts as the string unknown) and the lane of another record is not a
    string, the lane table cannot be written: a lane cannot be hashed, or two
    lanes cannot be compared, a TypeError in both cases.  Rendering such
    records raises, and a run that has loaded them ends with status 1. *)
Theorem lanes_of_two_kinds_are_fatal (rt : Runtime) (agents : list dict)
        (d1 d2 : dict) (w : World) :
  In d1 agents -> In d2 agents ->
  is_str (get d1 (u "lane") (JStr (u "unknown"))) = true ->
  is_str (get d2 (u "lane") (JStr (u "unknown"))) = false ->
  (exists e, snd (lane_section rt agents w) = Raise e
             /\ is_type_error e = true)
  /\ (exists e, snd (render rt agents w) = Raise e)
  /\ (forall w1, prepare rt w = (w1, Ok agents) ->
                 exit_status (snd (main rt w)) = 1%Z).
Proof.
  intros I1 I2 S1 S2.
  split; [apply (@MixedLanes.lane_section_mixed rt agents d1 d2 w I1 I2 S1 S2)|].
  split; [apply (@MixedLanes.render_mixed rt agents d1 d2 w I1 I2 S1 S2)|].
  intros w1 P. rewrite PhaseFacts.main_phases, P.
  destruct (@MixedLanes.render_mixed rt agents d1 d2 w1 I1 I2 S1 S2) as [e E].
  unfold publish, bind.
  destruct (render rt agents w1) as [w2 [[]|e']]; cbn [snd] in E;
    [discriminate|].
  destruct (report_error rt e' w2) as [w3 [[]|e'']]; reflexivity.
Qed.

Lemma lanes_of_two_kinds_are_fatal_witness :
  In no_status_b [no_status_b; lane_three]
  /\ In lane_three [no_status_b; lane_three]
  /\ is_str (get no_status_b (u "lane") (JStr (u "unknown"))) = true
  /\ is_str (get lane_three (u "lane") (JStr (u "unknown"))) = false
  /\ exists e, snd (render Sample.runtime [no_status_b; lane_three]
                      (world None true frozen)) = Raise e.
Proof.
  split; [left; reflexivity|]. split; [right; left; reflexivity|].
  split; [reflexivity|]. split; [reflexivity|].
  destruct (@lanes_of_two_kinds_are_fatal Sample.runtime
              [no_status_b; lane_three] no_status_b lane_three
              (world None true frozen)
              (or_introl eq_refl) (or_intror (or_introl eq_refl))
              eq_refl eq_refl) as (_ & R & _).
  exact R.
Defined.

(** A start ten seconds ahead of the clock. *)
Example start_ahead_of_the_clock :
  snd (duration_cell Sample.runtime early_bird (world None true frozen))
  = Ok (u "-1 day, 23:59:50").
Proof. reflexivity. Qed.

(** A task that is a number ends the run. *)
Example numeric_task_is_fatal :
  let w := world (Some [(u "q.json", Loads (JObj task_42))]) true frozen in
  snd (main Sample.runtime w) = Exited 1
  /\ board (fst (main Sample.runtime w))
     = Some (error_document Sample.runtime (NotSubscriptable TInt) (frozen 0)).
Proof. repeat split. Qed.

(** A lane that is a number, next to a record without a lane, does so
    too. *)
Example numeric_lane_is_fatal :
  let w := world (Some [(u "b.json", Loads (JObj no_status_b));
                        (u "n.json", Loads (JObj lane_three))]) true frozen in
  snd (main Sample.runtime w) = Exited 1
  /\ board (fst (main Sample.runtime w))
     = Some (error_document Sample.runtime (NotOrderable TInt TStr) (frozen 0)).
Proof. repeat split. Qed.

(** X13: for records whose lanes are strings, every record is counted
    in exactly one row of the lane table: the Total column adds up to the
    number of records, and the Active, Blocked and Idle columns add up to the
    numbers of records whose status is in_progress or waiting, blocked, and
    anything else. *)
Theorem lane_columns_add_up (agents : list dict) :
  Forall (fun d => lane_named d = true) agents ->
  let column f := list_sum (map (fun row => f (snd row)) (lane_rows agents)) in
  let of_kind kind := length (filter (fun d => kind (lane_status d)) agents) in
  column lane_total = length agents
  /\ column n_active = of_kind counts_active
  /\ column n_blocked = of_kind counts_blocked
  /\ column n_idle = of_kind counts_idle.
Proof.
  intros L column of_kind. subst column of_kind. cbv beta.
  rewrite !(fun f => @ColumnFacts.column_of_table f agents L).
  pose proof (LaneFacts.first_seen_NoDup agents) as N.
  pose proof (ColumnFacts.lanes_cover agents) as C.
  repeat split.
  - rewrite (map_ext _ _ (fun n => LaneFacts.count_split n agents)).
    unfold lane_size.
    rewrite (map_ext _ (fun n => length (filter (fun d => str_eqb (lane_of d) n
                                                           && true) agents))).
    + rewrite (@ColumnFacts.sum_of_counts (fun _ => true) _ agents N C).
      rewrite (@forallb_filter_id _ (fun _ => true)); [reflexivity|].
      apply forallb_forall. reflexivity.
    + intros n. f_equal. apply filter_ext. intros d.
      rewrite andb_true_r. reflexivity.
  - apply (@ColumnFacts.sum_of_counts
             (fun d => counts_active (lane_status d)) _ agents N C).
  - apply (@ColumnFacts.sum_of_counts
             (fun d => counts_blocked (lane_status d)) _ agents N C).
  - apply (@ColumnFacts.sum_of_counts
             (fun d => counts_idle (lane_status d)) _ agents N C).
Qed.

Lemma lane_columns_add_up_witness :
  Forall (fun d => lane_named d = true) [waiting_in_x; blocked_in_x; no_status_b]
  /\ map (fun row => lane_total (snd row))
         (lane_rows [waiting_in_x; blocked_in_x; no_status_b]) = [1; 2]
  /\ list_sum (map (fun row => lane_total (snd row))
                   (lane_rows [waiting_in_x; blocked_in_x; no_status_b])) = 3.
Proof.
  split; [repeat constructor|]. split; [reflexivity|].
  destruct (@lane_columns_add_up [waiting_in_x; blocked_in_x; no_status_b])
    as (T & _); [repeat constructor|].
  exact T.
Defined.

(** X14: the timestamps the script writes end in Z.  When the ISO
    format of the reading ends with the offset +00:00 and has no other plus
    sign, the stamp is that text with the offset replaced by Z; this is what
    the header of the board, the error document and the lastUpdate of the
    placeholder carry. *)
Theorem utc_stamp_ends_in_Z (rt : Runtime) (t : Z) (body : str) :
  isoformat rt t = body ++ u "+00:00" ->
  Forall (fun c => c <> 43%N) body ->
  utc_stamp rt t = body ++ u "Z"
  /\ updated_line rt t = u "**Last Updated:** " ++ body ++ u "Z" ++ nl
  /\ attempt_line rt t = u "**Last Attempt:** " ++ body ++ u "Z" ++ nl
  /\ get (system_status_at rt t) (u "lastUpdate") JNull = JStr (body ++ u "Z").
Proof.
  intros I F.
  assert (utc_stamp rt t = body ++ u "Z") as E
      by (unfold utc_stamp; rewrite I; apply StampFacts.replace_offset; exact F).
  split; [exact E|].
  split; [unfold updated_line; rewrite E, <- !app_assoc; reflexivity|].
  split; [unfold attempt_line; rewrite E, <- !app_assoc; reflexivity|].
  change (get (system_status_at rt t) (u "lastUpdate") JNull)
    with (JStr (utc_stamp rt t)).
  rewrite E. reflexivity.
Qed.

Lemma utc_stamp_ends_in_Z_witness :
  isoformat Sample.runtime (frozen 0) = u "2023-11-14T22:13:20" ++ u "+00:00"
  /\ Forall (fun c => c <> 43%N) (u "2023-11-14T22:13:20")
  /\ utc_stamp Sample.runtime (frozen 0) = u "2023-11-14T22:13:20" ++ u "Z".
Proof.
  assert (Forall (fun c => c <> 43%N) (u "2023-11-14T22:13:20")) as F
      by (repeat constructor; discriminate).
  split; [reflexivity|]. split; [exact F|].
  apply (@utc_stamp_ends_in_Z Sample.runtime (frozen 0)
           (u "2023-11-14T22:13:20") eq_refl F).
Defined.

(** X15: the duration cell of a record whose started is a non-empty
    string that parses to a timestamp with an offset.  It shows the elapsed
    whole seconds (rounded down) as h:mm:ss when less than a day has elapsed,
    preceded by the number of days beyond (1 day, 2 days), and, when started
    lies ahead of the clock by up to a day, by -1 day, followed by the time
    left of that day: a start ten seconds ahead reads -1 day, 23:59:50. *)
Theorem duration_cell_by_elapsed_time (rt : Runtime) (d : dict) (w : World)
        (c : char) (s : str) (t0 : Z) :
  lookup (u "started") d = Some (JStr (c :: s)) ->
  fromisoformat rt (replace (u "Z") (u "+00:00") (c :: s)) = Some (Aware t0) ->
  let elapsed := (clock w (ticks w) - t0)%Z in
  let seconds := (elapsed / us_per_second)%Z in
  let cell := with_days (seconds / 86400) (hms (seconds mod 86400)) in
  snd (duration_cell rt d w) = Ok cell
  /\ ((0 <= elapsed < us_per_day)%Z -> cell = hms seconds)
  /\ ((us_per_day <= elapsed < 2 * us_per_day)%Z ->
      cell = u "1 day, " ++ hms (seconds - 86400))
  /\ ((2 * us_per_day <= elapsed < 3 * us_per_day)%Z ->
      cell = u "2 days, " ++ hms (seconds - 2 * 86400))
  /\ ((- us_per_day <= elapsed < 0)%Z ->
      cell = u "-1 day, " ++ hms (seconds + 86400)).
Proof.
  intros L P elapsed seconds cell.
  assert (forall k,
             (k * us_per_day <= elapsed < (k + 1) * us_per_day)%Z ->
             (seconds / 86400 = k /\ seconds mod 86400 = seconds - k * 86400)%Z)
    as R.
  { intros k H. subst seconds. unfold us_per_day, us_per_second in *.
    assert (k * 86400 <= elapsed / 1000000 < (k + 1) * 86400)%Z as B.
    { split.
      - apply Z.div_le_lower_bound; lia.
      - apply Z.div_lt_upper_bound; lia. }
    assert (elapsed / 1000000 / 86400 = k)%Z as Q.
    { symmetry. apply (Z.div_unique _ _ k (elapsed / 1000000 - k * 86400)); lia. }
    split; [exact Q|].
    rewrite Z.mod_eq by lia. rewrite Q. lia. }
  split.
  - unfold duration_cell, get. rewrite L. cbn [truthy]. rewrite P.
    unfold bind, now, ret. cbn [snd].
    rewrite TimeFacts.td_str_whole_seconds, StampFacts.td_str_by_days.
    reflexivity.
  - subst cell. repeat split; intros H.
    + destruct (R 0%Z) as [-> ->]; [lia|]. rewrite Z.sub_0_r. reflexivity.
    + destruct (R 1%Z) as [-> ->]; [lia|]. reflexivity.
    + destruct (R 2%Z) as [-> ->]; [lia|]. reflexivity.
    + destruct (R (-1)%Z) as [-> ->]; [lia|]. reflexivity.
Qed.

Lemma duration_cell_by_elapsed_time_witness :
  lookup (u "started") long_task = Some (JStr (u "2023-11-14T22:13:20Z"))
  /\ fromisoformat Sample.runtime
       (replace (u "Z") (u "+00:00") (u "2023-11-14T22:13:20Z"))
     = Some (Aware 1700000000000000)
  /\ snd (duration_cell Sample.runtime long_task (world None true ninety_later))
     = Ok (u "0:01:30").
Proof.
  split; [reflexivity|]. split; [reflexivity|].
  destruct (@duration_cell_by_elapsed_time Sample.runtime long_task
              (world None true ninety_later) 50%N (u "023-11-14T22:13:20Z")
              1700000000000000 eq_refl eq_refl) as (C & _).
  exact C.
Defined.

(** X16: what a run that finds no record file prints, the board being
    writable.  When the directory was missing: the notice that it is created,
    the path of the placeholder written, and the four lines of the summary,
    which count no active, no blocked and one idle agent.  When the directory
    was there: the notice that no status file was found, and the same
    summary. *)
Theorem console_of_a_placeholder_run (rt : Runtime) (w : World) :
  board_writable w = true ->
  status_dir w = None
  \/ (exists entries, status_dir w = Some entries /\ record_files entries = []) ->
  console (fst (main rt w))
  = console w
    ++ match status_dir w with
       | None => [ u "Creating agent-status directory...";
                   u "Created agent-status/system.json" ]
       | Some _ =>
           [ u "No agent status files found, creating empty status board" ]
       end
    ++ [ u "[SUCCESS] Status board updated: AGENT-STATUS.md";
         u "   - 0 active agents";
         u "   - 0 blocked agents";
         u "   - 1 idle agents" ].
Proof.
  intros W D. rewrite (@GoodRuns.main_placeholder rt w W D).
  destruct (status_dir w); reflexivity.
Qed.

Lemma console_of_a_placeholder_run_witness :
  board_writable (world None true ticking) = true
  /\ status_dir (world None true ticking) = None
  /\ length (console (fst (main Sample.runtime (world None true ticking)))) = 6.
Proof.
  split; [reflexivity|]. split; [reflexivity|].
  rewrite (@console_of_a_placeholder_run Sample.runtime
             (world None true ticking) eq_refl (or_introl eq_refl)).
  reflexivity.
Defined.

(** X17: the run that follows one that wrote the placeholder.  It
    finds system.json, loads it like any record file and leaves the directory
    as it is; it prints the summary only; and its board is again the one of
    the placeholder alone, with the lastUpdate of the first run and the render
    time of the second. *)
Theorem second_run_shows_the_placeholder (rt : Runtime) (w : World) :
  board_writable w = true ->
  status_dir w = None
  \/ (exists entries, status_dir w = Some entries /\ record_files entries = []) ->
  let w1 := fst (main rt w) in
  let system := system_status_at rt (clock w (ticks w)) in
  snd (main rt w1) = Exited 0
  /\ status_dir (fst (main rt w1)) = status_dir w1
  /\ board (fst (main rt w1))
     = Some (placeholder_board rt (clock w (S (S (ticks w)))) system)
  /\ console (fst (main rt w1))
     = console w1
       ++ [ u "[SUCCESS] Status board updated: AGENT-STATUS.md";
            u "   - 0 active agents";
            u "   - 0 blocked agents";
            u "   - 1 idle agents" ].
Proof.
  intros W D w1 system.
  pose proof (@GoodRuns.main_placeholder rt w W D) as E. cbv zeta in E.
  assert (record_files
            match status_dir w with Some entries => entries | None => [] end
          = []) as R
      by (destruct D as [D | [entries [D R]]]; rewrite D;
          [reflexivity | exact R]).
  assert (board_writable w1 = true) as W1
      by (subst w1; rewrite E; exact W).
  assert (status_dir w1
          = Some (insert_at (slot w) (system_name, Loads (JObj system))
                    match status_dir w with
                    | Some entries => entries
                    | None => []
                    end)) as D1
      by (subst w1; rewrite E; reflexivity).
  rewrite (@GoodRuns.main_over_placeholder rt _ _ _ w1 W1 R D1).
  cbn [fst snd]. subst w1. rewrite E. cbn [fst]. repeat split.
Qed.

Lemma second_run_shows_the_placeholder_witness :
  board_writable (world None true ticking) = true
  /\ status_dir (world None true ticking) = None
  /\ board (fst (main Sample.runtime
                   (fst (main Sample.runtime (world None true ticking)))))
     = Some (placeholder_board Sample.runtime (ticking 2)
               (system_status_at Sample.runtime (ticking 0))).
Proof.
  split; [reflexivity|]. split; [reflexivity|].
  destruct (@second_run_shows_the_placeholder Sample.runtime
              (world None true ticking) eq_refl (or_introl eq_refl))
    as (_ & _ & B & _).
  exact B.
Defined.

(** X18: the whole run over a directory whose record files are all
    tolerated (each fails with one of the two classes the loader catches, or
    holds a falsy value, or holds a record of the data model, every field a
    string that UTF-8 encodes), the board being writable.  The process exits
    with status 0 and the directory is unchanged; the console receives one
    warning per failing file, in listing order, naming its path and the
    error, and then the summary; the board is the one of the records the
    other files hold, in sorted order; and the clock has been read once for
    the header and once for each active row whose started parses. *)
Theorem run_over_tolerated_files (rt : Runtime) (w : World)
        (entries : list (str * file)) :
  status_dir w = Some entries ->
  record_files entries <> [] ->
  board_writable w = true ->
  forallb (fun n => tolerated (read_of entries n)) (record_files entries)
  = true ->
  let names := record_files entries in
  let warnings :=
    flat_map (fun n => match read_of entries n with
                       | Raise e =>
                           [ u "Warning: Could not read " ++ path_of n
                             ++ u ": " ++ exn_text rt e ]
                       | Ok _ => []
                       end) names in
  let agents := sorted_agents (records_of entries names) in
  snd (main rt w) = Exited 0
  /\ status_dir (fst (main rt w)) = Some entries
  /\ board (fst (main rt w)) = Some (board_chunks rt (clock w) (ticks w) agents)
  /\ console (fst (main rt w)) = console w ++ warnings ++ summary_lines agents
  /\ ticks (fst (main rt w)) = S (ticks w) + clock_reads rt (active_of agents).
Proof.
  intros D N W T names warnings agents. unfold main.
  rewrite (@RunFacts.aggregate_listing rt entries w D N). cbv zeta.
  destruct (LoadFacts.load_outcome_tolerated rt entries _ T) as [L F].
  rewrite L, (GoodRuns.warnings_of_tolerated rt entries _ T).
  rewrite (@RunFacts.finish_typed rt _
             (set_console
                (console w
                 ++ flat_map (fun n => match read_of entries n with
                                       | Raise e => [warning rt n e]
                                       | Ok _ => []
                                       end) (record_files entries)) w)
             F W).
  cbv zeta. cbn [fst snd]. repeat split; try exact D.
  unfold set_console. cbn [console]. rewrite <- app_assoc. reflexivity.
Qed.

Lemma run_over_tolerated_files_witness :
  status_dir (world (Some dir_with_malformed) true ticking)
  = Some dir_with_malformed
  /\ record_files dir_with_malformed <> []
  /\ forallb (fun n => tolerated (read_of dir_with_malformed n))
             (record_files dir_with_malformed) = true
  /\ console (fst (main Sample.runtime
                     (world (Some dir_with_malformed) true ticking)))
     = [ u "Warning: Could not read agent-status/torn.json: Expecting value: line 1 column 1 (char 0)";
         u "[SUCCESS] Status board updated: AGENT-STATUS.md";
         u "   - 1 active agents";
         u "   - 0 blocked agents";
         u "   - 0 idle agents" ].
Proof.
  split; [reflexivity|]. split; [discriminate|]. split; [reflexivity|].
  destruct (@run_over_tolerated_files Sample.runtime
              (world (Some dir_with_malformed) true ticking)
              dir_with_malformed eq_refl)
    as (_ & _ & _ & C & _); [discriminate | reflexivity | reflexivity |].
  rewrite C. reflexivity.
Defined.

(** X19: a record whose status is a string other than the five known
    ones is ranked 5 by the sort, after the completed records, and is listed
    under Active Work with the generic marker and its own status text; the
    lane table counts it as idle. *)
Theorem record_with_unrecognized_status (rt : Runtime) (d : dict) (s : str)
        (agents : list dict) :
  lookup (u "status") d = Some (JStr s) ->
  ~ In s [u "in_progress"; u "blocked"; u "waiting"; u "idle"; u "completed"] ->
  In d agents ->
  In d (active_of agents)
  /\ sort_key (JObj d) = Ok (5, get d (u "agentId") (JStr (u "unknown")))
  /\ table_get status_emoji_table (get d (u "status") (JStr (u "idle")))
               [10067%N]
     = Ok [10067%N]
  /\ fmt rt (get d (u "status") (JStr (u "unknown"))) = s
  /\ bucket (get d (u "status") (JStr (u "idle"))) = inc_idle.
Proof.
  intros L N I.
  assert (forall dflt, get d (u "status") dflt = JStr s) as G
      by (intros dflt; unfold get; rewrite L; reflexivity).
  repeat split.
  - apply filter_In. split; [exact I|]. unfold status_of. rewrite G.
    rewrite StatusFacts.is_in_absent; [reflexivity|].
    intros H. apply N. simpl in *. tauto.
  - unfold sort_key. cbn [as_dict rbind]. rewrite G.
    rewrite (@StatusFacts.table_get_absent _ s priority 5 N). reflexivity.
  - rewrite G. apply StatusFacts.table_get_absent.
    intros H. apply N. simpl in *. tauto.
  - rewrite G. reflexivity.
  - rewrite G. unfold bucket.
    rewrite StatusFacts.is_in_absent by (intros H; apply N; simpl in *; tauto).
    rewrite LaneFacts.py_eq_str.
    assert (str_eqb s (u "blocked") = false) as ->
        by (apply StrFacts.str_eqb_neq; intros ->; apply N; simpl; tauto).
    reflexivity.
Qed.

Lemma record_with_unrecognized_status_witness :
  lookup (u "status") paused_p = Some (JStr (u "paused"))
  /\ ~ In (u "paused")
          [u "in_progress"; u "blocked"; u "waiting"; u "idle"; u "completed"]
  /\ In paused_p [completed_a; paused_p]
  /\ sort_agents (map JObj [paused_p; completed_a]) = Ok [completed_a; paused_p]
  /\ sort_key (JObj paused_p) = Ok (5, JStr (u "p")).
Proof.
  assert (~ In (u "paused")
            [u "in_progress"; u "blocked"; u "waiting"; u "idle"; u "completed"])
    as N by (simpl; intuition discriminate).
  split; [reflexivity|]. split; [exact N|].
  split; [right; left; reflexivity|]. split; [reflexivity|].
  destruct (@record_with_unrecognized_status Sample.runtime paused_p
              (u "paused") [completed_a; paused_p] eq_refl N
              (or_intror (or_introl eq_refl))) as (_ & K & _).
  exact K.
Defined.

(** X20: the rows of every table are in the order of the sort.  The
    blocked, the idle and the completed records are therefore listed by
    ascending identifier, and the five rows of Recent Completions are those of
    the completed records with the smallest identifiers: no completed record
    that is left out has an identifier below one that is shown. *)
Theorem tables_follow_the_sort (ds sorted : list dict) :
  Forall (fun d => sortable d = true) ds ->
  sort_agents (map JObj ds) = Ok sorted ->
  let by_id :=
    StronglySorted
      (fun a b => str_ltb (text (agent_id b)) (text (agent_id a)) = false) in
  ascending key_of (active_of sorted)
  /\ by_id (blocked_of sorted)
  /\ by_id (idle_of sorted)
  /\ by_id (completed_of sorted)
  /\ (forall a b, In a (firstn 5 (completed_of sorted)) ->
                  In b (skipn 5 (completed_of sorted)) ->
                  str_ltb (text (agent_id b)) (text (agent_id a)) = false).
Proof.
  intros F S by_id.
  rewrite (SorterFacts.sort_agents_sortable F) in S. injection S as <-.
  pose proof (SorterFacts.sorted_agents_ascending ds) as A.
  assert (by_id (completed_of (sorted_agents ds))) as C
      by (apply RowOrder.one_status_by_id; exact A).
  split; [apply RowOrder.StronglySorted_filter; exact A|].
  split; [apply RowOrder.one_status_by_id; exact A|].
  split; [apply RowOrder.one_status_by_id; exact A|].
  split; [exact C|].
  intros a b Ia Ib. unfold by_id in C.
  rewrite <- (firstn_skipn 5 (completed_of (sorted_agents ds))) in C.
  apply (@RowOrder.StronglySorted_app _ _ _ _ a b C Ia Ib).
Qed.

Lemma tables_follow_the_sort_witness :
  Forall (fun d => sortable d = true) (rev seven_completed)
  /\ sort_agents (map JObj (rev seven_completed)) = Ok seven_completed
  /\ map (fun d => text (agent_id d)) (firstn 5 (completed_of seven_completed))
     = [u "a"; u "b"; u "c"; u "d"; u "e"]
  /\ forall a b, In a (firstn 5 (completed_of seven_completed)) ->
                 In b (skipn 5 (completed_of seven_completed)) ->
                 str_ltb (text (agent_id b)) (text (agent_id a)) = false.
Proof.
  assert (Forall (fun d => sortable d = true) (rev seven_completed)) as F
      by (repeat constructor).
  split; [exact F|]. split; [reflexivity|]. split; [reflexivity|].
  destruct (@tables_follow_the_sort (rev seven_completed) seven_completed
              F eq_refl) as (_ & _ & _ & _ & R).
  exact R.
Defined.
